(** * DiveSMS i18n tooling: split metadata storage and the translation session

    A shallow embedding of the Python scripts under [_scripts/i18n/]:
    - [metadata_io.py]              (class [MetadataIO]),
    - [manage_string_metadata.py]   (class [MetadataManager], [save]),
    - [cleanup_orphaned_metadata.py],
    - [translate_with_context.py]   (class [MultiLanguageTranslator]).

    Python dictionaries keep insertion order and have unique keys; they are
    association lists here, with the operations of [dict] written out.
    Strings are Rocq strings: sequences of characters with code points
    below 256.  Exceptions are values of [exn] carried by [result]. *)

From Stdlib Require Import List String Ascii Bool Arith ZArith Lia Permutation.
Import ListNotations.
Local Open Scope string_scope.
Local Open Scope list_scope.

Set Implicit Arguments.
Set Warnings "-register-all".

(* ================================================================== *)
(** ** Python dictionaries *)
(* ================================================================== *)

Section Dict.
Variable V : Type.

Definition dict := list (string * V).

(** [d.get(k)] *)
Fixpoint dict_get (k : string) (d : dict) : option V :=
  match d with
  | [] => None
  | (k', v) :: r => if String.eqb k k' then Some v else dict_get k r
  end.

(** [k in d] *)
Definition dict_in (k : string) (d : dict) : bool :=
  match dict_get k d with Some _ => true | None => false end.

(** [d[k] = v]: an existing key keeps its position, a new one goes last. *)
Fixpoint dict_set (k : string) (v : V) (d : dict) : dict :=
  match d with
  | [] => [(k, v)]
  | (k', v') :: r =>
      if String.eqb k k' then (k, v) :: r else (k', v') :: dict_set k v r
  end.

(** [del d[k]] *)
Fixpoint dict_del (k : string) (d : dict) : dict :=
  match d with
  | [] => []
  | (k', v') :: r =>
      if String.eqb k k' then dict_del k r else (k', v') :: dict_del k r
  end.

(** [d.keys()], [d.values()] *)
Definition dict_keys (d : dict) : list string := map fst d.
Definition dict_values (d : dict) : list V := map snd d.

(** [d.update(d2)], also [{**d, **d2}] on a fresh copy of [d]. *)
Definition dict_update (d d2 : dict) : dict :=
  fold_left (fun acc kv => dict_set (fst kv) (snd kv) acc) d2 d.

(** [d.get(k, dflt)] *)
Definition dict_get_default (k : string) (dflt : V) (d : dict) : V :=
  match dict_get k d with Some v => v | None => dflt end.
End Dict.

Arguments dict_get {V} k d.
Arguments dict_in {V} k d.
Arguments dict_set {V} k v d.
Arguments dict_del {V} k d.
Arguments dict_keys {V} d.
Arguments dict_values {V} d.
Arguments dict_update {V} d d2.
Arguments dict_get_default {V} k dflt d.

(** [x in xs] for a list of strings. *)
Definition str_in (x : string) (xs : list string) : bool :=
  existsb (String.eqb x) xs.

(* ================================================================== *)
(** ** JSON / YAML values *)
(* ================================================================== *)

(** What [json.load] and [yaml.safe_load] return (floats left out: no
    metadata field holds one). *)
Inductive PyVal : Type :=
| PNone
| PBool (b : bool)
| PInt (z : Z)
| PStr (s : string)
| PList (l : list PyVal)
| PDict (d : list (string * PyVal)).

(** Python truthiness. *)
Definition truthy (v : PyVal) : bool :=
  match v with
  | PNone => false
  | PBool b => b
  | PInt z => negb (Z.eqb z 0)
  | PStr s => negb (String.eqb s "")
  | PList l => match l with [] => false | _ => true end
  | PDict d => match d with [] => false | _ => true end
  end.

(** [isinstance(v, dict)] *)
Definition is_dict (v : PyVal) : bool :=
  match v with PDict _ => true | _ => false end.

(** A metadata record as stored or merged: field name to value. *)
Definition Metadata := dict PyVal.
(** One category's shard: string key to its partial record. *)
Definition Shard := dict Metadata.

(* ================================================================== *)
(** ** [sorted] *)
(* ================================================================== *)

Section Sorted.
Variable A : Type.
Variable key : A -> string.

Fixpoint insert_sorted (x : A) (l : list A) : list A :=
  match l with
  | [] => [x]
  | y :: r => if String.leb (key x) (key y) then x :: y :: r
              else y :: insert_sorted x r
  end.

(** Sorting by code points of the key. *)
Definition sort_on (l : list A) : list A :=
  fold_right insert_sorted [] l.
End Sorted.

(** [sorted(keys)] on strings. *)
Definition sorted (l : list string) : list string := sort_on (fun s => s) l.

(** What [yaml.safe_load] reads back from [yaml.dump(v, sort_keys=True)]:
    the same value with the keys of every mapping in sorted order. *)
Fixpoint yaml_sort_keys (v : PyVal) : PyVal :=
  match v with
  | PList l => PList (map yaml_sort_keys l)
  | PDict d =>
      PDict (sort_on fst (map (fun kv => (fst kv, yaml_sort_keys (snd kv))) d))
  | _ => v
  end.

Definition yaml_record (r : Metadata) : Metadata :=
  sort_on fst (map (fun kv => (fst kv, yaml_sort_keys (snd kv))) r).

Definition yaml_dump (data : Shard) : Shard :=
  sort_on fst (map (fun kv => (fst kv, yaml_record (snd kv))) data).

(* ================================================================== *)
(** ** Exceptions *)
(* ================================================================== *)

Inductive exn : Type :=
| FileNotFoundError (path : string)
| TypeError (what : string)
| AttributeError (what : string).

Inductive result (A : Type) : Type :=
| Ok (a : A)
| Raise (e : exn).
Arguments Ok {A} a.
Arguments Raise {A} e.

Definition is_ok {A} (r : result A) : bool :=
  match r with Ok _ => true | Raise _ => false end.

(* ================================================================== *)
(** ** metadata_io.py: the files and the [MetadataIO] object *)
(* ================================================================== *)

(** [index.json].  The keys the scripts read or write are fields; the
    rest of the object (version, project, ...) rides along. *)
Record Index : Type := mkIndex {
  categories : dict (list string);
  files : dict string;
  total_strings : Z;
  documented_strings : Z;
  last_updated : string;
  other_fields : dict PyVal
}.

(** The metadata directory: [index.json], [defaults.json] (the whole
    JSON object) and the [<category>.yaml] files, by category. *)
Record Disk : Type := mkDisk {
  index_json : option Index;
  defaults_json : option (dict PyVal);
  category_yaml : dict Shard
}.

(** The object: the directory it points at and its three caches.
    [_defaults] is [PNone] until the defaults are loaded. *)
Record MetadataIO : Type := mkIO {
  disk : Disk;
  _index : option Index;
  _defaults : PyVal;
  _category_cache : dict Shard
}.

(** Methods run in a state-and-exception monad over the object: a raised
    exception keeps whatever the caches held at that point. *)
Definition M (A : Type) : Type := MetadataIO -> result A * MetadataIO.

Definition ret {A} (a : A) : M A := fun io => (Ok a, io).
Definition raise {A} (e : exn) : M A := fun io => (Raise e, io).
Definition bind {A B} (m : M A) (f : A -> M B) : M B :=
  fun io => match m io with
            | (Ok a, io') => f a io'
            | (Raise e, io') => (Raise e, io')
            end.

Notation "x <- m ;; k" := (bind m (fun x => k))
  (at level 61, m at next level, right associativity).

(** [for x in xs: acc = body(acc, x)] *)
Fixpoint for_each {A B} (xs : list A) (body : B -> A -> M B) (acc : B) : M B :=
  match xs with
  | [] => ret acc
  | x :: r => acc' <- body acc x ;; for_each r body acc'
  end.

Definition _load_index : M Index := fun io =>
  match _index io with
  | Some i => (Ok i, io)
  | None =>
      match index_json (disk io) with
      | None => (Raise (FileNotFoundError "index.json"), io)
      | Some i => (Ok i, mkIO (disk io) (Some i) (_defaults io) (_category_cache io))
      end
  end.

(** What [_load_defaults] reads: [{}] without a file, else
    [data.get('defaults', {})]. *)
Definition defaults_on_disk (d : Disk) : PyVal :=
  match defaults_json d with
  | None => PDict []
  | Some data => dict_get_default "defaults" (PDict []) data
  end.

Definition _load_defaults : M PyVal := fun io =>
  match _defaults io with
  | PNone =>
      let d := defaults_on_disk (disk io) in
      (Ok d, mkIO (disk io) (_index io) d (_category_cache io))
  | d => (Ok d, io)
  end.

Definition _load_category_file (category : string) : M Shard := fun io =>
  match dict_get category (_category_cache io) with
  | Some data => (Ok data, io)
  | None =>
      match dict_get category (category_yaml (disk io)) with
      | None => (Raise (FileNotFoundError (category ++ ".yaml")%string), io)
      | Some data =>
          (Ok data,
           mkIO (disk io) (_index io) (_defaults io)
                (dict_set category data (_category_cache io)))
      end
  end.

(** The two loops of [_merge_with_defaults], over already loaded
    defaults.  [{**default_value, **x}] raises when [x] is no mapping. *)
Definition merge_default_field (metadata : Metadata)
    (merged : Metadata) (kd : string * PyVal) : result Metadata :=
  let (key, default_value) := kd in
  match default_value with
  | PDict dv =>
      match dict_get_default key (PDict []) metadata with
      | PDict m => Ok (dict_set key (PDict (dict_update dv m)) merged)
      | _ => Raise (TypeError "object is not a mapping")
      end
  | _ => Ok (dict_set key (dict_get_default key default_value metadata) merged)
  end.

Fixpoint merge_defaults_loop (metadata : Metadata) (ds : list (string * PyVal))
    (merged : Metadata) : result Metadata :=
  match ds with
  | [] => Ok merged
  | kd :: r =>
      match merge_default_field metadata merged kd with
      | Ok merged' => merge_defaults_loop metadata r merged'
      | Raise e => Raise e
      end
  end.

Definition merge_rest_loop (metadata merged : Metadata) : Metadata :=
  fold_left (fun mg kv => if dict_in (fst kv) mg then mg
                          else dict_set (fst kv) (snd kv) mg)
            metadata merged.

Definition merge (defaults : PyVal) (metadata : Metadata) : result Metadata :=
  match defaults with
  | PDict ds =>
      match merge_defaults_loop metadata ds [] with
      | Ok merged => Ok (merge_rest_loop metadata merged)
      | Raise e => Raise e
      end
  | _ => Raise (AttributeError "items")
  end.

Definition lift_result {A} (r : result A) : M A := fun io => (r, io).

Definition _merge_with_defaults (metadata : Metadata) : M Metadata :=
  defaults <- _load_defaults ;;
  lift_result (merge defaults metadata).

(** The first category of the index whose key list holds the key. *)
Fixpoint find_category (string_key : string) (cats : dict (list string))
    : option string :=
  match cats with
  | [] => None
  | (cat, keys) :: r =>
      if str_in string_key keys then Some cat else find_category string_key r
  end.

Definition get_string_metadata (string_key : string) : M (option Metadata) :=
  index <- _load_index ;;
  match find_category string_key (categories index) with
  | None => ret None
  | Some category =>
      category_data <- _load_category_file category ;;
      match dict_get string_key category_data with
      | None => ret None
      | Some string_metadata =>
          merged <- _merge_with_defaults string_metadata ;;
          ret (Some merged)
      end
  end.

Definition get_category_metadata (category : string) : M (dict Metadata) :=
  category_data <- _load_category_file category ;;
  for_each category_data
    (fun result kv =>
       merged <- _merge_with_defaults (snd kv) ;;
       ret (dict_set (fst kv) merged result))
    [].

Definition get_all_metadata : M (dict Metadata) :=
  index <- _load_index ;;
  for_each (dict_keys (categories index))
    (fun all_metadata category =>
       category_metadata <- get_category_metadata category ;;
       ret (dict_update all_metadata category_metadata))
    [].

(** [save_category]: the file is rewritten in full and the cache entry
    dropped. *)
Definition save_category (category : string) (data : Shard) : M unit := fun io =>
  let d := disk io in
  (Ok tt,
   mkIO (mkDisk (index_json d) (defaults_json d)
                (dict_set category (yaml_dump data) (category_yaml d)))
        (_index io) (_defaults io)
        (dict_del category (_category_cache io))).

(** [save_index]: stamps the date, writes the file, drops the cache. *)
Definition save_index (today : string) (index_data : Index) : M unit := fun io =>
  let d := disk io in
  let stamped := mkIndex (categories index_data) (files index_data)
                   (total_strings index_data) (documented_strings index_data)
                   today (other_fields index_data) in
  (Ok tt,
   mkIO (mkDisk (Some stamped) (defaults_json d) (category_yaml d))
        None (_defaults io) (_category_cache io)).

(* ================================================================== *)
(** ** manage_string_metadata.py: [StringMetadata], [MetadataManager.save] *)
(* ================================================================== *)

(** [StringMetadata]: the category is a string, the field groups are
    whatever the record held. *)
Record StringMetadata : Type := mkStringMetadata {
  sm_category : string;
  sm_ui : PyVal;
  sm_context : PyVal;
  sm_purpose : PyVal;
  sm_constraints : PyVal;
  sm_translation_guidance : PyVal;
  sm_references : PyVal;
  sm_technical : PyVal
}.

Definition to_dict (m : StringMetadata) : Metadata :=
  [ ("category", PStr (sm_category m));
    ("ui", sm_ui m);
    ("context", sm_context m);
    ("purpose", sm_purpose m);
    ("constraints", sm_constraints m);
    ("translation_guidance", sm_translation_guidance m);
    ("references", sm_references m);
    ("technical", sm_technical m) ].

(** The legacy [strings_metadata.json], as far as [save] writes it. *)
Record LegacyFile : Type := mkLegacy {
  legacy_last_updated : string;
  legacy_documented_strings : Z;
  legacy_strings : dict Metadata
}.

Record MetadataManager : Type := mkManager {
  metadata : dict StringMetadata;          (* the working set *)
  file_data_total_strings : Z;             (* file_data.get('total_strings', 0) *)
  metadata_io : option MetadataIO;
  metadata_file : option LegacyFile
}.

Definition is_split_format (io : MetadataIO) : bool :=
  match index_json (disk io) with Some _ => true | None => false end.

(** [meta.category or 'uncategorized'] *)
Definition category_or_uncategorized (m : StringMetadata) : string :=
  if String.eqb (sm_category m) "" then "uncategorized" else sm_category m.

(** The [defaultdict(dict)] loop of [save]. *)
Definition group_by_category (working : dict StringMetadata) : dict Shard :=
  fold_left
    (fun (by_category : dict Shard) kv =>
       let category := category_or_uncategorized (snd kv) in
       dict_set category
         (dict_set (fst kv) (to_dict (snd kv))
                   (@dict_get_default Shard category [] by_category))
         by_category)
    working [].

Definition Z_len {A} (l : list A) : Z := Z.of_nat (List.length l).

(** The [try] block of [save]; the number of categories is what the
    closing message prints. *)
Definition save_split (today : string) (mgr : MetadataManager) : M nat :=
  let by_category := group_by_category (metadata mgr) in
  _ <- for_each by_category
         (fun _ cs => save_category (fst cs) (snd cs)) tt ;;
  index_data <- _load_index ;;
  _ <- save_index today
         (mkIndex
            (map (fun cs => (fst cs, sorted (dict_keys (snd cs)))) by_category)
            (map (fun cs => (fst cs,
                    ("metadata_divesms/" ++ fst cs ++ ".yaml")%string))
                 by_category)
            (file_data_total_strings mgr)
            (Z_len (metadata mgr))
            (last_updated index_data)
            (other_fields index_data)) ;;
  ret (List.length by_category).

Inductive SaveMessage : Type :=
| SavedSplit (entries categories : nat)
| ErrorSavingSplit (e : exn)
| SavedLegacy (entries : nat).

Definition save_legacy (today : string) (mgr : MetadataManager)
    (io : option MetadataIO) : MetadataManager :=
  mkManager (metadata mgr) (file_data_total_strings mgr) io
    (Some (mkLegacy today (Z_len (metadata mgr))
             (map (fun kv => (fst kv, to_dict (snd kv))) (metadata mgr)))).

Definition save (today : string) (mgr : MetadataManager)
    : MetadataManager * list SaveMessage :=
  match metadata_io mgr with
  | Some io =>
      if is_split_format io then
        match save_split today mgr io with
        | (Ok ncat, io') =>
            (mkManager (metadata mgr) (file_data_total_strings mgr)
                       (Some io') (metadata_file mgr),
             [SavedSplit (List.length (metadata mgr)) ncat])
        | (Raise e, io') =>
            (save_legacy today mgr (Some io'),
             [ErrorSavingSplit e; SavedLegacy (List.length (metadata mgr))])
        end
      else (save_legacy today mgr (Some io),
            [SavedLegacy (List.length (metadata mgr))])
  | None => (save_legacy today mgr None,
             [SavedLegacy (List.length (metadata mgr))])
  end.

(* ================================================================== *)
(** ** Android string resources *)
(* ================================================================== *)

(** One [<string>] element.  An absent [name] attribute and an absent
    text are the empty string: the scripts test both for truth only.
    [elem_text] is [elem.text], the text up to the first child element.
    [elem_markup] is what the element holds after that text: child
    elements such as [<b>] or [<xliff:g>] with the text that follows
    them, in the file's spelling; it is empty for an entry that is text
    only.  No script reads it. *)
Record StringElem : Type := mkStringElem {
  elem_name : string;
  elem_text : string;
  elem_formatted : option string;           (* the [formatted] attribute *)
  elem_markup : string
}.

(** An entry that is text only. *)
Abbreviation mkElem name text formatted :=
  (mkStringElem name text formatted EmptyString).

(** A [strings.xml] that exists: [ET.parse] fails, or yields a tree of
    which the scripts take the [<string>] elements in document order,
    [root.findall('.//string')].  [rest] is what the file holds besides
    them, comments and other resources such as [<plurals>], in the
    file's spelling; no script reads it. *)
Inductive XmlFile : Type :=
| Unparsable
| Resources (elems : list StringElem) (rest : string).

(* ================================================================== *)
(** ** cleanup_orphaned_metadata.py *)
(* ================================================================== *)

(** Printed lines, by template and interpolated values. *)
Inductive Line : Type :=
| StringsFileNotFound
| Banner (dry_run : bool)
| MetadataDirectoryLine
| StringsFileLine
| Rule
| NoOrphanedFound
| FoundOrphaned (total ncategories : nat)
| CategoryHeading (category : string) (n : nat)
| KeyBullet (key : string)
| Blank
| DryRunNotice
| RemovingOrphaned
| CategoryFileNotFound (category : string)
| WouldRemove (key : string)
| Removed (key : string)
| UpdatedCategory (category : string) (removed : nat)
| UpdatedIndex
| CleanupComplete (removed : nat).

(** The set of names of [strings.xml] (the caller only tests
    membership), with the message printed when the file is absent.
    The file is taken to parse. *)
Definition get_strings_from_xml (xml : option (list StringElem))
    : list string * list Line :=
  match xml with
  | None => ([], [StringsFileNotFound])
  | Some elems =>
      (fold_left (fun string_keys e =>
                    if String.eqb (elem_name e) "" then string_keys
                    else if str_in (elem_name e) string_keys then string_keys
                    else string_keys ++ [elem_name e])
                 elems [], [])
  end.

Definition orphaned_in (xml_strings string_keys : list string) : list string :=
  filter (fun string_key => negb (str_in string_key xml_strings)) string_keys.

Definition find_orphaned_metadata (d : Disk) (xml : option (list StringElem))
    : result (dict (list string)) * list Line :=
  let (xml_strings, out) := get_strings_from_xml xml in
  match index_json d with
  | None => (Raise (FileNotFoundError "index.json"), out)
  | Some index =>
      (Ok (fold_left
             (fun orphaned_by_category cks =>
                match orphaned_in xml_strings (snd cks) with
                | [] => orphaned_by_category
                | orphaned => dict_set (fst cks) orphaned orphaned_by_category
                end)
             (categories index) []),
       out)
  end.

(** The inner loop over one category's orphaned keys. *)
Fixpoint remove_keys (dry_run : bool) (orphaned_keys : list string)
    (category_data : Shard) (removed_count : nat) (out : list Line)
    : Shard * nat * list Line :=
  match orphaned_keys with
  | [] => (category_data, removed_count, out)
  | key :: r =>
      if dict_in key category_data then
        if dry_run then
          remove_keys dry_run r category_data (S removed_count)
                      (out ++ [WouldRemove key])
        else
          remove_keys dry_run r (dict_del key category_data) (S removed_count)
                      (out ++ [Removed key])
      else remove_keys dry_run r category_data removed_count out
  end.

(** The first loop of [remove_orphaned_metadata], over the categories. *)
Fixpoint remove_from_shards (dry_run : bool)
    (orphaned_by_category : dict (list string))
    (yaml : dict Shard) (total_removed : nat) (out : list Line)
    : dict Shard * nat * list Line :=
  match orphaned_by_category with
  | [] => (yaml, total_removed, out)
  | (category, orphaned_keys) :: r =>
      match dict_get category yaml with
      | None =>
          remove_from_shards dry_run r yaml total_removed
                             (out ++ [CategoryFileNotFound category])
      | Some category_data =>
          match remove_keys dry_run orphaned_keys category_data 0 out with
          | (category_data', removed_count, out') =>
              if andb (Nat.ltb 0 removed_count) (negb dry_run) then
                remove_from_shards dry_run r
                  (dict_set category (yaml_dump category_data') yaml)
                  (total_removed + removed_count)
                  (out' ++ [UpdatedCategory category removed_count])
              else
                remove_from_shards dry_run r yaml
                  (total_removed + removed_count) out'
          end
      end
  end.

(** The second loop: the index loses the orphaned keys, and a category
    left without keys. *)
Definition remove_from_index (orphaned_by_category : dict (list string))
    (cats : dict (list string)) : dict (list string) :=
  fold_left
    (fun cats cks =>
       match dict_get (fst cks) cats with
       | None => cats
       | Some keys =>
           match filter (fun key => negb (str_in key (snd cks))) keys with
           | [] => dict_del (fst cks) cats
           | kept => dict_set (fst cks) kept cats
           end
       end)
    orphaned_by_category cats.

(** [if 'metadata' in index: index['metadata']['last_updated'] = ...] *)
Definition touch_index_metadata (mtime : string) (other : dict PyVal)
    : result (dict PyVal) :=
  match dict_get "metadata" other with
  | None => Ok other
  | Some (PDict m) =>
      Ok (dict_set "metadata" (PDict (dict_set "last_updated" (PStr mtime) m))
                   other)
  | Some _ => Raise (TypeError "object does not support item assignment")
  end.

Definition remove_orphaned_metadata (mtime : string) (d : Disk)
    (orphaned_by_category : dict (list string)) (dry_run : bool)
    : result nat * Disk * list Line :=
  match remove_from_shards dry_run orphaned_by_category (category_yaml d) 0 [] with
  | (yaml', total_removed, out) =>
      let d' := mkDisk (index_json d) (defaults_json d) yaml' in
      if dry_run then (Ok total_removed, d', out)
      else
        match index_json d with
        | None => (Raise (FileNotFoundError "index.json"), d', out)
        | Some index =>
            match touch_index_metadata mtime (other_fields index) with
            | Raise e => (Raise e, d', out)
            | Ok other =>
                (Ok total_removed,
                 mkDisk
                   (Some (mkIndex
                            (remove_from_index orphaned_by_category
                                               (categories index))
                            (files index) (total_strings index)
                            (documented_strings index) (last_updated index)
                            other))
                   (defaults_json d) yaml',
                 out ++ [UpdatedIndex])
            end
        end
  end.

Definition sum_lengths (d : dict (list string)) : nat :=
  fold_right (fun cks n => List.length (snd cks) + n) 0 d.

(** The summary both modes print: the counts, then every category in
    sorted order with its keys in sorted order. *)
Definition print_summary (orphaned_by_category : dict (list string))
    : list Line :=
  [FoundOrphaned (sum_lengths orphaned_by_category)
                 (List.length orphaned_by_category)]
  ++ flat_map
       (fun cks =>
          CategoryHeading (fst cks) (List.length (snd cks))
          :: map KeyBullet (sorted (snd cks)) ++ [Blank])
       (sort_on fst orphaned_by_category).

(** [main]: the arguments, the metadata directory and [strings.xml] in;
    the directory afterwards and the printed lines out.  An exception
    ends the run with what was written and printed so far. *)
Definition cleanup_main (mtime : string) (argv : list string) (d : Disk)
    (xml : option (list StringElem)) : result unit * Disk * list Line :=
  let dry_run := negb (str_in "--execute" argv) in
  let head := [Banner dry_run; MetadataDirectoryLine; StringsFileLine; Rule] in
  match find_orphaned_metadata d xml with
  | (Raise e, out) => (Raise e, d, head ++ out)
  | (Ok [], out) => (Ok tt, d, head ++ out ++ [NoOrphanedFound])
  | (Ok orphaned_by_category, out) =>
      let preview := head ++ out ++ print_summary orphaned_by_category in
      if dry_run then (Ok tt, d, preview ++ [DryRunNotice])
      else
        match remove_orphaned_metadata mtime d orphaned_by_category false with
        | (Ok removed, d', out') =>
            (Ok tt, d', preview ++ [RemovingOrphaned] ++ out'
                        ++ [CleanupComplete removed])
        | (Raise e, d', out') =>
            (Raise e, d', preview ++ [RemovingOrphaned] ++ out')
        end
  end.

(* ================================================================== *)
(** ** translate_with_context.py: constants and string utilities *)
(* ================================================================== *)

(** Locale code mapping (API format to Android format). *)
Definition LOCALE_MAPPING : dict string :=
  [ ("en", "en"); ("zh-CN", "zh-rCN"); ("zh-TW", "zh-rTW");
    ("pt-BR", "pt-rBR"); ("hi", "hi"); ("es", "es"); ("ar", "ar");
    ("id", "id"); ("bn", "bn"); ("ru", "ru"); ("ja", "ja"); ("de", "de");
    ("fr", "fr"); ("ko", "ko"); ("tr", "tr"); ("vi", "vi"); ("it", "it");
    ("th", "th"); ("pl", "pl"); ("uk", "uk") ].

(** [LOCALE_MAPPING.get(api_locale, api_locale)] *)
Definition android_locale_of (api_locale : string) : string :=
  dict_get_default api_locale api_locale LOCALE_MAPPING.

Definition backslash : ascii := "\"%char.
Definition apostrophe : ascii := "'"%char.
Definition quote : ascii := "034"%char.

(** [text.replace(c, by)] for a one-character pattern. *)
Fixpoint replace_char (c : ascii) (by_ : string) (text : string) : string :=
  match text with
  | EmptyString => EmptyString
  | String a r =>
      if Ascii.eqb a c then String.append by_ (replace_char c by_ r)
      else String a (replace_char c by_ r)
  end.

Definition startswith (c : ascii) (text : string) : bool :=
  match text with
  | String a _ => Ascii.eqb a c
  | EmptyString => false
  end.

Definition escape_android_string (text : string) : string :=
  if String.eqb text "" then text
  else
    let text := replace_char backslash (String backslash (String backslash "")) text in
    let text := replace_char apostrophe (String backslash (String apostrophe "")) text in
    let text := replace_char quote (String backslash (String quote "")) text in
    if startswith "@" text then String backslash text
    else if startswith "?" text then String backslash text
    else text.

(** The class [\w] of a [str] pattern, on the code points below 256:
    ASCII letters, digits and the underscore, and the Latin-1
    alphanumerics. *)
Definition is_word (c : ascii) : bool :=
  let n := nat_of_ascii c in
  let between a b := andb (Nat.leb a n) (Nat.leb n b) in
  between 48 57 || between 65 90 || Nat.eqb n 95 || between 97 122
  || Nat.eqb n 170 || between 178 179 || Nat.eqb n 181 || between 185 186
  || between 188 190 || between 192 214 || between 216 246
  || between 248 255.

(** After a [%]: one or more word characters, then [%]. *)
Fixpoint word_run_then_percent (seen : bool) (s : string) : bool :=
  match s with
  | EmptyString => false
  | String c r =>
      if is_word c then word_run_then_percent true r
      else andb seen (Ascii.eqb c "%")
  end.

(** [re.search(r'%\w+%', s)], as a truth value. *)
Fixpoint re_search_custom_placeholder (s : string) : bool :=
  match s with
  | EmptyString => false
  | String c r =>
      (if Ascii.eqb c "%" then word_run_then_percent false r else false)
      || re_search_custom_placeholder r
  end.

(** The class [[sdifgeoxX]]. *)
Definition is_android_conversion (c : ascii) : bool :=
  existsb (Ascii.eqb c)
    ["s"; "d"; "i"; "f"; "g"; "e"; "o"; "x"; "X"]%char.

(** [re.findall(r'%[sdifgeoxX]', s)] *)
Fixpoint re_findall_android_specs (s : string) : list string :=
  match s with
  | EmptyString => []
  | String c r =>
      if Ascii.eqb c "%" then
        match r with
        | EmptyString => []
        | String c2 r2 =>
            if is_android_conversion c2
            then String c (String c2 EmptyString) :: re_findall_android_specs r2
            else re_findall_android_specs r
        end
      else re_findall_android_specs r
  end.

Definition nonempty (s : string) : bool := negb (String.eqb s "").

(** [existing[key] and re.search(...)] *)
Definition has_custom_placeholders (text : string) : bool :=
  andb (nonempty text) (re_search_custom_placeholder text).

(** [len(android_specs) >= 2] *)
Definition has_multiple_android_specs (text : string) : bool :=
  Nat.leb 2 (List.length
               (if nonempty text then re_findall_android_specs text else [])).

(* ================================================================== *)
(** ** translate_with_context.py: the log and the provider *)
(* ================================================================== *)

Inductive Level : Type := INFO | WARNING | ERROR.

(** Log records at level INFO and above, by template and values. *)
Inductive Message : Type :=
| CheckingExisting
| CouldNotParse (android_locale : string)
| FoundTranslations
| CompleteCount (n : nat)
| IncompleteCount (n : nat)
| MissingCount (n : Z)
| NoMetadataSkipping (string_key : string)
| NoSourceTextSkipping (string_key : string)
| ErrorBuildingPrompt (string_key : string)
| DryRunPrompt (string_key prompt : string)
| TranslatingTo (string_key : string) (nlanguages : nat)
| MissingTranslationsFor (string_key : string) (missing : list string)
| JsonDecodeError (string_key : string)
| ErrorCallingOpenAI (string_key : string)
| OpenaiNotInstalled
| ApiKeyNotSet
| CompletedString (string_key : string) (nlanguages : nat)
| TranslationFailed (string_key : string)
| ForceMode (nstrings nlanguages : nat)
| ResumeSkipping (ncomplete : nat)
| TranslatingStrings (nstrings nlanguages : nat)
| Processing (i n : nat) (string_key : string)
| CompletedAll (nstrings nlanguages total : nat)
| SkippedAlready (n : nat)
| FailedToTranslate (n : nat)
| FailedKey (string_key : string)
| AndMore (n : nat)
| NoTranslationsToSave
| CouldNotLoadExisting (android_locale : string)
| SavedStrings (n : nat) (android_locale : string)
| ErrorBuildingXml (android_locale : string)
| ErrorWritingFile (android_locale : string)
| SavedToFolders (n : nat)
| FailedToSaveLocales (locales : list string)
| NoTargetLanguages
| TranslationComplete
| FullLogSaved.

(** What a run leaves behind besides files: log records, and the calls
    that reached the provider. *)
Inductive Event : Type :=
| Log (level : Level) (msg : Message)
| ApiCall (string_key prompt : string).

(** The reply of [client.chat.completions.create] as the script sees it:
    a JSON object of strings, a body [json.loads] rejects, or any other
    exception inside the [try]. *)
Inductive Reply : Type :=
| Content (translations : dict string)
| MalformedJson
| CallFailed.

(** The provider side: whether [import openai] works, whether
    [OPENAI_API_KEY] is set, and the reply to the call made for a key. *)
Record Provider : Type := mkProvider {
  openai_installed : bool;
  api_key_set : bool;
  chat : string -> string -> Reply           (* string_key, prompt *)
}.

(** A run either goes on with a value or leaves through [sys.exit],
    which no [except Exception] stops; the events so far stay. *)
Inductive outcome (A : Type) : Type :=
| Done (a : A)
| SystemExit (code : Z).
Arguments Done {A} a.
Arguments SystemExit {A} code.

Definition Run (A : Type) : Type := outcome A * list Event.

Definition done {A} (a : A) : Run A := (Done a, []).
Definition emit (e : Event) : Run unit := (Done tt, [e]).
Definition log (l : Level) (m : Message) : Run unit := emit (Log l m).
Definition and_then {A B} (m : Run A) (f : A -> Run B) : Run B :=
  match m with
  | (Done a, t) => let (r, t') := f a in (r, t ++ t')
  | (SystemExit c, t) => (SystemExit c, t)
  end.

Notation "'run' x := m 'in' k" := (and_then m (fun x => k))
  (at level 61, x name, m at next level, right associativity).
Notation "m >> k" := (and_then m (fun _ => k))
  (at level 61, right associativity).

Definition events {A} (r : Run A) : list Event := snd r.

(** The keys for which the provider was called. *)
Definition dispatched (t : list Event) : list string :=
  flat_map (fun e => match e with ApiCall k _ => [k] | Log _ _ => [] end) t.

(* ================================================================== *)
(** ** translate_with_context.py: [MultiLanguageTranslator] *)
(* ================================================================== *)

(** The translator after [load_data]: the target locales, the merged
    metadata of the documented keys and the source strings. *)
Record Translator : Type := mkTranslator {
  target_languages : list string;
  tr_metadata : dict Metadata;
  tr_strings : dict string
}.

(** The [values-<android_locale>/strings.xml] files, by Android locale. *)
Definition LocaleFiles := dict XmlFile.

(** [translations_by_string[name][api_locale] = elem.text] for every
    element with a name and a text. *)
Definition record_elems (api_locale : string) (elems : list StringElem)
    (translations_by_string : dict (dict string)) : dict (dict string) :=
  fold_left
    (fun (tbs : dict (dict string)) e =>
       if andb (nonempty (elem_name e)) (nonempty (elem_text e)) then
         dict_set (elem_name e)
           (dict_set api_locale (elem_text e)
                     (@dict_get_default (dict string) (elem_name e) [] tbs))
           tbs
       else tbs)
    elems translations_by_string.

(** The first loop of [load_existing_translations]. *)
Fixpoint scan_locales (files : LocaleFiles) (languages : list string)
    (tbs : dict (dict string)) : dict (dict string) * list Event :=
  match languages with
  | [] => (tbs, [])
  | api_locale :: r =>
      let android_locale := android_locale_of api_locale in
      match dict_get android_locale files with
      | None => scan_locales files r tbs
      | Some Unparsable =>
          let (tbs', t) := scan_locales files r tbs in
          (tbs', Log WARNING (CouldNotParse android_locale) :: t)
      | Some (Resources elems _) =>
          scan_locales files r (record_elems api_locale elems tbs)
      end
  end.

(** [set(translations_by_string[key].keys()) >= set(target_languages)] *)
Definition covers_targets (targets : list string) (by_locale : dict string)
    : bool :=
  forallb (fun l => str_in l (dict_keys by_locale)) targets.

Definition load_existing_translations (T : Translator) (files : LocaleFiles)
    : Run (list string * list string) :=
  let (tbs, warnings) := scan_locales files (target_languages T) [] in
  let complete_strings :=
    filter (fun string_key =>
              match dict_get string_key tbs with
              | Some present => covers_targets (target_languages T) present
              | None => false
              end)
           (dict_keys (tr_metadata T)) in
  let incomplete_strings :=
    filter (fun string_key =>
              match dict_get string_key tbs with
              | Some present => negb (covers_targets (target_languages T) present)
              | None => false
              end)
           (dict_keys (tr_metadata T)) in
  (Done (complete_strings, incomplete_strings),
   [Log INFO CheckingExisting] ++ warnings ++
   [Log INFO FoundTranslations;
    Log INFO (CompleteCount (List.length complete_strings));
    Log INFO (IncompleteCount (List.length incomplete_strings));
    Log INFO (MissingCount (Z_len (tr_metadata T)
                            - Z_len complete_strings
                            - Z_len incomplete_strings))]).

Section Session.

(** [build_multilang_prompt(string_key, source_text, metadata)]: the
    prompt text, or [None] when building it raises.  The text itself is
    not looked into below. *)
Variable build_multilang_prompt : string -> string -> Metadata -> option string.

Variable openai : Provider.

Definition translate_with_openai_structured (T : Translator)
    (prompt string_key : string) : Run (dict string) :=
  if negb (openai_installed openai) then
    (SystemExit 1, [Log ERROR OpenaiNotInstalled])
  else if negb (api_key_set openai) then
    (SystemExit 1, [Log ERROR ApiKeyNotSet])
  else
    emit (ApiCall string_key prompt) >>
    match chat openai string_key prompt with
    | Content translations =>
        let missing :=
          filter (fun l => negb (str_in l (dict_keys translations)))
                 (target_languages T) in
        (match missing with
         | [] => done tt
         | _ => log WARNING (MissingTranslationsFor string_key missing)
         end) >>
        done translations
    | MalformedJson => log ERROR (JsonDecodeError string_key) >> done []
    | CallFailed => log ERROR (ErrorCallingOpenAI string_key) >> done []
    end.

(** [{lang: source_text for lang in self.target_languages}] *)
Definition source_for_all (T : Translator) (source_text : string) : dict string :=
  fold_left (fun d lang => dict_set lang source_text d) (target_languages T) [].

Definition translate_string (T : Translator) (string_key : string)
    (dry_run : bool) : Run (dict string) :=
  match dict_get string_key (tr_metadata T) with
  | None => log WARNING (NoMetadataSkipping string_key) >> done []
  | Some metadata =>
      let source_text := dict_get_default string_key "" (tr_strings T) in
      if negb (nonempty source_text) then
        log WARNING (NoSourceTextSkipping string_key) >> done []
      else
        match build_multilang_prompt string_key source_text metadata with
        | None => log ERROR (ErrorBuildingPrompt string_key) >> done []
        | Some prompt =>
            if dry_run then
              log INFO (DryRunPrompt string_key prompt) >>
              done (source_for_all T source_text)
            else
              log INFO (TranslatingTo string_key
                          (List.length (target_languages T))) >>
              run translations :=
                translate_with_openai_structured T prompt string_key in
              match translations with
              | [] => log ERROR (TranslationFailed string_key) >> done []
              | _ => log INFO (CompletedString string_key
                                 (List.length translations)) >>
                     done translations
              end
        end
  end.

(** The locals of [translate_all].  The method returns
    [all_translations]; the two lists reach the log. *)
Record Tally : Type := mkTally {
  all_translations : dict (dict string);
  failed_keys : list string;
  skipped_keys : list string
}.

(** [if translations: all_translations[key] = translations
     else: failed_keys.append(key)] *)
Definition tally_one (key : string) (translations : dict string) (st : Tally)
    : Tally :=
  match translations with
  | [] => mkTally (all_translations st) (failed_keys st ++ [key])
                  (skipped_keys st)
  | _ => mkTally (dict_set key translations (all_translations st))
                 (failed_keys st) (skipped_keys st)
  end.

(** [for i, key in enumerate(keys_to_translate, 1)] *)
Fixpoint translate_keys (T : Translator) (dry_run : bool)
    (keys : list string) (i n : nat) (st : Tally) : Run Tally :=
  match keys with
  | [] => done st
  | key :: r =>
      log INFO (Processing i n key) >>
      run translations := translate_string T key dry_run in
      translate_keys T dry_run r (S i) n (tally_one key translations st)
  end.

Definition total_translations (all : dict (dict string)) : nat :=
  fold_right (fun kt n => List.length (snd kt) + n) 0 all.

(** The closing report of [translate_all]. *)
Definition report (T : Translator) (st : Tally) : Run unit :=
  log INFO (CompletedAll (List.length (all_translations st))
                         (List.length (target_languages T))
                         (total_translations (all_translations st))) >>
  (match skipped_keys st with
   | [] => done tt
   | _ => log INFO (SkippedAlready (List.length (skipped_keys st)))
   end) >>
  match failed_keys st with
  | [] => done tt
  | _ =>
      log WARNING (FailedToTranslate (List.length (failed_keys st))) >>
      (Done tt, map (fun k => Log WARNING (FailedKey k))
                    (firstn 10 (failed_keys st))) >>
      if Nat.ltb 10 (List.length (failed_keys st))
      then log WARNING (AndMore (List.length (failed_keys st) - 10))
      else done tt
  end.

(** The keys the loop of [translate_all] goes through when no specific
    key is given, with the resume scan it needs. *)
Definition keys_to_translate (T : Translator) (files : LocaleFiles)
    (dry_run force : bool) : Run (list string * list string) :=
  let documented_keys := dict_keys (tr_metadata T) in
  run scan :=
    (if andb (negb force) (negb dry_run)
     then load_existing_translations T files
     else done ([], [])) in
  let complete_strings := fst scan in
  if force then
    log INFO (ForceMode (List.length documented_keys)
                        (List.length (target_languages T))) >>
    done (documented_keys, complete_strings)
  else
    let keys := filter (fun k => negb (str_in k complete_strings))
                       documented_keys in
    (match complete_strings with
     | [] => done tt
     | _ => log INFO (ResumeSkipping (List.length complete_strings))
     end) >>
    log INFO (TranslatingStrings (List.length keys)
                                 (List.length (target_languages T))) >>
    done (keys, complete_strings).

(** [if specific_key:] is a truth test: the empty string counts as none. *)
Definition given (specific_key : option string) : option string :=
  match specific_key with
  | Some k => if nonempty k then Some k else None
  | None => None
  end.

Definition translate_all (T : Translator) (files : LocaleFiles)
    (specific_key : option string) (dry_run force : bool) : Run Tally :=
  run st :=
    match given specific_key with
    | Some key =>
        run translations := translate_string T key dry_run in
        done (tally_one key translations (mkTally [] [] []))
    | None =>
        run sel := keys_to_translate T files dry_run force in
        run st := translate_keys T dry_run (fst sel) 1
                    (List.length (fst sel)) (mkTally [] [] []) in
        done (mkTally (all_translations st) (failed_keys st) (snd sel))
    end in
  report T st >> done st.

End Session.

(* ================================================================== *)
(** ** translate_with_context.py: [save_translations] and [main] *)
(* ================================================================== *)

(** [by_locale[android_locale][string_key] = translation], creating
    [by_locale[android_locale]] when the locale is new. *)
Definition add_translation (string_key : string)
    (by_locale : dict (dict string)) (lt : string * string)
    : dict (dict string) :=
  let android_locale := android_locale_of (fst lt) in
  dict_set android_locale
    (dict_set string_key (snd lt)
              (@dict_get_default (dict string) android_locale [] by_locale))
    by_locale.

(** The inner loop, over the locales of one key. *)
Definition add_translations (by_locale : dict (dict string))
    (kt : string * dict string) : dict (dict string) :=
  fold_left (add_translation (fst kt)) (snd kt) by_locale.

(** The grouping of the translations by locale. *)
Definition group_by_locale (all : dict (dict string)) : dict (dict string) :=
  fold_left add_translations all [].

(** [existing[name] = elem.text or ''] for every element with a name. *)
Definition read_elems (elems : list StringElem) : dict string :=
  fold_left
    (fun existing e =>
       if nonempty (elem_name e)
       then dict_set (elem_name e) (elem_text e) existing
       else existing)
    elems [].

(** The mapping a locale file holds, the way [save_translations] loads
    it: empty when the file is absent or does not parse. *)
Definition load_existing (f : option XmlFile) : dict string :=
  match f with
  | Some (Resources elems _) => read_elems elems
  | _ => []
  end.

(** [{key: escape_android_string(value) for key, value in ...}] *)
Definition escape_all (translations : dict string) : dict string :=
  map (fun kv => (fst kv, escape_android_string (snd kv))) translations.

(** [self.metadata[key].get('technical', {}).get('format_specifiers')],
    as a truth value; [.get] on anything but a mapping raises. *)
Definition technical_format_specifiers (m : Metadata) : result bool :=
  match dict_get_default "technical" (PDict []) m with
  | PDict technical =>
      Ok (truthy (dict_get_default "format_specifiers" PNone technical))
  | _ => Raise (AttributeError "get")
  end.

(** One [<string>] element of the file being built. *)
Definition build_elem (metadata : dict Metadata) (key text : string)
    : result StringElem :=
  let by_metadata :=
    match dict_get key metadata with
    | Some m => technical_format_specifiers m
    | None => Ok false
    end in
  match by_metadata with
  | Raise e => Raise e
  | Ok flagged =>
      let formatted := if flagged then Some "false" else None in
      Ok (mkElem key text
            (if orb (has_custom_placeholders text)
                    (has_multiple_android_specs text)
             then match formatted with
                  | None => Some "false"
                  | Some v => Some v
                  end
             else formatted))
  end.

(** [for key in sorted(existing.keys())] *)
Fixpoint build_elems (metadata : dict Metadata) (existing : dict string)
    (keys : list string) : result (list StringElem) :=
  match keys with
  | [] => Ok []
  | key :: r =>
      match build_elem metadata key (dict_get_default key "" existing) with
      | Raise e => Raise e
      | Ok e =>
          match build_elems metadata existing r with
          | Raise e' => Raise e'
          | Ok es => Ok (e :: es)
          end
      end
  end.

Definition build_xml (metadata : dict Metadata) (existing : dict string)
    : result (list StringElem) :=
  build_elems metadata existing (sorted (dict_keys existing)).

(** *** The text of a locale file

    [save_translations] serialises the tree it built, parses that text
    again to pretty print it, drops the blank lines and writes the
    rest.  What a later [ET.parse] of the file finds is given here
    element by element, as the [xml] package of CPython 3.11 writes and
    reads names and texts. *)

Definition TAB : ascii := "009"%char.
Definition LF : ascii := "010"%char.
Definition CR : ascii := "013"%char.

(** A character XML 1.0 allows, on the code points below 256: the tab,
    the two line breaks and the characters from the space on.
    [minidom.parseString] raises on any other. *)
Definition xml_char (c : ascii) : bool :=
  let n := nat_of_ascii c in
  Nat.eqb n 9 || Nat.eqb n 10 || Nat.eqb n 13 || Nat.leb 32 n.

Fixpoint xml_chars (s : string) : bool :=
  match s with
  | EmptyString => true
  | String c r => andb (xml_char c) (xml_chars r)
  end.

(** Line ends as a parser reports them: CR LF and a lone CR are LF. *)
Fixpoint normalize_newlines (s : string) : string :=
  match s with
  | EmptyString => EmptyString
  | String c r =>
      if Ascii.eqb c CR then
        String LF
          match r with
          | String c2 r2 =>
              if Ascii.eqb c2 LF then normalize_newlines r2
              else normalize_newlines r
          | EmptyString => EmptyString
          end
      else String c (normalize_newlines r)
  end.

(** [s.split('\n')] *)
Fixpoint split_lines (s : string) : list string :=
  match s with
  | EmptyString => [EmptyString]
  | String c r =>
      if Ascii.eqb c LF then EmptyString :: split_lines r
      else match split_lines r with
           | line :: lines => String c line :: lines
           | [] => [String c EmptyString]
           end
  end.

(** ['\n'.join(lines)] *)
Fixpoint join_lines (lines : list string) : string :=
  match lines with
  | [] => EmptyString
  | [line] => line
  | line :: r => String.append line (String LF (join_lines r))
  end.

(** [str.isspace], on the code points below 256. *)
Definition is_space (c : ascii) : bool :=
  let n := nat_of_ascii c in
  andb (Nat.leb 9 n) (Nat.leb n 13) || andb (Nat.leb 28 n) (Nat.leb n 32)
  || Nat.eqb n 133 || Nat.eqb n 160.

(** [not line.strip()] *)
Fixpoint blank (line : string) : bool :=
  match line with
  | EmptyString => true
  | String c r => andb (is_space c) (blank r)
  end.

(** [lines = [line for line in lines if line.strip()]], on the lines a
    text or an attribute value spans in the pretty printed document:
    its first line begins with markup and its last line ends with
    markup, so these two stay whatever they hold of the value. *)
Definition drop_blank_lines (s : string) : string :=
  match split_lines s with
  | first :: ((_ :: _) as others) =>
      join_lines (first :: filter (fun line => negb (blank line))
                                   (removelast others)
                        ++ [last others EmptyString])
  | _ => s
  end.

(** The text of an element as a later parse finds it: the pretty
    printer's parser has normalised the line ends, then the blank lines
    went. *)
Definition stored_text (text : string) : string :=
  drop_blank_lines (normalize_newlines text).

(** A parser reads a tab or a line break inside an attribute value as a
    space. *)
Fixpoint attribute_spaces (s : string) : string :=
  match s with
  | EmptyString => EmptyString
  | String c r =>
      String (if Ascii.eqb c TAB || Ascii.eqb c LF || Ascii.eqb c CR
              then " "%char else c)
             (attribute_spaces r)
  end.

(** An attribute value as a later parse finds it: the pretty printer
    writes its tabs and line breaks as they are, the blank lines go,
    and the parse normalises what is left. *)
Definition stored_name (value : string) : string :=
  attribute_spaces (normalize_newlines (drop_blank_lines value)).

(** A built element, which holds text only, as a later parse finds it. *)
Definition stored_elem (e : StringElem) : StringElem :=
  mkElem (stored_name (elem_name e)) (stored_text (elem_text e))
         (option_map stored_name (elem_formatted e)).

(** The [try] block that pretty prints and writes: [None] when
    [minidom.parseString] raises, and the file is not opened; else the
    file as a later parse finds it, the built elements and nothing
    else. *)
Definition write_xml (elems : list StringElem) : option XmlFile :=
  if forallb
       (fun e =>
          xml_chars (elem_name e) && xml_chars (elem_text e)
          && match elem_formatted e with
             | Some v => xml_chars v
             | None => true
             end)
       elems
  then Some (Resources (map stored_elem elems) "")
  else None.

(** The locals of the loop over the locales. *)
Record SaveState : Type := mkSaveState {
  locale_files : LocaleFiles;
  saved_locales : list string;
  failed_locales : list string;
  save_log : list Event
}.

(** One turn of the loop: load, escape the new values, merge, build,
    pretty print and write.  The directory and the file are taken to be
    writable: the write fails only where the pretty printer raises. *)
Definition save_locale (metadata : dict Metadata) (st : SaveState)
    (lt : string * dict string) : SaveState :=
  let (android_locale, translations) := lt in
  let old := dict_get android_locale (locale_files st) in
  let warn := match old with
              | Some Unparsable =>
                  [Log WARNING (CouldNotLoadExisting android_locale)]
              | _ => []
              end in
  let existing := dict_update (load_existing old) (escape_all translations) in
  match build_xml metadata existing with
  | Raise _ =>
      mkSaveState (locale_files st) (saved_locales st)
        (failed_locales st ++ [android_locale])
        (save_log st ++ warn ++ [Log ERROR (ErrorBuildingXml android_locale)])
  | Ok elems =>
      match write_xml elems with
      | None =>
          mkSaveState (locale_files st) (saved_locales st)
            (failed_locales st ++ [android_locale])
            (save_log st ++ warn ++
             [Log ERROR (ErrorWritingFile android_locale)])
      | Some file =>
          mkSaveState
            (dict_set android_locale file (locale_files st))
            (if str_in android_locale (saved_locales st) then saved_locales st
             else saved_locales st ++ [android_locale])
            (failed_locales st)
            (save_log st ++ warn ++
             [Log INFO (SavedStrings (List.length translations)
                                     android_locale)])
      end
  end.

Definition save_translations (T : Translator) (files : LocaleFiles)
    (all : dict (dict string)) : LocaleFiles * list Event :=
  match all with
  | [] => (files, [Log WARNING NoTranslationsToSave])
  | _ =>
      let st := fold_left (save_locale (tr_metadata T)) (group_by_locale all)
                          (mkSaveState files [] [] []) in
      (locale_files st,
       save_log st ++
       [Log INFO (SavedToFolders (List.length (saved_locales st)))] ++
       match failed_locales st with
       | [] => []
       | failed => [Log WARNING (FailedToSaveLocales failed)]
       end)
  end.

(** [main] after the arguments are read and the translator is built:
    the locale files afterwards, and the events of the run. *)
Definition translate_main
    (build_multilang_prompt : string -> string -> Metadata -> option string)
    (openai : Provider) (T : Translator) (files : LocaleFiles)
    (specific_key : option string) (save_output dry_run force : bool)
    : LocaleFiles * Run unit :=
  match target_languages T with
  | [] => (files, log ERROR NoTargetLanguages)
  | _ =>
      match translate_all build_multilang_prompt openai T files
                          specific_key dry_run force with
      | (SystemExit c, t) => (files, (SystemExit c, t))
      | (Done st, t) =>
          match all_translations st with
          | [] => (files, (Done tt, t ++ [Log INFO FullLogSaved]))
          | all =>
              if andb (negb dry_run) save_output then
                let (files', t') := save_translations T files all in
                (files', (Done tt, t ++ t' ++ [Log INFO TranslationComplete;
                                               Log INFO FullLogSaved]))
              else (files, (Done tt, t ++ [Log INFO FullLogSaved]))
          end
      end
  end.

(** Following the spec's words: a standard positional format specifier,
    [%], digits, [$], a conversion letter, as in [%1$d]. *)
Definition is_digit (c : ascii) : bool :=
  let n := nat_of_ascii c in andb (Nat.leb 48 n) (Nat.leb n 57).

Fixpoint digits_dollar_conversion (seen : bool) (s : string) : bool :=
  match s with
  | EmptyString => false
  | String c r =>
      if is_digit c then digits_dollar_conversion true r
      else andb seen
             (andb (Ascii.eqb c "$")
                   (match r with
                    | String c2 _ => is_android_conversion c2
                    | EmptyString => false
                    end))
  end.

Fixpoint count_positional_specifiers (s : string) : nat :=
  match s with
  | EmptyString => 0
  | String c r =>
      (if andb (Ascii.eqb c "%") (digits_dollar_conversion false r) then 1 else 0)
      + count_positional_specifiers r
  end.

(* ================================================================== *)
(** ** What the object reads: the cache first, then the file *)
(* ================================================================== *)

Definition index_view (io : MetadataIO) : option Index :=
  match _index io with
  | Some i => Some i
  | None => index_json (disk io)
  end.

Definition defaults_view (io : MetadataIO) : PyVal :=
  match _defaults io with
  | PNone => defaults_on_disk (disk io)
  | d => d
  end.

Definition shard_view (io : MetadataIO) (category : string) : option Shard :=
  match dict_get category (_category_cache io) with
  | Some data => Some data
  | None => dict_get category (category_yaml (disk io))
  end.

(** Two states of the object that read the same. *)
Definition same_view (io io' : MetadataIO) : Prop :=
  index_view io' = index_view io /\
  defaults_view io' = defaults_view io /\
  forall c, shard_view io' c = shard_view io c.

(** [m] returns [r] from every state that reads like [io0], and leaves
    such a state. *)
Definition returns {A} (m : M A) (io0 : MetadataIO) (r : result A) : Prop :=
  forall io, same_view io0 io ->
             exists io', m io = (r, io') /\ same_view io0 io'.

(** A loop that stops at the first exception. *)
Fixpoint fold_result {A B} (f : B -> A -> result B) (xs : list A) (acc : B)
    : result B :=
  match xs with
  | [] => Ok acc
  | x :: r =>
      match f acc x with
      | Ok acc' => fold_result f r acc'
      | Raise e => Raise e
      end
  end.

(** The values the three read methods return, as functions of what the
    object reads. *)
Definition merged_entry (defaults : PyVal) (acc : dict Metadata)
    (kv : string * Metadata) : result (dict Metadata) :=
  match merge defaults (snd kv) with
  | Ok merged => Ok (dict_set (fst kv) merged acc)
  | Raise e => Raise e
  end.

Definition category_metadata_of (io : MetadataIO) (category : string)
    : result (dict Metadata) :=
  match shard_view io category with
  | None => Raise (FileNotFoundError (category ++ ".yaml")%string)
  | Some data => fold_result (merged_entry (defaults_view io)) data []
  end.

Definition updated_with_category (io : MetadataIO) (acc : dict Metadata)
    (category : string) : result (dict Metadata) :=
  match category_metadata_of io category with
  | Ok cm => Ok (dict_update acc cm)
  | Raise e => Raise e
  end.

Definition all_metadata_of (io : MetadataIO) : result (dict Metadata) :=
  match index_view io with
  | None => Raise (FileNotFoundError "index.json")
  | Some index =>
      fold_result (updated_with_category io) (dict_keys (categories index)) []
  end.

Definition string_metadata_of (io : MetadataIO) (string_key : string)
    : result (option Metadata) :=
  match index_view io with
  | None => Raise (FileNotFoundError "index.json")
  | Some index =>
      match find_category string_key (categories index) with
      | None => Ok None
      | Some category =>
          match shard_view io category with
          | None => Raise (FileNotFoundError (category ++ ".yaml")%string)
          | Some data =>
              match dict_get string_key data with
              | None => Ok None
              | Some sm =>
                  match merge (defaults_view io) sm with
                  | Ok merged => Ok (Some merged)
                  | Raise e => Raise e
                  end
              end
          end
      end
  end.

(* ================================================================== *)
(** ** Well-formed inputs *)
(* ================================================================== *)

(** A list of strings without repetition; the keys of a Python
    dictionary always are. *)
Fixpoint no_dup (l : list string) : bool :=
  match l with
  | [] => true
  | x :: r => andb (negb (str_in x r)) (no_dup r)
  end.

Definition unique_keys {V} (d : dict V) : bool := no_dup (dict_keys d).

(** The record's group of a name: [metadata.get(key, {})] when that is
    a mapping. *)
Definition group_of (f : string) (r : Metadata) : dict PyVal :=
  match dict_get f r with
  | Some (PDict g) => g
  | _ => []
  end.

(** The data model's typing of a partial record against the defaults:
    where the default is a field group, the record holds a field group
    or nothing. *)
Definition groups_ok (ds : dict PyVal) (r : Metadata) : bool :=
  forallb
    (fun kd =>
       match snd kd with
       | PDict _ =>
           match dict_get (fst kd) r with
           | Some (PDict _) | None => true
           | Some _ => false
           end
       | _ => true
       end)
    ds.

(** What the merge puts under a field of the defaults. *)
Definition merged_field (r : Metadata) (f : string) (default_value : PyVal)
    : PyVal :=
  match default_value with
  | PDict dv => PDict (dict_update dv (group_of f r))
  | _ => dict_get_default f default_value r
  end.

(* ================================================================== *)
(** ** A small repository, for examples *)
(* ================================================================== *)

Definition example_defaults : dict PyVal :=
  [ ("purpose", PStr "");
    ("translation_guidance",
     PDict [("tone", PStr "neutral"); ("style", PStr "descriptive")]);
    ("constraints", PDict [("max_length", PNone)]) ].

Definition example_record : Metadata :=
  [ ("category", PStr "auth");
    ("translation_guidance", PDict [("tone", PStr "formal")]);
    ("purpose", PStr "Sign-in button") ].

Definition example_index : Index :=
  mkIndex [("auth", ["sign_in"])] [("auth", "metadata_divesms/auth.yaml")]
          1 1 "2025-01-01" [("version", PStr "1.0")].

(** With a [defaults.json]. *)
Definition example_io : MetadataIO :=
  mkIO (mkDisk (Some example_index)
               (Some [("defaults", PDict example_defaults)])
               [("auth", [("sign_in", example_record)])])
       None PNone [].

(** Without one. *)
Definition example_io_no_defaults : MetadataIO :=
  mkIO (mkDisk (Some example_index) None
               [("auth", [("sign_in", example_record)])])
       None PNone [].

(* ================================================================== *)
(** ** States of the repository *)
(* ================================================================== *)

(** The category's shard, as the object reads it, has an entry for the
    key. *)
Definition shard_has (io : MetadataIO) (category string_key : string) : bool :=
  match shard_view io category with
  | Some data => dict_in string_key data
  | None => false
  end.

(** The categories of the index whose shard has an entry for the key,
    in index order. *)
Definition shard_holders (io : MetadataIO) (index : Index)
    (string_key : string) : list string :=
  filter (fun c => shard_has io c string_key) (dict_keys (categories index)).

(** Every category of the index has a shard, a mapping (distinct keys)
    whose records all merge with the defaults. *)
Definition repository_readable (io : MetadataIO) (index : Index) : bool :=
  forallb
    (fun c =>
       match shard_view io c with
       | Some data =>
           andb (unique_keys data)
                (forallb (fun kv => is_ok (merge (defaults_view io) (snd kv)))
                         data)
       | None => false
       end)
    (dict_keys (categories index)).

(** Following the spec's words: each documented key appears in exactly
    one category's index key-set and that category's shard contains an
    entry for the key. *)
Definition listing_categories (index : Index) (string_key : string)
    : list string :=
  dict_keys (filter (fun cks => str_in string_key (snd cks)) (categories index)).

Definition each_key_in_one_category_with_entry (io : MetadataIO) : bool :=
  match index_view io with
  | None => false
  | Some index =>
      forallb
        (fun cks =>
           forallb
             (fun k =>
                andb (Nat.eqb (List.length (listing_categories index k)) 1)
                     (shard_has io (fst cks) k))
             (snd cks))
        (categories index)
  end.

(** A repository where shard [b] has an entry for a key the index lists
    under [a] only. *)
Definition record_a : Metadata := [("purpose", PStr "read from a")].
Definition record_b : Metadata := [("purpose", PStr "read from b")].

Definition dangling_io : MetadataIO :=
  mkIO (mkDisk
          (Some (mkIndex [("a", ["k"]); ("b", ["j"])] [] 2 2 "2025-01-01" []))
          None
          [("a", [("k", record_a)]);
           ("b", [("j", [("purpose", PStr "j")]); ("k", record_b)])])
       None PNone [].

(** A repository where the shards of [a] and [b] both have an entry for
    [k], and the same with the entry of [a] taken out. *)
Definition duplicate_io : MetadataIO :=
  mkIO (mkDisk
          (Some (mkIndex [("a", ["k"]); ("b", ["k"])] [] 1 1 "2025-01-01" []))
          None
          [("a", [("k", record_a)]); ("b", [("k", record_b)])])
       None PNone [].

Definition no_duplicate_io : MetadataIO :=
  mkIO (mkDisk
          (Some (mkIndex [("a", ["k"]); ("b", ["k"])] [] 1 1 "2025-01-01" []))
          None
          [("a", []); ("b", [("k", record_b)])])
       None PNone [].

(* ================================================================== *)
(** ** The directory after a save *)
(* ================================================================== *)

(** The category's file has an entry for the key. *)
Definition in_shard (d : Disk) (category string_key : string) : bool :=
  match dict_get category (category_yaml d) with
  | Some data => dict_in string_key data
  | None => false
  end.

(** The index lists the key under the category. *)
Definition in_index (d : Disk) (category string_key : string) : bool :=
  match index_json d with
  | Some index =>
      match dict_get category (categories index) with
      | Some keys => str_in string_key keys
      | None => false
      end
  | None => false
  end.

(** The index has the category. *)
Definition index_has_category (d : Disk) (category : string) : bool :=
  match index_json d with
  | Some index => dict_in category (categories index)
  | None => false
  end.

(** The working set files the key under the category. *)
Definition filed_under (working : dict StringMetadata)
    (category string_key : string) : bool :=
  match dict_get string_key working with
  | Some m => String.eqb (category_or_uncategorized m) category
  | None => false
  end.

Definition plain (category : string) : StringMetadata :=
  mkStringMetadata category (PDict []) (PDict []) (PStr "") (PDict [])
                   (PDict []) (PDict []) (PDict []).

(** A manager whose directory files [j] and [k] under [a], and whose
    working set has dropped [j] and moved [k] to [b]. *)
Definition moved_manager : MetadataManager :=
  mkManager
    [("k", plain "b")] 2
    (Some (mkIO (mkDisk
                   (Some (mkIndex [("a", ["j"; "k"])]
                                  [("a", "metadata_divesms/a.yaml")]
                                  2 2 "2025-01-01" []))
                   None
                   [("a", [("j", to_dict (plain "a"));
                           ("k", to_dict (plain "a"))])])
                None PNone []))
    None.

(** The same move with a second key [i] staying under [a]. *)
Definition moved_manager_kept : MetadataManager :=
  mkManager
    [("i", plain "a"); ("k", plain "b")] 2
    (Some (mkIO (mkDisk
                   (Some (mkIndex [("a", ["i"; "k"])]
                                  [("a", "metadata_divesms/a.yaml")]
                                  2 2 "2025-01-01" []))
                   None
                   [("a", [("i", to_dict (plain "a"));
                           ("k", to_dict (plain "a"))])])
                None PNone []))
    None.

(** The working set regrouped: membership of a key in a group. *)
Definition in_group (g : dict Shard) (c k : string) : bool :=
  match dict_get c g with
  | Some strings => dict_in k strings
  | None => false
  end.

(** The directory a manager is left with. *)
Definition disk_of (mgr : MetadataManager) : option Disk :=
  option_map disk (metadata_io mgr).

(* ================================================================== *)
(** ** The cleanup command: what is reported and what is kept *)
(* ================================================================== *)

(** The mapping lists the key under the category. *)
Definition listed (m : dict (list string)) (category string_key : string)
    : bool :=
  match dict_get category m with
  | Some keys => str_in string_key keys
  | None => false
  end.

(** The shard files have an entry for the key under the category. *)
Definition in_yaml (yaml : dict Shard) (category string_key : string) : bool :=
  match dict_get category yaml with
  | Some data => dict_in string_key data
  | None => false
  end.

(** What both modes print after the banner, up to the point where the
    dry run stops and the removal starts. *)
Definition preview_lines (d : Disk) (xml : option (list StringElem))
    : list Line :=
  [MetadataDirectoryLine; StringsFileLine; Rule]
  ++ snd (find_orphaned_metadata d xml)
  ++ match fst (find_orphaned_metadata d xml) with
     | Raise _ => []
     | Ok [] => [NoOrphanedFound]
     | Ok orphaned_by_category => print_summary orphaned_by_category
     end.

(** A directory with an orphan: [gone] is documented under [auth] and
    [strings.xml] only has [sign_in]. *)
Definition orphan_disk : Disk :=
  mkDisk (Some (mkIndex [("auth", ["gone"; "sign_in"])] [] 2 2 "2025-01-01" []))
         None
         [("auth", [("gone", example_record); ("sign_in", example_record)])].

Definition orphan_xml : option (list StringElem) :=
  Some [mkElem "sign_in" "Sign in" None].

(** The line that reports a key of a shard: [Would remove] in a dry
    run, [Removed] otherwise. *)
Definition removal_line (dry_run : bool) (key : string) : Line :=
  if dry_run then WouldRemove key else Removed key.

(* ================================================================== *)
(** ** The translation session: what the claims speak of *)
(* ================================================================== *)

(** The key has metadata. *)
Definition documented (T : Translator) (string_key : string) : bool :=
  dict_in string_key (tr_metadata T).

(** The provider can be called at all: the package imports and the API
    key is set. *)
Definition configured (openai : Provider) : bool :=
  andb (openai_installed openai) (api_key_set openai).

(** A reply [translate_string] counts as a failed translation. *)
Definition dispatch_fails (r : Reply) : bool :=
  match r with
  | Content [] => true
  | Content _ => false
  | MalformedJson => true
  | CallFailed => true
  end.

(** What [translate_string] returns for a key when it returns. *)
Definition translations_for
    (build_multilang_prompt : string -> string -> Metadata -> option string)
    (openai : Provider) (T : Translator) (dry_run : bool) (key : string)
    : dict string :=
  match fst (translate_string build_multilang_prompt openai T key dry_run) with
  | Done translations => translations
  | SystemExit _ => []
  end.

(** The value a target locale's file holds for a key, the file read the
    way [save_translations] reads it. *)
Definition stored_value (files : LocaleFiles) (api_locale string_key : string)
    : option string :=
  dict_get string_key
    (load_existing (dict_get (android_locale_of api_locale) files)).

(** Following the spec's words: a key is complete when every target
    locale has a non-empty translated value for it. *)
Definition complete_in (T : Translator) (files : LocaleFiles)
    (string_key : string) : bool :=
  forallb
    (fun l => match stored_value files l string_key with
              | Some v => nonempty v
              | None => false
              end)
    (target_languages T).


(** The keys a session dispatched to the provider. *)
Definition session_dispatches (s : LocaleFiles * Run unit) : list string :=
  dispatched (snd (snd s)).

(** The locale has the key in the running table of the resume scan. *)
Definition has_locale (tbs : dict (dict string)) (string_key l : string)
    : bool :=
  match dict_get string_key tbs with
  | Some present => str_in l (dict_keys present)
  | None => false
  end.

(** A translator of two documented keys into French and German, a
    provider that answers both, and locale files that hold [hello] in
    both locales. *)
Definition example_translator : Translator :=
  mkTranslator ["fr"; "de"]
    [("hello", [("purpose", PStr "greeting")]);
     ("bye", [("purpose", PStr "farewell")])]
    [("hello", "Hello"); ("bye", "Bye")].

Definition example_prompt (string_key source_text : string) (m : Metadata)
    : option string :=
  Some ("Translate " ++ source_text)%string.

Definition example_provider : Provider :=
  mkProvider true true
    (fun string_key prompt =>
       if String.eqb string_key "bye" then CallFailed
       else Content [("fr", "Bonjour"); ("de", "Hallo")]).

Definition example_files : LocaleFiles :=
  [("fr", Resources [mkElem "hello" "Bonjour" None] "");
   ("de", Resources [mkElem "hello" "Hallo" None] "")].

Definition complete_files : LocaleFiles :=
  [("fr", Resources [mkElem "bye" "Au revoir" None;
                     mkElem "hello" "Bonjour" None] "");
   ("de", Resources [mkElem "bye" "Tschuess" None;
                     mkElem "hello" "Hallo" None] "")].

(** The tally after a list of keys, each with the translations [f]
    gives it. *)
Definition tally_all (f : string -> dict string) (keys : list string)
    (st : Tally) : Tally :=
  fold_left (fun st k => tally_one k (f k) st) keys st.

Definition is_empty {V} (d : dict V) : bool :=
  match d with [] => true | _ => false end.

(** The complete strings of the resume scan. *)
Definition complete_strings_of (T : Translator) (files : LocaleFiles)
    : list string :=
  filter (fun string_key =>
            match dict_get string_key
                           (fst (scan_locales files (target_languages T) [])) with
            | Some present => covers_targets (target_languages T) present
            | None => false
            end)
         (dict_keys (tr_metadata T)).

(** The keys the loop of [translate_all] goes through. *)
Definition selected_keys (T : Translator) (files : LocaleFiles)
    (dry_run force : bool) : list string :=
  if force then dict_keys (tr_metadata T)
  else filter
         (fun k => negb (str_in k (if andb (negb force) (negb dry_run)
                                   then complete_strings_of T files
                                   else [])))
         (dict_keys (tr_metadata T)).

(* ================================================================== *)
(** ** Saving translations: what the claims speak of *)
(* ================================================================== *)

(** The data model's typing of the merged metadata, as far as
    [save_translations] looks: [technical] is a field group or absent. *)
Definition metadata_typed (metadata : dict Metadata) : bool :=
  forallb (fun km => is_ok (technical_format_specifiers (snd km))) metadata.

(** The metadata of the key marks format specifiers. *)
Definition metadata_flags (metadata : dict Metadata) (key : string) : bool :=
  match dict_get key metadata with
  | Some m => match technical_format_specifiers m with
              | Ok flagged => flagged
              | Raise _ => false
              end
  | None => false
  end.

(** The element [build_elem] returns when it returns. *)
Definition built_elem (metadata : dict Metadata) (existing : dict string)
    (key : string) : StringElem :=
  let text := dict_get_default key "" existing in
  mkElem key text
    (if orb (metadata_flags metadata key)
            (orb (has_custom_placeholders text)
                 (has_multiple_android_specs text))
     then Some "false" else None).

(** The values a session produced for an Android locale. *)
Definition new_values (all : dict (dict string)) (android_locale : string)
    : dict string :=
  @dict_get_default (dict string) android_locale [] (group_by_locale all).

(** The mapping a locale's file holds. *)
Definition persisted (files : LocaleFiles) (android_locale : string)
    : dict string :=
  load_existing (dict_get android_locale files).

(** The mapping the file of a locale is built from: what the file
    held, with the escaped new values over it. *)
Definition merged (files : LocaleFiles) (all : dict (dict string))
    (android_locale : string) : dict string :=
  dict_update (persisted files android_locale)
              (escape_all (new_values all android_locale)).

(** What one turn of the loop over the locales writes: nothing when
    building the tree raises, or the pretty printer does. *)
Definition written_file (metadata : dict Metadata) (old : option XmlFile)
    (translations : dict string) : option XmlFile :=
  match build_xml metadata
          (dict_update (load_existing old) (escape_all translations)) with
  | Ok elems => write_xml elems
  | Raise _ => None
  end.

(** Every character is the space or above it: no tab, no line break,
    no other control character. *)
Fixpoint printable (s : string) : bool :=
  match s with
  | EmptyString => true
  | String c r => andb (Nat.leb 32 (nat_of_ascii c)) (printable r)
  end.

(** The names of the mapping are of printable characters. *)
Definition printable_names (existing : dict string) : bool :=
  forallb (fun kv => printable (fst kv)) existing.

(** The names and the texts of the mapping hold only characters XML
    allows. *)
Definition writable (existing : dict string) : bool :=
  forallb (fun kv => andb (xml_chars (fst kv)) (xml_chars (snd kv))) existing.

(** A text without a line break. *)
Fixpoint single_line (s : string) : bool :=
  match s with
  | EmptyString => true
  | String c r =>
      negb (Ascii.eqb c LF) && negb (Ascii.eqb c CR) && single_line r
  end.

(** The element of the written file for a key of the mapping. *)
Definition stored_built (metadata : dict Metadata) (existing : dict string)
    (key : string) : StringElem :=
  stored_elem (built_elem metadata existing key).

(** A translator for a key whose metadata marks no format specifiers,
    and a translation with two positional specifiers. *)
Definition progress_translator : Translator :=
  mkTranslator ["fr"]
    [("progress", [("purpose", PStr "upload progress")])]
    [("progress", "Sent %1$d of %2$d")].

Definition progress_translations : dict (dict string) :=
  [("progress", [("fr", "Envoi %1$d sur %2$d")])].

(** A French file whose entry [X] has an empty line inside its text
    and a [<b>] child after it, beside a [<plurals>] resource. *)
Definition verse_files : LocaleFiles :=
  [("fr", Resources
            [mkStringElem "X" (String "a" (String LF (String LF "b"))) None
                          "<b>c</b>"]
            "<plurals name='n'><item quantity='one'>un</item></plurals>")].

(** A session that produced [Y] for French, and one whose value for
    [Y] holds a vertical tab. *)
Definition verse_translations : dict (dict string) :=
  [("Y", [("fr", "new")])].

Definition control_translations : dict (dict string) :=
  [("Y", [("fr", String "a" (String "011" "b"))])].

(** The spec's example: a French file holding [X], and a session that
    produced [Y] for French, with an apostrophe to escape. *)
Definition old_files : LocaleFiles :=
  [("fr", Resources [mkElem "X" "old" None] "")].

Definition new_translations : dict (dict string) :=
  [("Y", [("fr", "it's new")])].

Definition plain_translator : Translator :=
  mkTranslator ["fr"] [("Y", [("purpose", PStr "y")])] [("Y", "it is new")].

(** Values with a custom placeholder and with two plain specifiers. *)
Definition placeholder_translations : dict (dict string) :=
  [("greeting", [("fr", "Bonjour %name%")]);
   ("counts", [("fr", "%d sur %d")]);
   ("plain", [("fr", "Bonjour")])].

(** Every character of the string is a word character. *)
Fixpoint all_word (s : string) : bool :=
  match s with
  | EmptyString => true
  | String c r => andb (is_word c) (all_word r)
  end.

(* ================================================================== *)
(** ** A run and the run after it: what the claims speak of *)
(* ================================================================== *)








(* ================================================================== *)
(** ** metadata_io.py: the other methods *)
(* ================================================================== *)

(** [all_keys.update(keys)] on a set of strings.  The set is a list
    without repetition; the order of a set is not observable. *)
Definition set_update (all_keys keys : list string) : list string :=
  fold_left (fun s k => if str_in k s then s else s ++ [k]) keys all_keys.

Definition get_all_string_keys : M (list string) :=
  index <- _load_index ;;
  ret (fold_left set_update (dict_values (categories index)) []).

Definition get_categories : M (list string) :=
  index <- _load_index ;;
  ret (dict_keys (categories index)).

(** [save_defaults]: writes the object given as the whole of
    [defaults.json] and drops the cache. *)
Definition save_defaults (defaults_data : dict PyVal) : M unit := fun io =>
  let d := disk io in
  (Ok tt,
   mkIO (mkDisk (index_json d) (Some defaults_data) (category_yaml d))
        (_index io) PNone (_category_cache io)).

(** The index with the date [save_index] stamps on it. *)
Definition stamped (today : string) (index_data : Index) : Index :=
  mkIndex (categories index_data) (files index_data)
          (total_strings index_data) (documented_strings index_data)
          today (other_fields index_data).

(** Every element of the list is at most the next one, by its key. *)
Fixpoint ascending {A} (key : A -> string) (l : list A) : bool :=
  match l with
  | [] => true
  | x :: r =>
      andb (match r with
            | [] => true
            | y :: _ => String.leb (key x) (key y)
            end)
           (ascending key r)
  end.

(* ================================================================== *)
(** ** Escaping: what the properties speak of *)
(* ================================================================== *)

(** The characters [escape_android_string] replaces. *)
Definition is_special (c : ascii) : bool :=
  orb (Ascii.eqb c backslash)
      (orb (Ascii.eqb c apostrophe) (Ascii.eqb c quote)).

Fixpoint has_special (text : string) : bool :=
  match text with
  | EmptyString => false
  | String c r => orb (is_special c) (has_special r)
  end.

(** The text has a backslash, an apostrophe or a quote, or starts with
    [@] or [?]. *)
Definition needs_escape (text : string) : bool :=
  orb (has_special text) (orb (startswith "@" text) (startswith "?" text)).

(** What the three replacements together put for one character. *)
Definition escaped_char (c : ascii) : string :=
  if is_special c then String backslash (String c EmptyString)
  else String c EmptyString.

Fixpoint escape_chars (text : string) : string :=
  match text with
  | EmptyString => EmptyString
  | String c r => String.append (escaped_char c) (escape_chars r)
  end.

(** The text reads as a sequence of characters that need no escape and
    of pairs: a backslash, then a backslash, an apostrophe or a quote. *)
Fixpoint escape_pairs (after_backslash : bool) (s : string) : bool :=
  match s with
  | EmptyString => negb after_backslash
  | String c r =>
      if after_backslash then andb (is_special c) (escape_pairs false r)
      else if Ascii.eqb c backslash then escape_pairs true r
      else andb (negb (is_special c)) (escape_pairs false r)
  end.

(** The text without the [\@] or [\?] it may start with. *)
Definition after_leading_escape (s : string) : string :=
  match s with
  | String b (String c r) =>
      if andb (Ascii.eqb b backslash) (orb (Ascii.eqb c "@") (Ascii.eqb c "?"))
      then r else s
  | _ => s
  end.

(* ================================================================== *)
(** ** The translation session: which keys reach the provider *)
(* ================================================================== *)

(** The key has metadata, a source text and a prompt that builds:
    [translate_string] gets as far as the provider for it. *)
Definition dispatchable
    (build_multilang_prompt : string -> string -> Metadata -> option string)
    (T : Translator) (string_key : string) : bool :=
  match dict_get string_key (tr_metadata T) with
  | None => false
  | Some metadata =>
      let source_text := dict_get_default string_key "" (tr_strings T) in
      andb (nonempty source_text)
           (match build_multilang_prompt string_key source_text metadata with
            | Some _ => true
            | None => false
            end)
  end.

(** The keys a session goes through: the specific key, or the keys the
    loop of [translate_all] selects. *)
Definition session_keys (T : Translator) (files : LocaleFiles)
    (specific_key : option string) (dry_run force : bool) : list string :=
  match given specific_key with
  | Some key => [key]
  | None => selected_keys T files dry_run force
  end.

(** What the loop of a first run without options collected. *)
Definition first_run_translations
    (build_multilang_prompt : string -> string -> Metadata -> option string)
    (openai : Provider) (T : Translator) (files : LocaleFiles)
    : dict (dict string) :=
  all_translations
    (tally_all (translations_for build_multilang_prompt openai T false)
               (selected_keys T files false false) (mkTally [] [] [])).

(** A provider that answers every key in both locales, with a vertical
    tab in its French. *)
Definition control_provider : Provider :=
  mkProvider true true
    (fun string_key prompt =>
       Content [("fr", String "A" (String "011" "u")); ("de", "Hallo")]).

(** How a session ends. *)
Definition session_outcome (s : LocaleFiles * Run unit) : outcome unit :=
  fst (snd s).

(** A provider with the package installed and no API key. *)
Definition keyless_provider : Provider :=
  mkProvider true false
    (fun string_key prompt => Content [("fr", "Bonjour"); ("de", "Hallo")]).

(* ================================================================== *)
(** ** update_index.py *)
(* ================================================================== *)

(** The index [main] starts from when there is no [index.json]. *)
Definition new_index : Index :=
  mkIndex [] [] 0 0 ""
    [ ("version", PStr "1.0");
      ("project", PStr "Wize SMS (DiveSMS)");
      ("default_locale", PStr "en");
      ("description",
       PStr "String metadata for Wize SMS, organized by category for efficient AI-powered translation");
      ("notes",
       PDict [ ("format",
                PStr "Split YAML format with category-based organization");
               ("benefits",
                PStr "Token-efficient loading, easier maintenance, scalable architecture") ]) ].

(** Printed lines, by template and interpolated values. *)
Inductive UpdateLine : Type :=
| UpdateRule
| UpdatingIndex
| UpdateBlank
| ScanningFiles (n : nat)
| CategoryStrings (category : string) (n : nat)
| SavedIndex
| IndexUpdated
| CategoriesCount (n : nat)
| TotalStrings (n : Z).

(** [sorted(METADATA_DIR.glob("*.yaml"))]: the shards in the order of
    their file names.  A category is the stem of its file. *)
Definition yaml_files (d : Disk) : dict Shard :=
  sort_on (fun cs => (fst cs ++ ".yaml")%string) (category_yaml d).

(** The locals of the loop over the files. *)
Record Scan : Type := mkScan {
  scan_categories : dict (list string);
  scan_files : dict string;
  scan_total : Z;
  scan_out : list UpdateLine
}.

Definition scan_file (s : Scan) (cs : string * Shard) : Scan :=
  let category := fst cs in
  let string_keys := sorted (dict_keys (snd cs)) in
  mkScan (dict_set category string_keys (scan_categories s))
         (dict_set category
                   ("metadata_divesms/" ++ category ++ ".yaml")%string
                   (scan_files s))
         (scan_total s + Z_len string_keys)
         (scan_out s ++ [CategoryStrings category (List.length string_keys)]).

(** [main]: the metadata directory in; the directory afterwards and
    the printed lines out. *)
Definition update_index_main (today : string) (d : Disk)
    : Disk * list UpdateLine :=
  let index := match index_json d with
               | Some index => index
               | None => new_index
               end in
  let s := fold_left scan_file (yaml_files d) (mkScan [] [] 0 []) in
  (mkDisk (Some (mkIndex (scan_categories s) (scan_files s)
                         (scan_total s) (scan_total s) today
                         (other_fields index)))
          (defaults_json d) (category_yaml d),
   [UpdateRule; UpdatingIndex; UpdateRule; UpdateBlank;
    ScanningFiles (List.length (yaml_files d)); UpdateBlank]
   ++ scan_out s
   ++ [UpdateBlank; SavedIndex; UpdateBlank; UpdateRule; IndexUpdated;
       CategoriesCount (List.length (scan_categories s));
       TotalStrings (scan_total s); UpdateRule]).

(** The number of entries of all the shards. *)
Definition shard_sizes (yaml : dict Shard) : Z :=
  fold_right (fun cs n => (Z_len (snd cs) + n)%Z) 0%Z yaml.

(** A directory without an index, with two shards. *)
Definition unindexed_disk : Disk :=
  mkDisk None None
    [("b", [("k", record_b); ("j", [("purpose", PStr "j")])]);
     ("a", [("k", record_a)])].

(* ================================================================== *)
(** ** generate_metadata_from_xml.py *)
(* ================================================================== *)

(** [c.lower()] on the code points below 256: the ASCII capitals and
    the Latin-1 capitals move up by 32. *)
Definition lower_char (c : ascii) : ascii :=
  let n := nat_of_ascii c in
  let between a b := andb (Nat.leb a n) (Nat.leb n b) in
  if between 65 90 || between 192 214 || between 216 222
  then ascii_of_nat (n + 32) else c.

(** [s.lower()] *)
Fixpoint lower (s : string) : string :=
  match s with
  | EmptyString => EmptyString
  | String c r => String (lower_char c) (lower r)
  end.

(** [pattern in text] *)
Fixpoint contains (pattern text : string) : bool :=
  orb (String.prefix pattern text)
      (match text with
       | EmptyString => false
       | String _ r => contains pattern r
       end).

(** Category patterns, in the order of the source. *)
Definition CATEGORY_PATTERNS : dict (list string) :=
  [ ("branding",
     ["app_name"; "about_developer"; "about_source"; "about_contact"]);
    ("main_screen", ["main_"]);
    ("conversations", ["inbox_"; "conversation"; "archived_"]);
    ("compose", ["compose_"]);
    ("messages", ["message_"]);
    ("navigation", ["title_"]);
    ("drawer", ["drawer_"]);
    ("menus", ["menu_"]);
    ("settings", ["settings_"]);
    ("notifications", ["notification_"]);
    ("qkreply", ["qkreply_"]);
    ("conversation_info", ["info_"]);
    ("blocking", ["blocking_"; "blocked_"]);
    ("backup", ["backup_"]);
    ("scheduled", ["scheduled_"]);
    ("premium", ["qksms_plus_"]);
    ("gallery", ["gallery_"]);
    ("theme", ["theme_"]);
    ("shortcuts", ["shortcut_"]);
    ("setup", ["setup_"]);
    ("widgets", ["widget_"]);
    ("dialogs", ["dialog_"]);
    ("buttons", ["button_"; "rate_"]);
    ("toasts", ["toast_"]);
    ("changelog", ["changelog_"]);
    ("cross_promotion", ["install_browser"; "rate_us"]) ].

(** The two loops of [get_category]: the first category, in the order
    of the table, with a pattern that occurs in the key. *)
Fixpoint first_category (patterns : dict (list string)) (key_lower : string)
    : option string :=
  match patterns with
  | [] => None
  | (category, pats) :: r =>
      if existsb (fun pattern => contains pattern key_lower) pats
      then Some category
      else first_category r key_lower
  end.

Definition get_category (string_key : string) : string :=
  match first_category CATEGORY_PATTERNS (lower string_key) with
  | Some category => category
  | None => "other"
  end.

(** After a [%] and [n] digits: more digits, then [$] and a conversion
    letter; the number of characters matched after the [%]. *)
Fixpoint digits_then (n : nat) (s : string) : option nat :=
  match s with
  | EmptyString => None
  | String c r =>
      if is_digit c then digits_then (S n) r
      else if andb (Nat.ltb 0 n) (Ascii.eqb c "$") then
        match r with
        | String c2 _ => if is_android_conversion c2 then Some (n + 2) else None
        | EmptyString => None
        end
      else None
  end.

(** What [(?:\d+\$)?[sdifgeoxX]] matches after a [%]: its length. *)
Definition specifier_length (r : string) : option nat :=
  match r with
  | String c _ => if is_android_conversion c then Some 1 else digits_then 0 r
  | EmptyString => None
  end.

(** [re.finditer(r'(%(?:\d+\$)?[sdifgeoxX])', s)]: the matches from left
    to right; [skip] characters of a match are still to pass. *)
Fixpoint finditer_specifiers (skip : nat) (s : string) : list string :=
  match s with
  | EmptyString => []
  | String c r =>
      match skip with
      | S k => finditer_specifiers k r
      | O =>
          if Ascii.eqb c "%" then
            match specifier_length r with
            | Some n => String c (substring 0 n r) :: finditer_specifiers n r
            | None => finditer_specifiers 0 r
            end
          else finditer_specifiers 0 r
      end
  end.

(** [has_format_specifiers]: the flag, and for every match its
    placeholder and its position, counted from 1. *)
Definition has_format_specifiers (text : string)
    : bool * list (string * nat) :=
  if String.eqb text "" then (false, [])
  else
    let matches := finditer_specifiers 0 text in
    let specifiers := combine matches (seq 1 (List.length matches)) in
    (Nat.ltb 0 (List.length specifiers), specifiers).

(** After a [<]: one or more characters other than [>], then [>]. *)
Fixpoint tag_body_then_close (seen : bool) (s : string) : bool :=
  match s with
  | EmptyString => false
  | String c r => if Ascii.eqb c ">" then seen else tag_body_then_close true r
  end.

(** [re.search(r'<[^>]+>', s)], as a truth value. *)
Fixpoint re_search_tag (s : string) : bool :=
  match s with
  | EmptyString => false
  | String c r =>
      (if Ascii.eqb c "<" then tag_body_then_close false r else false)
      || re_search_tag r
  end.

Definition has_html (text : string) : bool :=
  if String.eqb text "" then false else re_search_tag text.

(** The first [n] characters of the string hold no [%]. *)
Fixpoint percent_free (n : nat) (s : string) : bool :=
  match n, s with
  | S k, String c r => andb (negb (Ascii.eqb c "%")) (percent_free k r)
  | _, _ => true
  end.

(** No character of the string is [>]. *)
Fixpoint no_close (s : string) : bool :=
  match s with
  | EmptyString => true
  | String c r => andb (negb (Ascii.eqb c ">")) (no_close r)
  end.

(* ================================================================== *)
(** ** manage_string_metadata.py: the other methods *)
(* ================================================================== *)

(** [StringMetadata(key, data)]: every field is [data.get(field)] with
    its default.  The record type has the category as a string: a
    record whose [category] is no string is outside what is embedded
    ([None]). *)
Definition string_metadata_init (data : Metadata) : option StringMetadata :=
  match dict_get_default "category" (PStr "") data with
  | PStr category =>
      Some (mkStringMetadata category
              (dict_get_default "ui" (PDict []) data)
              (dict_get_default "context" (PDict []) data)
              (dict_get_default "purpose" (PStr "") data)
              (dict_get_default "constraints" (PDict []) data)
              (dict_get_default "translation_guidance" (PDict []) data)
              (dict_get_default "references" (PDict []) data)
              (dict_get_default "technical" (PDict []) data))
  | _ => None
  end.

(** The manager with another working set. *)
Definition with_metadata (mgr : MetadataManager)
    (working : dict StringMetadata) : MetadataManager :=
  mkManager working (file_data_total_strings mgr) (metadata_io mgr)
            (metadata_file mgr).

Definition get_metadata (mgr : MetadataManager) (key : string)
    : option StringMetadata :=
  dict_get key (metadata mgr).

Definition add_metadata (mgr : MetadataManager) (key : string)
    (data : Metadata) : option MetadataManager :=
  match string_metadata_init data with
  | Some m => Some (with_metadata mgr (dict_set key m (metadata mgr)))
  | None => None
  end.

Definition remove_metadata (mgr : MetadataManager) (key : string)
    : MetadataManager :=
  if dict_in key (metadata mgr)
  then with_metadata mgr (dict_del key (metadata mgr))
  else mgr.

Definition list_all (mgr : MetadataManager) : list string :=
  sorted (dict_keys (metadata mgr)).

(** Printed lines and issues, by template and interpolated values. *)
Inductive ManagerLine : Type :=
| ManagerStringsFileNotFound.

Inductive Issue : Type :=
| StringsWithoutMetadata (n : nat)
| MissingMetadata (key text : string)
| AndMoreMissing (n : nat)
| MetadataWithoutStrings (n : nat)
| OrphanedMetadata (key : string)
| AllInSync.

(** [MetadataManager.get_strings_from_xml]: [{name: text or ''}].  The
    file is taken to parse. *)
Definition manager_strings_from_xml (xml : option (list StringElem))
    : dict string * list ManagerLine :=
  match xml with
  | None => ([], [ManagerStringsFileNotFound])
  | Some elems => (read_elems elems, [])
  end.

Section Validate.

(** [list(a_set)]: the elements of a set in the order the set yields
    them, which the language leaves open. *)
Variable listing : list string -> list string.

(** [validate_consistency]: the issues, and the manager with the count
    of strings it has noted. *)
Definition validate_consistency (mgr : MetadataManager)
    (xml : option (list StringElem))
    : MetadataManager * list Issue * list ManagerLine :=
  let (xml_strings, out) := manager_strings_from_xml xml in
  let xml_keys := dict_keys xml_strings in
  let meta_keys := dict_keys (metadata mgr) in
  let missing_metadata :=
    filter (fun k => negb (str_in k meta_keys)) xml_keys in
  let orphaned_metadata :=
    filter (fun k => negb (str_in k xml_keys)) meta_keys in
  let issues :=
    (match missing_metadata with
     | [] => []
     | _ =>
         [StringsWithoutMetadata (List.length missing_metadata)]
         ++ map (fun key =>
                   MissingMetadata key
                     (substring 0 50 (dict_get_default key "" xml_strings)))
                (sorted (firstn 10 (listing missing_metadata)))
         ++ (if Nat.ltb 10 (List.length missing_metadata)
             then [AndMoreMissing (List.length missing_metadata - 10)]
             else [])
     end)
    ++ (match orphaned_metadata with
        | [] => []
        | _ =>
            MetadataWithoutStrings (List.length orphaned_metadata)
            :: map OrphanedMetadata (sorted (listing orphaned_metadata))
        end) in
  (mkManager (metadata mgr) (Z_len xml_keys) (metadata_io mgr)
             (metadata_file mgr),
   match issues with
   | [] => [AllInSync]
   | _ => issues
   end,
   out).

(** The [validate] command of [main]: [cmd_validate], then [save]. *)
Definition validate_command (today : string) (mgr : MetadataManager)
    (xml : option (list StringElem))
    : MetadataManager * list Issue * list SaveMessage :=
  match validate_consistency mgr xml with
  | (mgr', issues, _) =>
      let (mgr'', messages) := save today mgr' in
      (mgr'', issues, messages)
  end.

End Validate.

(** [m.technical.get(name, False)], as a truth value; [.get] on
    anything but a mapping raises. *)
Definition technical_flag (name : string) (m : StringMetadata) : result bool :=
  match sm_technical m with
  | PDict technical => Ok (truthy (dict_get_default name (PBool false) technical))
  | _ => Raise (AttributeError "get")
  end.

(** [sum(1 for m in self.metadata.values() if m.technical.get(name, False))] *)
Fixpoint count_flag (name : string) (working : list StringMetadata)
    : result Z :=
  match working with
  | [] => Ok 0%Z
  | m :: r =>
      match technical_flag name m with
      | Raise e => Raise e
      | Ok b =>
          match count_flag name r with
          | Raise e => Raise e
          | Ok n => Ok (if b then n + 1 else n)%Z
          end
      end
  end.

(** The loop [categories[cat] = categories.get(cat, 0) + 1]. *)
Definition count_categories (working : list StringMetadata) : dict Z :=
  fold_left
    (fun (categories : dict Z) m =>
       let cat := sm_category m in
       dict_set cat (@dict_get_default Z cat 0%Z categories + 1)%Z categories)
    working [].

(** What [get_statistics] returns, but for [coverage_percent], the
    float [documented / total * 100] (0 when there is no string). *)
Record Statistics : Type := mkStatistics {
  stat_total_strings : Z;
  stat_documented_strings : Z;
  stat_undocumented_strings : Z;
  stat_categories : dict Z;
  stat_format_specifiers : Z;
  stat_emoji : Z;
  stat_html : Z
}.

Definition get_statistics (mgr : MetadataManager)
    (xml : option (list StringElem)) : result Statistics * list ManagerLine :=
  let (xml_strings, out) := manager_strings_from_xml xml in
  let total := Z_len xml_strings in
  let documented := Z_len (metadata mgr) in
  let working := dict_values (metadata mgr) in
  let categories := count_categories working in
  (match count_flag "format_specifiers" working with
   | Raise e => Raise e
   | Ok with_format_specs =>
       match count_flag "contains_emoji" working with
       | Raise e => Raise e
       | Ok with_emoji =>
           match count_flag "html_formatting" working with
           | Raise e => Raise e
           | Ok with_html =>
               Ok (mkStatistics total documented (total - documented)
                                categories with_format_specs with_emoji
                                with_html)
           end
       end
   end,
   out).

(** The sum of the values of a table of counts. *)
Definition sum_counts (counts : dict Z) : Z :=
  fold_right (fun kv n => (snd kv + n)%Z) 0%Z counts.

(** A manager over the example directory, with one record. *)
Definition example_manager : MetadataManager :=
  mkManager [("sign_in", plain "auth")] 0 (Some example_io) None.

(* ################################################################## *)
(** * Properties *)
(* ################################################################## *)

Unset Implicit Arguments.

(* ================================================================== *)
(** ** Dictionaries *)
(* ================================================================== *)

Ltac eqb_case a b :=
  let E := fresh "E" in
  destruct (String.eqb a b) eqn:E;
  [apply String.eqb_eq in E; try subst | apply String.eqb_neq in E].

Ltac eqb_keep a b :=
  let E := fresh "E" in
  destruct (String.eqb a b) eqn:E;
  [apply String.eqb_eq in E | apply String.eqb_neq in E].

Ltac eqb_hyps :=
  repeat match goal with
         | H : String.eqb _ _ = true |- _ => apply String.eqb_eq in H
         | H : String.eqb _ _ = false |- _ => apply String.eqb_neq in H
         end.

Section DictFacts.
Context {V : Type}.
Implicit Types (d : dict V) (k : string) (v : V).

Lemma dict_get_set_eq k v d : dict_get k (dict_set k v d) = Some v.
Proof.
  induction d as [|[k' v'] d IH]; simpl.
  - now rewrite String.eqb_refl.
  - eqb_case k k'; simpl.
    + now rewrite String.eqb_refl.
    + apply String.eqb_neq in E. now rewrite E.
Qed.

Lemma dict_get_set_ne k k' v d :
  k <> k' -> dict_get k (dict_set k' v d) = dict_get k d.
Proof.
  intros Hne. induction d as [|[k0 v0] d IH]; simpl.
  - apply String.eqb_neq in Hne. now rewrite Hne.
  - eqb_case k' k0; simpl.
    + apply String.eqb_neq in Hne. now rewrite Hne.
    + now rewrite IH.
Qed.

Lemma dict_get_set k k' v d :
  dict_get k (dict_set k' v d) =
  if String.eqb k k' then Some v else dict_get k d.
Proof.
  eqb_case k k'.
  - apply dict_get_set_eq.
  - now apply dict_get_set_ne.
Qed.

Lemma dict_get_app k d d' :
  dict_get k (d ++ d') =
  match dict_get k d with Some v => Some v | None => dict_get k d' end.
Proof.
  induction d as [|[k0 v0] d IH]; simpl; [reflexivity|].
  now destruct (String.eqb k k0).
Qed.

Lemma dict_get_None_iff k d : dict_get k d = None <-> ~ In k (dict_keys d).
Proof.
  induction d as [|[k0 v0] d IH]; simpl.
  - tauto.
  - eqb_case k k0.
    + split; [discriminate | intros H; exfalso; apply H; now left].
    + rewrite IH. split; [intros H [H1|H1]; [congruence | tauto] | tauto].
Qed.

Lemma dict_in_iff k d : dict_in k d = true <-> In k (dict_keys d).
Proof.
  unfold dict_in. destruct (dict_get k d) eqn:E.
  - split; [intros _ | reflexivity].
    destruct (in_dec string_dec k (dict_keys d)) as [H|H]; [exact H|].
    apply dict_get_None_iff in H. congruence.
  - split; [discriminate|]. intros H. apply dict_get_None_iff in E. tauto.
Qed.

Lemma dict_get_In k v d : dict_get k d = Some v -> In (k, v) d.
Proof.
  induction d as [|[k0 v0] d IH]; simpl; [discriminate|].
  eqb_case k k0.
  - intros [= ->]. now left.
  - intros H. right. auto.
Qed.

Lemma In_dict_get k v d :
  NoDup (dict_keys d) -> In (k, v) d -> dict_get k d = Some v.
Proof.
  induction d as [|[k0 v0] d IH]; simpl; [tauto|].
  intros Hnd [H|H].
  - injection H as -> ->. now rewrite String.eqb_refl.
  - inversion Hnd as [|? ? Hnotin Hnd']; subst.
    eqb_case k k0.
    + exfalso. apply Hnotin. apply (in_map fst) in H. exact H.
    + auto.
Qed.

Lemma dict_keys_set k k' v d :
  In k (dict_keys (dict_set k' v d)) <-> k = k' \/ In k (dict_keys d).
Proof.
  rewrite <- !dict_in_iff. unfold dict_in. rewrite dict_get_set.
  eqb_case k k'.
  - split; [now left | reflexivity].
  - split; [now right | intros [H|H]; [congruence | exact H]].
Qed.

Lemma dict_set_fresh k v d :
  ~ In k (dict_keys d) -> dict_set k v d = d ++ [(k, v)].
Proof.
  induction d as [|[k0 v0] d IH]; simpl; [reflexivity|].
  intros H. eqb_case k k0.
  - exfalso. apply H. now left.
  - rewrite IH; [reflexivity | tauto].
Qed.

Lemma dict_set_NoDup k v d :
  NoDup (dict_keys d) -> NoDup (dict_keys (dict_set k v d)).
Proof.
  induction d as [|[k0 v0] d IH]; simpl; intros Hnd.
  - constructor; [simpl; tauto | constructor].
  - inversion Hnd as [|? ? Hnotin Hnd']; subst.
    eqb_case k k0; simpl.
    + now constructor.
    + constructor; [|auto].
      fold (dict_keys (dict_set k v d)). rewrite dict_keys_set.
      intros [H|H]; [congruence | tauto].
Qed.

Lemma dict_update_NoDup d d2 :
  NoDup (dict_keys d) -> NoDup (dict_keys (dict_update d d2)).
Proof.
  unfold dict_update. revert d.
  induction d2 as [|[k v] d2 IH]; simpl; intros d Hnd; [exact Hnd|].
  apply IH. now apply dict_set_NoDup.
Qed.

Lemma dict_get_rev k d :
  NoDup (dict_keys d) -> dict_get k (rev d) = dict_get k d.
Proof.
  intros Hnd. destruct (dict_get k d) eqn:E.
  - apply In_dict_get.
    + unfold dict_keys. rewrite map_rev.
      apply (Permutation_NoDup (l := map fst d)); [apply Permutation_rev | exact Hnd].
    + apply in_rev. rewrite rev_involutive. now apply dict_get_In.
  - apply dict_get_None_iff. apply dict_get_None_iff in E.
    unfold dict_keys. rewrite map_rev. intros H. apply in_rev in H.
    try rewrite rev_involutive in H. tauto.
Qed.

(** After [d.update(d2)] a key holds the last value [d2] gives it, or
    else what [d] held. *)
Lemma dict_get_update_rev k d d2 :
  dict_get k (dict_update d d2) =
  match dict_get k (rev d2) with Some v => Some v | None => dict_get k d end.
Proof.
  unfold dict_update. revert d.
  induction d2 as [|[k0 v0] d2 IH]; simpl; intros d; [reflexivity|].
  rewrite IH, dict_get_app. destruct (dict_get k (rev d2)); [reflexivity|].
  simpl. rewrite dict_get_set. now destruct (String.eqb k k0).
Qed.

Lemma dict_get_update k d d2 :
  NoDup (dict_keys d2) ->
  dict_get k (dict_update d d2) =
  match dict_get k d2 with Some v => Some v | None => dict_get k d end.
Proof.
  intros Hnd. now rewrite dict_get_update_rev, dict_get_rev.
Qed.

Lemma dict_get_del k k' d :
  dict_get k (dict_del k' d) = if String.eqb k k' then None else dict_get k d.
Proof.
  induction d as [|[k0 v0] d IH]; simpl.
  - now destruct (String.eqb k k').
  - destruct (String.eqb k' k0) eqn:E1; simpl; rewrite IH;
      destruct (String.eqb k k') eqn:E2; destruct (String.eqb k k0) eqn:E3;
      try reflexivity; exfalso; eqb_hyps; congruence.
Qed.

Lemma dict_del_NoDup k d :
  NoDup (dict_keys d) -> NoDup (dict_keys (dict_del k d)).
Proof.
  induction d as [|[k0 v0] d IH]; simpl; intros Hnd; [constructor|].
  inversion Hnd as [|? ? Hnotin Hnd']; subst.
  destruct (String.eqb k k0); [auto|].
  simpl. constructor; [|auto].
  fold (dict_keys (dict_del k d)). rewrite <- dict_in_iff.
  unfold dict_in. rewrite dict_get_del.
  destruct (String.eqb k0 k); [discriminate|].
  apply dict_get_None_iff in Hnotin. now rewrite Hnotin.
Qed.

Lemma dict_get_map {W} (f : V -> W) k d :
  dict_get k (map (fun kv => (fst kv, f (snd kv))) d) =
  option_map f (dict_get k d).
Proof.
  induction d as [|[k0 v0] d IH]; simpl; [reflexivity|].
  now destruct (String.eqb k k0).
Qed.

Lemma dict_keys_map {W} (f : V -> W) d :
  dict_keys (map (fun kv => (fst kv, f (snd kv))) d) = dict_keys d.
Proof.
  unfold dict_keys. rewrite map_map. reflexivity.
Qed.

End DictFacts.

Lemma str_in_iff x xs : str_in x xs = true <-> In x xs.
Proof.
  unfold str_in. rewrite existsb_exists. split.
  - intros [y [Hy E]]. apply String.eqb_eq in E. now subst.
  - intros H. exists x. split; [exact H | apply String.eqb_refl].
Qed.

Lemma str_in_false_iff x xs : str_in x xs = false <-> ~ In x xs.
Proof.
  rewrite <- str_in_iff. destruct (str_in x xs); split; congruence.
Qed.

(* ================================================================== *)
(** ** The read methods of [MetadataIO] against what the object reads *)
(* ================================================================== *)

Lemma same_view_refl io : same_view io io.
Proof. repeat split. Qed.

Lemma same_view_trans io1 io2 io3 :
  same_view io1 io2 -> same_view io2 io3 -> same_view io1 io3.
Proof.
  intros (H1 & H2 & H3) (H4 & H5 & H6).
  split; [congruence | split; [congruence | intros c; now rewrite H6]].
Qed.

Lemma returns_ret {A} (a : A) io0 : returns (ret a) io0 (Ok a).
Proof. intros io H. exists io. now split. Qed.

Lemma returns_lift {A} (r : result A) io0 : returns (lift_result r) io0 r.
Proof. intros io H. exists io. now split. Qed.

Lemma returns_bind {A B} (m : M A) (f : A -> M B) io0 a r :
  returns m io0 (Ok a) -> returns (f a) io0 r -> returns (bind m f) io0 r.
Proof.
  intros Hm Hf io H. destruct (Hm io H) as (io1 & E1 & H1).
  destruct (Hf io1 H1) as (io2 & E2 & H2).
  exists io2. unfold bind. rewrite E1. now split.
Qed.

Lemma returns_bind_raise {A B} (m : M A) (f : A -> M B) io0 e :
  returns m io0 (Raise e) -> returns (bind m f) io0 (Raise e).
Proof.
  intros Hm io H. destruct (Hm io H) as (io1 & E1 & H1).
  exists io1. unfold bind. rewrite E1. now split.
Qed.

Lemma returns_for_each {A B} (body : B -> A -> M B) (f : B -> A -> result B)
    io0 xs :
  (forall acc x, In x xs -> returns (body acc x) io0 (f acc x)) ->
  forall acc, returns (for_each xs body acc) io0 (fold_result f xs acc).
Proof.
  induction xs as [|x xs IH]; intros Hbody acc; simpl.
  - apply returns_ret.
  - destruct (f acc x) as [acc'|e] eqn:E.
    + eapply returns_bind.
      * rewrite <- E. apply Hbody. now left.
      * apply IH. intros acc0 y Hy. apply Hbody. now right.
    + apply returns_bind_raise. rewrite <- E. apply Hbody. now left.
Qed.

Lemma returns_load_index io0 :
  returns _load_index io0
    (match index_view io0 with
     | Some i => Ok i
     | None => Raise (FileNotFoundError "index.json")
     end).
Proof.
  intros io H. unfold _load_index.
  assert (Hi : index_view io = index_view io0) by apply H.
  rewrite <- Hi. unfold index_view at 1.
  destruct (_index io) as [i|] eqn:E.
  - exists io. split; [reflexivity | exact H].
  - destruct (index_json (disk io)) as [i|] eqn:E'.
    + eexists. split; [reflexivity|].
      destruct H as (H1 & H2 & H3). repeat split; auto.
      rewrite <- H1. unfold index_view. simpl. now rewrite E, E'.
    + exists io. split; [reflexivity | exact H].
Qed.

Lemma returns_load_defaults io0 :
  returns _load_defaults io0 (Ok (defaults_view io0)).
Proof.
  intros io H. unfold _load_defaults.
  assert (Hd : defaults_view io = defaults_view io0) by apply H.
  rewrite <- Hd. unfold defaults_view at 1.
  destruct (_defaults io) eqn:E;
    try (exists io; split; [reflexivity | exact H]).
  eexists. split; [reflexivity|].
  destruct H as (H1 & H2 & H3). repeat split; auto.
  rewrite <- H2. unfold defaults_view. simpl. rewrite E.
  now destruct (defaults_on_disk (disk io)).
Qed.

Lemma returns_load_category io0 category :
  returns (_load_category_file category) io0
    (match shard_view io0 category with
     | Some data => Ok data
     | None => Raise (FileNotFoundError (category ++ ".yaml")%string)
     end).
Proof.
  intros io H. unfold _load_category_file.
  assert (Hs : shard_view io category = shard_view io0 category) by apply H.
  rewrite <- Hs. unfold shard_view at 1.
  destruct (dict_get category (_category_cache io)) as [data|] eqn:E.
  - exists io. split; [reflexivity | exact H].
  - destruct (dict_get category (category_yaml (disk io))) as [data|] eqn:E'.
    + eexists. split; [reflexivity|].
      destruct H as (H1 & H2 & H3). repeat split; auto.
      intros c. rewrite <- (H3 c). unfold shard_view. simpl.
      rewrite dict_get_set. eqb_case c category.
      * now rewrite E, E'.
      * reflexivity.
    + exists io. split; [reflexivity | exact H].
Qed.

Lemma returns_merge io0 metadata :
  returns (_merge_with_defaults metadata) io0
          (merge (defaults_view io0) metadata).
Proof.
  unfold _merge_with_defaults. eapply returns_bind.
  - apply returns_load_defaults.
  - apply returns_lift.
Qed.

Lemma returns_get_string_metadata io0 string_key :
  returns (get_string_metadata string_key) io0
          (string_metadata_of io0 string_key).
Proof.
  unfold get_string_metadata, string_metadata_of.
  destruct (index_view io0) as [index|] eqn:Ei.
  - eapply returns_bind.
    { generalize (returns_load_index io0). rewrite Ei. intros H; exact H. }
    destruct (find_category string_key (categories index)) as [c|];
      [|apply returns_ret].
    destruct (shard_view io0 c) as [data|] eqn:Es.
    + eapply returns_bind.
      { generalize (returns_load_category io0 c). rewrite Es. intros H; exact H. }
      destruct (dict_get string_key data) as [sm|]; [|apply returns_ret].
      destruct (merge (defaults_view io0) sm) as [merged|e] eqn:Em.
      * eapply returns_bind; [|apply returns_ret].
        rewrite <- Em. apply returns_merge.
      * apply returns_bind_raise. rewrite <- Em. apply returns_merge.
    + apply returns_bind_raise.
      generalize (returns_load_category io0 c). rewrite Es. intros H; exact H.
  - apply returns_bind_raise.
    generalize (returns_load_index io0). rewrite Ei. intros H; exact H.
Qed.

Lemma returns_get_category_metadata io0 category :
  returns (get_category_metadata category) io0
          (category_metadata_of io0 category).
Proof.
  unfold get_category_metadata, category_metadata_of.
  destruct (shard_view io0 category) as [data|] eqn:Es.
  - eapply returns_bind.
    { generalize (returns_load_category io0 category). rewrite Es.
      intros H; exact H. }
    apply returns_for_each. intros acc [k sm] _. unfold merged_entry. simpl.
    destruct (merge (defaults_view io0) sm) as [merged|e] eqn:Em.
    + eapply returns_bind; [|apply returns_ret].
      rewrite <- Em. apply returns_merge.
    + apply returns_bind_raise. rewrite <- Em. apply returns_merge.
  - apply returns_bind_raise.
    generalize (returns_load_category io0 category). rewrite Es.
    intros H; exact H.
Qed.

Lemma returns_get_all_metadata io0 :
  returns get_all_metadata io0 (all_metadata_of io0).
Proof.
  unfold get_all_metadata, all_metadata_of.
  destruct (index_view io0) as [index|] eqn:Ei.
  - eapply returns_bind.
    { generalize (returns_load_index io0). rewrite Ei. intros H; exact H. }
    apply returns_for_each. intros acc c _. unfold updated_with_category.
    destruct (category_metadata_of io0 c) as [cm|e] eqn:Ec.
    + eapply returns_bind; [|apply returns_ret].
      rewrite <- Ec. apply returns_get_category_metadata.
    + apply returns_bind_raise. rewrite <- Ec.
      apply returns_get_category_metadata.
  - apply returns_bind_raise.
    generalize (returns_load_index io0). rewrite Ei. intros H; exact H.
Qed.

(** Run from the state itself. *)
Lemma returns_run {A} (m : M A) io r :
  returns m io r -> exists io', m io = (r, io') /\ same_view io io'.
Proof. intros H. apply H. apply same_view_refl. Qed.

(* ================================================================== *)
(** ** The merge with the defaults *)
(* ================================================================== *)

Lemma no_dup_NoDup l : no_dup l = true <-> NoDup l.
Proof.
  induction l as [|x l IH]; simpl.
  - split; [constructor | reflexivity].
  - rewrite andb_true_iff, negb_true_iff, str_in_false_iff, IH. split.
    + intros [H1 H2]. now constructor.
    + intros H. inversion H; subst. now split.
Qed.

Lemma unique_keys_NoDup {V} (d : dict V) :
  unique_keys d = true <-> NoDup (dict_keys d).
Proof. apply no_dup_NoDup. Qed.

Lemma merge_rest_loop_get r : forall acc f,
  dict_get f (merge_rest_loop r acc) =
  match dict_get f acc with Some v => Some v | None => dict_get f r end.
Proof.
  unfold merge_rest_loop.
  induction r as [|[k v] r IH]; intros acc f; simpl.
  - now destruct (dict_get f acc).
  - rewrite IH. unfold dict_in. destruct (dict_get k acc) as [w|] eqn:Ek.
    + destruct (dict_get f acc) eqn:Ef; [reflexivity|].
      eqb_case f k; [congruence | reflexivity].
    + rewrite dict_get_set. eqb_case f k.
      * now rewrite Ek.
      * reflexivity.
Qed.

Lemma merge_rest_loop_fresh r : forall acc,
  NoDup (dict_keys r) ->
  (forall k, In k (dict_keys r) -> ~ In k (dict_keys acc)) ->
  merge_rest_loop r acc = acc ++ r.
Proof.
  unfold merge_rest_loop.
  induction r as [|[k v] r IH]; intros acc Hnd Hfresh; simpl.
  - now rewrite app_nil_r.
  - inversion Hnd as [|? ? Hnotin Hnd']; subst.
    assert (Hk : ~ In k (dict_keys acc)) by (apply Hfresh; now left).
    assert (E : dict_in k acc = false).
    { destruct (dict_in k acc) eqn:E; [|reflexivity].
      apply dict_in_iff in E. tauto. }
    rewrite E, dict_set_fresh by exact Hk.
    rewrite IH; [now rewrite <- app_assoc | exact Hnd' |].
    intros k' Hk'. unfold dict_keys. rewrite map_app, in_app_iff. simpl.
    intros [H|[H|[]]].
    + apply (Hfresh k'); [now right | exact H].
    + subst. tauto.
Qed.

Lemma merge_default_field_ok r acc f default_value :
  match default_value with
  | PDict _ => match dict_get f r with
               | Some (PDict _) | None => true
               | Some _ => false
               end
  | _ => true
  end = true ->
  merge_default_field r acc (f, default_value)
  = Ok (dict_set f (merged_field r f default_value) acc).
Proof.
  unfold merge_default_field, merged_field, group_of, dict_get_default.
  destruct default_value; try reflexivity.
  destruct (dict_get f r) as [[]|]; intros H; try discriminate; reflexivity.
Qed.

Lemma merge_defaults_loop_ok r ds :
  NoDup (dict_keys ds) -> groups_ok ds r = true ->
  forall acc, exists m1,
    merge_defaults_loop r ds acc = Ok m1 /\
    forall f, dict_get f m1 =
              match dict_get f ds with
              | Some dv => Some (merged_field r f dv)
              | None => dict_get f acc
              end.
Proof.
  induction ds as [|[k dv] ds IH]; intros Hnd Hok acc.
  - exists acc. now split.
  - inversion Hnd as [|? ? Hnotin Hnd']; subst.
    simpl in Hok. apply andb_true_iff in Hok. destruct Hok as [Hk Hok].
    cbn [merge_defaults_loop].
    rewrite (merge_default_field_ok r acc k dv Hk).
    destruct (IH Hnd' Hok (dict_set k (merged_field r k dv) acc))
      as (m1 & E & Hget).
    exists m1. split; [exact E|]. intros f. rewrite Hget, dict_get_set.
    cbn [dict_get]. eqb_case f k.
    + apply dict_get_None_iff in Hnotin. now rewrite Hnotin.
    + reflexivity.
Qed.

(** The merge over loaded defaults, field by field. *)
Lemma merge_ok ds r :
  NoDup (dict_keys ds) -> groups_ok ds r = true ->
  exists merged,
    merge (PDict ds) r = Ok merged /\
    forall f, dict_get f merged =
              match dict_get f ds with
              | Some dv => Some (merged_field r f dv)
              | None => dict_get f r
              end.
Proof.
  intros Hnd Hok. unfold merge.
  destruct (merge_defaults_loop_ok r ds Hnd Hok []) as (m1 & E & Hget).
  rewrite E. eexists. split; [reflexivity|]. intros f.
  rewrite merge_rest_loop_get, Hget. now destruct (dict_get f ds).
Qed.

Lemma merge_empty_defaults r :
  exists merged,
    merge (PDict []) r = Ok merged /\
    (forall f, dict_get f merged = dict_get f r) /\
    (NoDup (dict_keys r) -> merged = r).
Proof.
  eexists. split; [reflexivity|]. split.
  - intros f. now rewrite merge_rest_loop_get.
  - intros Hnd. rewrite merge_rest_loop_fresh; auto.
Qed.

(** C4: the defaults merge.  For a defaults record [ds] and a partial
    record [r] typed as the data model has it, [_merge_with_defaults]
    returns a record [merged] in which a field of the defaults that is a
    group holds the default's fields updated by the record's group of
    the same name (key by key, the record's value taken whole, so one
    level deep), a scalar field of the defaults holds the record's value
    when the record has one and the default otherwise, and a field the
    defaults lack holds what the record holds.  Merging again gives the
    same record, and the loaded defaults and the files stay as they
    were. *)
Theorem merge_with_defaults_semantics (io : MetadataIO) (ds : dict PyVal)
    (r : Metadata) :
  defaults_view io = PDict ds ->
  unique_keys ds = true ->
  groups_ok ds r = true ->
  exists merged io1,
    _merge_with_defaults r io = (Ok merged, io1) /\
    (forall f dv, dict_get f ds = Some (PDict dv) ->
       dict_get f merged = Some (PDict (dict_update dv (group_of f r))) /\
       (unique_keys (group_of f r) = true ->
        forall x, dict_get x (dict_update dv (group_of f r)) =
                  match dict_get x (group_of f r) with
                  | Some v => Some v
                  | None => dict_get x dv
                  end)) /\
    (forall f v, dict_get f ds = Some v -> is_dict v = false ->
       dict_get f merged = Some (match dict_get f r with
                                 | Some w => w
                                 | None => v
                                 end)) /\
    (forall f, dict_get f ds = None -> dict_get f merged = dict_get f r) /\
    _merge_with_defaults r io1 = (Ok merged, io1) /\
    defaults_view io1 = PDict ds /\
    disk io1 = disk io.
Proof.
  intros Hview Hu Hok. apply unique_keys_NoDup in Hu.
  destruct (merge_ok ds r Hu Hok) as (merged & Em & Hget).
  unfold _merge_with_defaults, bind, _load_defaults, lift_result.
  unfold defaults_view in Hview.
  assert (Hfields :
    (forall f dv, dict_get f ds = Some (PDict dv) ->
       dict_get f merged = Some (PDict (dict_update dv (group_of f r))) /\
       (unique_keys (group_of f r) = true ->
        forall x, dict_get x (dict_update dv (group_of f r)) =
                  match dict_get x (group_of f r) with
                  | Some v => Some v
                  | None => dict_get x dv
                  end)) /\
    (forall f v, dict_get f ds = Some v -> is_dict v = false ->
       dict_get f merged = Some (match dict_get f r with
                                 | Some w => w
                                 | None => v
                                 end)) /\
    (forall f, dict_get f ds = None -> dict_get f merged = dict_get f r)).
  { repeat split.
    - rewrite Hget, H. reflexivity.
    - intros Hg x. apply dict_get_update. now apply unique_keys_NoDup.
    - intros f v Hf Hv. rewrite Hget, Hf. unfold merged_field, dict_get_default.
      destruct v; try reflexivity. discriminate.
    - intros f Hf. now rewrite Hget, Hf. }
  destruct Hfields as (Hc & Hs & Hp).
  destruct (_defaults io) eqn:E; try discriminate.
  - (* nothing cached: the defaults are read, then kept *)
    exists merged. eexists. rewrite Hview, Em. split; [reflexivity|].
    split; [exact Hc|]. split; [exact Hs|]. split; [exact Hp|].
    cbn [_defaults disk]. rewrite Em. repeat split.
  - (* the cache holds the defaults *)
    injection Hview as ->. exists merged. exists io. rewrite Em.
    split; [reflexivity|].
    split; [exact Hc|]. split; [exact Hs|]. split; [exact Hp|].
    rewrite E, Em. repeat split. unfold defaults_view. now rewrite E.
Qed.

Lemma merge_with_defaults_semantics_witness :
  defaults_view example_io = PDict example_defaults /\
  unique_keys example_defaults = true /\
  groups_ok example_defaults example_record = true /\
  exists merged io1,
    _merge_with_defaults example_record example_io = (Ok merged, io1) /\
    dict_get "translation_guidance" merged
    = Some (PDict [("tone", PStr "formal"); ("style", PStr "descriptive")]) /\
    dict_get "purpose" merged = Some (PStr "Sign-in button") /\
    dict_get "category" merged = Some (PStr "auth").
Proof.
  split; [reflexivity|]. split; [reflexivity|]. split; [reflexivity|].
  destruct (merge_with_defaults_semantics example_io example_defaults
              example_record eq_refl eq_refl eq_refl)
    as (merged & io1 & H & Hc & Hs & Hp & _).
  exists merged, io1. split; [exact H|]. split; [|split].
  - exact (proj1 (Hc "translation_guidance" _ eq_refl)).
  - exact (Hs "purpose" _ eq_refl eq_refl).
  - exact (Hp "category" eq_refl).
Defined.

(** C10: without a defaults file the merge is the identity.  When
    [defaults.json] is absent and the object has cached no defaults (or
    the empty ones it loaded), [get_string_metadata] returns for a
    stored partial record a record with the same fields and the same
    values; it is the stored record itself, its keys being distinct. *)
Theorem absent_defaults_merge_identity (io : MetadataIO) (string_key : string)
    (index : Index) (category : string) (data : Shard) (r : Metadata) :
  defaults_json (disk io) = None ->
  _defaults io = PNone \/ _defaults io = PDict [] ->
  index_view io = Some index ->
  find_category string_key (categories index) = Some category ->
  shard_view io category = Some data ->
  dict_get string_key data = Some r ->
  exists merged io',
    get_string_metadata string_key io = (Ok (Some merged), io') /\
    (forall f, dict_get f merged = dict_get f r) /\
    (unique_keys r = true -> merged = r).
Proof.
  intros Hfile Hcache Hi Hc Hs Hr.
  assert (Hd : defaults_view io = PDict []).
  { unfold defaults_view, defaults_on_disk. rewrite Hfile.
    destruct Hcache as [-> | ->]; reflexivity. }
  destruct (merge_empty_defaults r) as (merged & Em & Hget & Heq).
  destruct (returns_run _ io _ (returns_get_string_metadata io string_key))
    as (io' & E & _).
  unfold string_metadata_of in E. rewrite Hi, Hc, Hs, Hr, Hd, Em in E.
  exists merged, io'. split; [exact E|]. split; [exact Hget|].
  intros Hu. apply Heq. now apply unique_keys_NoDup.
Qed.

Lemma absent_defaults_merge_identity_witness :
  defaults_json (disk example_io_no_defaults) = None /\
  (_defaults example_io_no_defaults = PNone \/
   _defaults example_io_no_defaults = PDict []) /\
  exists io',
    get_string_metadata "sign_in" example_io_no_defaults
    = (Ok (Some example_record), io').
Proof.
  split; [reflexivity|]. split; [left; reflexivity|].
  destruct (absent_defaults_merge_identity example_io_no_defaults "sign_in"
              example_index "auth" [("sign_in", example_record)] example_record
              eq_refl (or_introl eq_refl) eq_refl eq_refl eq_refl eq_refl)
    as (merged & io' & H & _ & Heq).
  exists io'. rewrite <- (Heq eq_refl). exact H.
Defined.

(* ================================================================== *)
(** ** Single read against bulk read *)
(* ================================================================== *)

Lemma fold_result_app {A B} (f : B -> A -> result B) xs ys acc :
  fold_result f (xs ++ ys) acc =
  match fold_result f xs acc with
  | Ok acc' => fold_result f ys acc'
  | Raise e => Raise e
  end.
Proof.
  revert acc. induction xs as [|x xs IH]; intros acc; simpl; [reflexivity|].
  destruct (f acc x); [apply IH | reflexivity].
Qed.

Lemma fold_result_total {A B} (f : B -> A -> result B) xs :
  (forall acc x, In x xs -> exists acc', f acc x = Ok acc') ->
  forall acc, exists out, fold_result f xs acc = Ok out.
Proof.
  induction xs as [|x xs IH]; intros Hf acc; simpl.
  - now exists acc.
  - destruct (Hf acc x (or_introl eq_refl)) as (acc' & ->).
    apply IH. intros a y Hy. apply Hf. now right.
Qed.

(** The entries of one shard, merged. *)
Lemma merged_entries_get dv (data : Shard) : forall acc cm,
  NoDup (dict_keys data) ->
  fold_result (merged_entry dv) data acc = Ok cm ->
  forall k,
    match dict_get k data with
    | Some r => exists m, merge dv r = Ok m /\ dict_get k cm = Some m
    | None => dict_get k cm = dict_get k acc
    end.
Proof.
  induction data as [|[k0 r0] data IH]; intros acc cm Hnd Hfold k.
  - simpl in *. now injection Hfold as ->.
  - inversion Hnd as [|? ? Hnotin Hnd']; subst.
    cbn [fold_result] in Hfold. unfold merged_entry at 1 in Hfold.
    cbn [fst snd] in Hfold.
    destruct (merge dv r0) as [m0|e] eqn:Em; [|discriminate].
    specialize (IH _ _ Hnd' Hfold). cbn [dict_get].
    eqb_case k k0.
    + exists m0. split; [exact Em|].
      specialize (IH k0). apply dict_get_None_iff in Hnotin.
      rewrite Hnotin in IH. rewrite IH. apply dict_get_set_eq.
    + specialize (IH k). destruct (dict_get k data); [exact IH|].
      rewrite IH. now apply dict_get_set_ne.
Qed.

Lemma merged_entries_NoDup dv (data : Shard) : forall acc cm,
  NoDup (dict_keys acc) ->
  fold_result (merged_entry dv) data acc = Ok cm ->
  NoDup (dict_keys cm).
Proof.
  induction data as [|[k0 r0] data IH]; intros acc cm Hnd Hfold.
  - simpl in Hfold. now injection Hfold as <-.
  - cbn [fold_result] in Hfold. unfold merged_entry at 1 in Hfold.
    cbn [fst snd] in Hfold.
    destruct (merge dv r0) as [m0|e]; [|discriminate].
    eapply IH; [|exact Hfold]. now apply dict_set_NoDup.
Qed.

Lemma readable_category io index c :
  repository_readable io index = true ->
  In c (dict_keys (categories index)) ->
  exists data cm,
    shard_view io c = Some data /\ NoDup (dict_keys data) /\
    category_metadata_of io c = Ok cm /\ NoDup (dict_keys cm) /\
    forall k,
      match dict_get k data with
      | Some r => exists m, merge (defaults_view io) r = Ok m /\
                            dict_get k cm = Some m
      | None => dict_get k cm = None
      end.
Proof.
  intros Hr Hc. unfold repository_readable in Hr.
  rewrite forallb_forall in Hr. specialize (Hr c Hc).
  unfold category_metadata_of.
  destruct (shard_view io c) as [data|]; [|discriminate].
  apply andb_true_iff in Hr. destruct Hr as [Hu Hm].
  apply unique_keys_NoDup in Hu. rewrite forallb_forall in Hm.
  destruct (fold_result_total (merged_entry (defaults_view io)) data) with (acc := @nil (string * Metadata))
    as (cm & Ecm).
  { intros acc [k r] Hin. unfold merged_entry. simpl.
    specialize (Hm _ Hin). simpl in Hm.
    destruct (merge (defaults_view io) r); [eauto | discriminate]. }
  exists data, cm. repeat split; auto.
  - apply (merged_entries_NoDup (defaults_view io) data [] cm (NoDup_nil _) Ecm).
  - intros k. generalize (merged_entries_get _ _ _ _ Hu Ecm k).
    now destruct (dict_get k data).
Qed.

(** The bulk read over a list of categories: the entry of a key comes
    from the last category whose shard has the key. *)
Lemma all_metadata_step io index cats :
  repository_readable io index = true ->
  incl cats (dict_keys (categories index)) ->
  forall acc, NoDup (dict_keys acc) ->
  exists all,
    fold_result (updated_with_category io) cats acc = Ok all /\
    NoDup (dict_keys all) /\
    forall k,
      (forall c, In c cats -> shard_has io c k = false) ->
      dict_get k all = dict_get k acc.
Proof.
  intros Hr. induction cats as [|c cats IH]; intros Hincl acc Hnd.
  - exists acc. repeat split; auto.
  - destruct (readable_category io index c Hr) as (data & cm & Es & Hd & Ec & Hcm & Hget).
    { apply Hincl. now left. }
    cbn [fold_result]. unfold updated_with_category at 1. rewrite Ec.
    destruct (IH (fun x Hx => Hincl x (or_intror Hx)) (dict_update acc cm))
      as (all & Eall & Hall & Hk).
    { now apply dict_update_NoDup. }
    exists all. repeat split; auto.
    intros k Hno. rewrite Hk by (intros c' Hc'; apply Hno; now right).
    rewrite dict_get_update by exact Hcm.
    specialize (Hno c (or_introl eq_refl)). unfold shard_has in Hno.
    rewrite Es in Hno. specialize (Hget k). unfold dict_in in Hno.
    destruct (dict_get k data); [discriminate|]. now rewrite Hget.
Qed.

Lemma all_metadata_last_wins io index pre c post data k r :
  repository_readable io index = true ->
  incl (pre ++ c :: post) (dict_keys (categories index)) ->
  (forall c', In c' post -> shard_has io c' k = false) ->
  shard_view io c = Some data ->
  dict_get k data = Some r ->
  exists m all,
    merge (defaults_view io) r = Ok m /\
    fold_result (updated_with_category io) (pre ++ c :: post) [] = Ok all /\
    NoDup (dict_keys all) /\
    dict_get k all = Some m.
Proof.
  intros Hr Hincl Hpost Es Er.
  destruct (all_metadata_step io index pre Hr) with (acc := @nil (string * Metadata))
    as (acc1 & E1 & Hnd1 & _).
  { intros x Hx. apply Hincl. apply in_or_app. now left. }
  { constructor. }
  destruct (readable_category io index c Hr) as (data' & cm & Es' & Hd & Ec & Hcm & Hget).
  { apply Hincl. apply in_or_app. right. now left. }
  rewrite Es in Es'. injection Es' as <-.
  specialize (Hget k). rewrite Er in Hget. destruct Hget as (m & Em & Hm).
  destruct (all_metadata_step io index post Hr) with (acc := dict_update acc1 cm)
    as (all & E2 & Hnd2 & Hk).
  { intros x Hx. apply Hincl. apply in_or_app. right. now right. }
  { now apply dict_update_NoDup. }
  exists m, all. split; [exact Em|]. split.
  - rewrite fold_result_app, E1. cbn [fold_result].
    unfold updated_with_category at 1. now rewrite Ec.
  - split; [exact Hnd2|]. rewrite (Hk k Hpost).
    rewrite dict_get_update by exact Hcm. now rewrite Hm.
Qed.

Lemma find_category_In k cats c :
  find_category k cats = Some c -> In c (dict_keys cats).
Proof.
  induction cats as [|[c0 ks] cats IH]; simpl; [discriminate|].
  destruct (str_in k ks).
  - intros [= ->]. now left.
  - intros H. right. auto.
Qed.

Lemma filter_last_split {A} (p : A -> bool) l : forall hs c,
  filter p l = hs ++ [c] ->
  exists pre post, l = pre ++ c :: post /\ p c = true /\
                   (forall x, In x post -> p x = false).
Proof.
  induction l as [|x l IH]; intros hs c; simpl.
  - destruct hs; discriminate.
  - destruct (p x) eqn:E.
    + destruct hs as [|h hs]; simpl.
      * intros [= -> Hrest]. exists [], l. repeat split; auto.
        intros y Hy. destruct (p y) eqn:Ey; [|reflexivity].
        assert (Hin : In y (filter p l)) by (apply filter_In; now split).
        rewrite Hrest in Hin. destruct Hin.
      * intros [= -> Hrest].
        destruct (IH _ _ Hrest) as (pre & post & -> & Hc & Hpost).
        exists (h :: pre), post. repeat split; auto.
    + intros H. destruct (IH _ _ H) as (pre & post & -> & Hc & Hpost).
      exists (x :: pre), post. repeat split; auto.
Qed.

Lemma filter_singleton_split {A} (p : A -> bool) l c :
  filter p l = [c] ->
  exists pre post, l = pre ++ c :: post /\ p c = true /\
                   (forall x, In x post -> p x = false).
Proof. apply (filter_last_split p l []). Qed.

(** C3, amended: single read and bulk read agree on a key that has an
    entry in one shard only.  In a repository where every category of
    the index has a shard whose records merge with the defaults, for a
    key the index lists, whose listing category's shard is the only
    shard with an entry for it, [get_string_metadata] returns the record
    that [get_all_metadata] holds under the key. *)
Theorem single_read_equals_bulk_read (io : MetadataIO) (index : Index)
    (string_key category : string) :
  index_view io = Some index ->
  repository_readable io index = true ->
  find_category string_key (categories index) = Some category ->
  shard_holders io index string_key = [category] ->
  exists merged all io1 io2,
    get_string_metadata string_key io = (Ok (Some merged), io1) /\
    get_all_metadata io = (Ok all, io2) /\
    dict_get string_key all = Some merged.
Proof.
  intros Hi Hr Hf Hh.
  destruct (filter_singleton_split _ _ _ Hh) as (pre & post & Hcats & Hc & Hpost).
  unfold shard_has in Hc.
  destruct (shard_view io category) as [data|] eqn:Es; [|discriminate].
  unfold dict_in in Hc.
  destruct (dict_get string_key data) as [r|] eqn:Er; [|discriminate].
  destruct (all_metadata_last_wins io index pre category post data string_key r)
    as (m & all & Em & Eall & _ & Hget); auto.
  { rewrite <- Hcats. apply incl_refl. }
  destruct (returns_run _ io _ (returns_get_string_metadata io string_key))
    as (io1 & E1 & _).
  destruct (returns_run _ io _ (returns_get_all_metadata io)) as (io2 & E2 & _).
  unfold string_metadata_of in E1. rewrite Hi, Hf, Es, Er, Em in E1.
  unfold all_metadata_of in E2. rewrite Hi, Hcats, Eall in E2.
  exists m, all, io1, io2. auto.
Qed.

Lemma single_read_equals_bulk_read_witness :
  index_view example_io = Some example_index /\
  repository_readable example_io example_index = true /\
  find_category "sign_in" (categories example_index) = Some "auth" /\
  shard_holders example_io example_index "sign_in" = ["auth"] /\
  exists merged all io1 io2,
    get_string_metadata "sign_in" example_io = (Ok (Some merged), io1) /\
    get_all_metadata example_io = (Ok all, io2) /\
    dict_get "sign_in" all = Some merged.
Proof.
  repeat (split; [reflexivity|]).
  exact (single_read_equals_bulk_read example_io example_index "sign_in" "auth"
           eq_refl eq_refl eq_refl eq_refl).
Defined.

(** C3 as stated fails: in [dangling_io] every key of the index is
    listed under exactly one category whose shard has its entry, yet the
    single read of [k] returns the record of shard [a] and the bulk read
    the record of shard [b]. *)
Lemma single_read_differs_from_bulk_read :
  each_key_in_one_category_with_entry dangling_io = true /\
  fst (get_string_metadata "k" dangling_io) = Ok (Some record_a) /\
  (exists all, fst (get_all_metadata dangling_io) = Ok all /\
               dict_get "k" all = Some record_b) /\
  record_a <> record_b.
Proof.
  split; [reflexivity|]. split; [reflexivity|]. split.
  - eexists. split; reflexivity.
  - discriminate.
Qed.

(* ================================================================== *)
(** ** A key with entries in the shards of several categories *)
(* ================================================================== *)

(** C5, amended: the bulk read holds one entry per key, and for a key
    with entries in the shards of several categories it is the merged
    record of the last of them in index order; the read returns
    normally, the entries of the earlier categories replaced. *)
Theorem bulk_read_last_category_wins (io : MetadataIO) (index : Index)
    (string_key : string) (earlier : list string) (category : string)
    (data : Shard) (r : Metadata) :
  index_view io = Some index ->
  repository_readable io index = true ->
  shard_holders io index string_key = earlier ++ [category] ->
  shard_view io category = Some data ->
  dict_get string_key data = Some r ->
  exists merged all io',
    merge (defaults_view io) r = Ok merged /\
    get_all_metadata io = (Ok all, io') /\
    unique_keys all = true /\
    dict_get string_key all = Some merged.
Proof.
  intros Hi Hr Hh Es Er.
  destruct (filter_last_split _ _ _ _ Hh) as (pre & post & Hcats & _ & Hpost).
  destruct (all_metadata_last_wins io index pre category post data string_key r)
    as (m & all & Em & Eall & Hnd & Hget); auto.
  { rewrite <- Hcats. apply incl_refl. }
  destruct (returns_run _ io _ (returns_get_all_metadata io)) as (io' & E & _).
  unfold all_metadata_of in E. rewrite Hi, Hcats, Eall in E.
  exists m, all, io'. repeat split; auto.
  now apply unique_keys_NoDup.
Qed.

Lemma bulk_read_last_category_wins_witness :
  index_view duplicate_io = index_json (disk duplicate_io) /\
  repository_readable duplicate_io
    (mkIndex [("a", ["k"]); ("b", ["k"])] [] 1 1 "2025-01-01" []) = true /\
  exists all io',
    get_all_metadata duplicate_io = (Ok all, io') /\
    unique_keys all = true /\
    dict_get "k" all = Some record_b.
Proof.
  split; [reflexivity|]. split; [reflexivity|].
  destruct (bulk_read_last_category_wins duplicate_io
              (mkIndex [("a", ["k"]); ("b", ["k"])] [] 1 1 "2025-01-01" [])
              "k" ["a"] "b" [("k", record_b)] record_b
              eq_refl eq_refl eq_refl eq_refl eq_refl)
    as (merged & all & io' & Em & E & Hu & Hget).
  exists all, io'. repeat split; auto.
  injection Em as <-. exact Hget.
Defined.

(** C5 as stated fails: in [duplicate_io] the shards of [a] and [b] both
    have an entry for [k]; the bulk read returns normally with the
    record of [b] under [k], the record of [a] gone, and what it returns
    is what it returns for the repository without the duplicate. *)
Lemma duplicate_key_silently_overwritten :
  shard_has duplicate_io "a" "k" = true /\
  shard_has duplicate_io "b" "k" = true /\
  fst (get_all_metadata duplicate_io) = Ok [("k", record_b)] /\
  fst (get_all_metadata duplicate_io) = fst (get_all_metadata no_duplicate_io) /\
  record_a <> record_b.
Proof.
  repeat (split; [reflexivity|]). discriminate.
Qed.

(* ================================================================== *)
(** ** Sorting *)
(* ================================================================== *)

Lemma insert_sorted_perm {A} (key : A -> string) x l :
  Permutation (insert_sorted key x l) (x :: l).
Proof.
  induction l as [|y l IH]; simpl; [reflexivity|].
  destruct (String.leb (key x) (key y)); [reflexivity|].
  rewrite IH. apply perm_swap.
Qed.

Lemma sort_on_perm {A} (key : A -> string) l : Permutation (sort_on key l) l.
Proof.
  induction l as [|x l IH]; simpl; [reflexivity|].
  rewrite insert_sorted_perm. now constructor.
Qed.

Lemma sorted_In k l : In k (sorted l) <-> In k l.
Proof.
  split; apply Permutation_in; [|symmetry]; apply sort_on_perm.
Qed.

Lemma bool_ext (a b : bool) : (a = true <-> b = true) -> a = b.
Proof. destruct a, b; intuition congruence. Qed.

Lemma dict_in_perm {V} k (d d' : dict V) :
  Permutation d d' -> dict_in k d = dict_in k d'.
Proof.
  intros H. apply bool_ext. rewrite !dict_in_iff.
  split; apply Permutation_in; unfold dict_keys;
    [|symmetry]; now apply Permutation_map.
Qed.

Lemma dict_in_map {V W} (f : V -> W) k (d : dict V) :
  dict_in k (map (fun kv => (fst kv, f (snd kv))) d) = dict_in k d.
Proof.
  unfold dict_in. rewrite dict_get_map. now destruct (dict_get k d).
Qed.

Lemma yaml_dump_in k (data : Shard) : dict_in k (yaml_dump data) = dict_in k data.
Proof.
  unfold yaml_dump. rewrite (dict_in_perm k _ _ (sort_on_perm fst _)).
  apply dict_in_map.
Qed.

(* ================================================================== *)
(** ** [MetadataManager.save] *)
(* ================================================================== *)

Lemma group_by_category_snoc working kv :
  group_by_category (working ++ [kv]) =
  let category := category_or_uncategorized (snd kv) in
  let g := group_by_category working in
  dict_set category
    (dict_set (fst kv) (to_dict (snd kv))
              (@dict_get_default Shard category [] g)) g.
Proof.
  unfold group_by_category. now rewrite fold_left_app.
Qed.

Lemma group_by_category_NoDup working :
  NoDup (dict_keys (group_by_category working)).
Proof.
  induction working as [|kv working IH] using rev_ind.
  - constructor.
  - rewrite group_by_category_snoc. now apply dict_set_NoDup.
Qed.

Lemma group_by_category_in working c k :
  in_group (group_by_category working) c k = true <->
  exists m, In (k, m) working /\ category_or_uncategorized m = c.
Proof.
  induction working as [|[k0 m0] working IH] using rev_ind.
  - simpl. split; [discriminate | intros (m & [] & _)].
  - rewrite group_by_category_snoc. cbn [fst snd].
    unfold in_group in *. rewrite dict_get_set.
    eqb_case c (category_or_uncategorized m0).
    + unfold dict_in at 1. rewrite dict_get_set. unfold dict_get_default.
      eqb_case k k0.
      * split; [intros _ | reflexivity].
        exists m0. split; [apply in_or_app; right; now left | reflexivity].
      * assert (Hstep :
          (exists m, In (k, m) working /\
                     category_or_uncategorized m = category_or_uncategorized m0)
          <-> (exists m, In (k, m) (working ++ [(k0, m0)]) /\
                     category_or_uncategorized m = category_or_uncategorized m0)).
        { split.
          - intros (m & Hin & Hc). exists m. split; [|exact Hc].
            apply in_or_app. now left.
          - intros (m & Hin & Hc). apply in_app_or in Hin.
            destruct Hin as [Hin|[Hin|[]]]; [now exists m|].
            injection Hin as -> ->. congruence. }
        rewrite <- Hstep, <- IH. unfold dict_in.
        destruct (dict_get (category_or_uncategorized m0)
                           (group_by_category working)); simpl; tauto.
    + rewrite IH. split.
      * intros (m & Hin & Hc). exists m. split; [|exact Hc].
        apply in_or_app. now left.
      * intros (m & Hin & Hc). apply in_app_or in Hin.
        destruct Hin as [Hin|[Hin|[]]]; [now exists m|].
        injection Hin as -> ->. congruence.
Qed.

Lemma group_by_category_nonempty working c strings :
  dict_get c (group_by_category working) = Some strings -> strings <> [].
Proof.
  induction working as [|[k0 m0] working IH] using rev_ind.
  - discriminate.
  - rewrite group_by_category_snoc. cbn [fst snd]. rewrite dict_get_set.
    destruct (String.eqb c (category_or_uncategorized m0)); [|exact IH].
    intros [= <-]. now destruct (dict_get_default _ _ _) as [|[]]; simpl;
      try destruct (String.eqb k0 s).
Qed.

Lemma filed_under_iff working c k :
  NoDup (dict_keys working) ->
  filed_under working c k = true <->
  exists m, In (k, m) working /\ category_or_uncategorized m = c.
Proof.
  intros Hnd. unfold filed_under. split.
  - destruct (dict_get k working) as [m|] eqn:E; [|discriminate].
    intros H. apply String.eqb_eq in H. exists m. split; [|exact H].
    now apply dict_get_In.
  - intros (m & Hin & Hc). rewrite (In_dict_get _ _ _ Hnd Hin).
    apply String.eqb_eq. exact Hc.
Qed.

Lemma in_group_filed_under working c k :
  unique_keys working = true ->
  in_group (group_by_category working) c k = filed_under working c k.
Proof.
  intros Hu. apply unique_keys_NoDup in Hu. apply bool_ext.
  now rewrite group_by_category_in, filed_under_iff.
Qed.

Lemma save_categories_run (l : dict Shard) : forall io,
  for_each l (fun _ cs => save_category (fst cs) (snd cs)) tt io =
  (Ok tt,
   mkIO (mkDisk (index_json (disk io)) (defaults_json (disk io))
                (dict_update (category_yaml (disk io))
                   (map (fun cs => (fst cs, yaml_dump (snd cs))) l)))
        (_index io) (_defaults io)
        (fold_left (fun cache cs => dict_del (fst cs) cache) l
                   (_category_cache io))).
Proof.
  induction l as [|[c strings] l IH]; intros io.
  - destruct io as [[i d y] ix df cc]. reflexivity.
  - cbn [for_each]. unfold bind. cbn [save_category fst snd].
    unfold save_category at 1. rewrite IH. reflexivity.
Qed.

(** What the [try] block of [save] leaves in the directory. *)
Lemma save_split_run today mgr io :
  is_split_format io = true ->
  exists index io',
    index_view io = Some index /\
    save_split today mgr io
    = (Ok (List.length (group_by_category (metadata mgr))), io') /\
    disk io' =
    mkDisk
      (Some (mkIndex
               (map (fun cs => (fst cs, sorted (dict_keys (snd cs))))
                    (group_by_category (metadata mgr)))
               (map (fun cs => (fst cs,
                       ("metadata_divesms/" ++ fst cs ++ ".yaml")%string))
                    (group_by_category (metadata mgr)))
               (file_data_total_strings mgr)
               (Z_len (metadata mgr))
               today
               (other_fields index)))
      (defaults_json (disk io))
      (dict_update (category_yaml (disk io))
         (map (fun cs => (fst cs, yaml_dump (snd cs)))
              (group_by_category (metadata mgr)))).
Proof.
  intros Hsplit. unfold is_split_format in Hsplit.
  destruct (index_json (disk io)) as [on_disk|] eqn:Ed; [|discriminate].
  unfold save_split, bind. rewrite save_categories_run.
  unfold _load_index, index_view. cbn [_index disk index_json].
  destruct (_index io) as [cached|].
  - exists cached. eexists. split; [reflexivity|].
    split; reflexivity.
  - rewrite Ed. exists on_disk. eexists. split; [reflexivity|].
    split; reflexivity.
Qed.

(** C6, amended: a save files every key under the category of its
    record.  After a save in split format the index lists a key under a
    category exactly when the working set files it there; every
    category of the index has a shard whose entries are the keys the
    index lists under it; and the categories of the index are those
    with a key.  So a key whose record has moved from [a] to [b] is in
    shard [b] and under [b] in the index, is no longer under [a] in the
    index, and is not in shard [a] when [a] still is a category of the
    index. *)
Theorem save_files_keys_by_category (today : string) (mgr : MetadataManager)
    (io : MetadataIO) :
  metadata_io mgr = Some io ->
  is_split_format io = true ->
  unique_keys (metadata mgr) = true ->
  exists d',
    disk_of (fst (save today mgr)) = Some d' /\
    (forall c k, in_index d' c k = filed_under (metadata mgr) c k) /\
    (forall c, index_has_category d' c = true ->
               forall k, in_shard d' c k = in_index d' c k) /\
    (forall c, index_has_category d' c = true <->
               exists k, filed_under (metadata mgr) c k = true) /\
    (forall k a b,
       filed_under (metadata mgr) b k = true -> a <> b ->
       in_shard d' b k = true /\ in_index d' b k = true /\
       in_index d' a k = false /\
       (index_has_category d' a = true -> in_shard d' a k = false)).
Proof.
  intros Hio Hsplit Hu.
  destruct (save_split_run today mgr io Hsplit) as (index & io' & Hi & Erun & Hd).
  unfold save, disk_of. rewrite Hio, Hsplit, Erun. cbn [fst metadata_io option_map].
  exists (disk io'). split; [reflexivity|]. rewrite Hd. clear Hd Erun.
  set (g := group_by_category (metadata mgr)).
  assert (Hg : forall c k, in_group g c k = filed_under (metadata mgr) c k)
    by (intros; now apply in_group_filed_under).
  assert (Hindex : forall c k,
    in_index {| index_json := Some
         (mkIndex (map (fun cs => (fst cs, sorted (dict_keys (snd cs)))) g)
            (map (fun cs => (fst cs, ("metadata_divesms/" ++ fst cs ++ ".yaml")%string)) g)
            (file_data_total_strings mgr) (Z_len (metadata mgr)) today
            (other_fields index));
       defaults_json := defaults_json (disk io);
       category_yaml := dict_update (category_yaml (disk io))
            (map (fun cs => (fst cs, yaml_dump (snd cs))) g) |} c k
    = in_group g c k).
  { intros c k. unfold in_index, in_group. cbn [index_json categories].
    rewrite (dict_get_map (fun strings : Shard => sorted (dict_keys strings))).
    destruct (dict_get c g) as [strings|]; simpl; [|reflexivity].
    apply bool_ext. now rewrite str_in_iff, sorted_In, dict_in_iff. }
  assert (Hcat : forall c,
    index_has_category {| index_json := Some
         (mkIndex (map (fun cs => (fst cs, sorted (dict_keys (snd cs)))) g)
            (map (fun cs => (fst cs, ("metadata_divesms/" ++ fst cs ++ ".yaml")%string)) g)
            (file_data_total_strings mgr) (Z_len (metadata mgr)) today
            (other_fields index));
       defaults_json := defaults_json (disk io);
       category_yaml := dict_update (category_yaml (disk io))
            (map (fun cs => (fst cs, yaml_dump (snd cs))) g) |} c
    = dict_in c g).
  { intros c. unfold index_has_category. cbn [index_json categories].
    apply (dict_in_map (fun strings : Shard => sorted (dict_keys strings))). }
  assert (Hshard : forall c, dict_in c g = true -> forall k,
    in_shard {| index_json := Some
         (mkIndex (map (fun cs => (fst cs, sorted (dict_keys (snd cs)))) g)
            (map (fun cs => (fst cs, ("metadata_divesms/" ++ fst cs ++ ".yaml")%string)) g)
            (file_data_total_strings mgr) (Z_len (metadata mgr)) today
            (other_fields index));
       defaults_json := defaults_json (disk io);
       category_yaml := dict_update (category_yaml (disk io))
            (map (fun cs => (fst cs, yaml_dump (snd cs))) g) |} c k
    = in_group g c k).
  { intros c Hc k. unfold in_shard, in_group. cbn [category_yaml].
    rewrite dict_get_update.
    2:{ rewrite (dict_keys_map yaml_dump). apply group_by_category_NoDup. }
    rewrite (dict_get_map yaml_dump). unfold dict_in in Hc.
    destruct (dict_get c g) as [strings|]; [|discriminate]. simpl.
    apply yaml_dump_in. }
  assert (Hhas : forall c, dict_in c g = true <->
                           exists k, filed_under (metadata mgr) c k = true).
  { intros c. split.
    - unfold dict_in. destruct (dict_get c g) as [strings|] eqn:Eg; [|discriminate].
      intros _. destruct strings as [|[k r] strings].
      + now apply group_by_category_nonempty in Eg.
      + exists k. rewrite <- Hg. unfold in_group. rewrite Eg.
        unfold dict_in. simpl. now rewrite String.eqb_refl.
    - intros (k & Hk). rewrite <- Hg in Hk. unfold in_group in Hk.
      unfold dict_in. now destruct (dict_get c g). }
  split; [intros; now rewrite Hindex|].
  split; [intros c Hc k; rewrite Hcat in Hc; now rewrite Hshard, Hindex|].
  split; [intros c; now rewrite Hcat|].
  intros k a b Hb Hab.
  assert (Ha : filed_under (metadata mgr) a k = false).
  { unfold filed_under in *. destruct (dict_get k (metadata mgr)); [|reflexivity].
    apply String.eqb_eq in Hb. apply String.eqb_neq. congruence. }
  assert (Hbg : dict_in b g = true) by (apply Hhas; now exists k).
  repeat split.
  - now rewrite Hshard, Hg.
  - now rewrite Hindex, Hg.
  - now rewrite Hindex, Hg.
  - intros Hc. rewrite Hcat in Hc. now rewrite Hshard, Hg.
Qed.

Lemma save_files_keys_by_category_witness :
  is_split_format
    (mkIO (mkDisk (Some (mkIndex [("a", ["i"; "k"])]
                                 [("a", "metadata_divesms/a.yaml")]
                                 2 2 "2025-01-01" []))
                  None
                  [("a", [("i", to_dict (plain "a"));
                          ("k", to_dict (plain "a"))])])
          None PNone []) = true /\
  unique_keys (metadata moved_manager_kept) = true /\
  exists d',
    disk_of (fst (save "2025-06-01" moved_manager_kept)) = Some d' /\
    in_shard d' "b" "k" = true /\ in_index d' "b" "k" = true /\
    in_index d' "a" "k" = false /\ in_shard d' "a" "k" = false /\
    in_shard d' "a" "i" = true.
Proof.
  split; [reflexivity|]. split; [reflexivity|].
  destruct (save_files_keys_by_category "2025-06-01" moved_manager_kept _
              eq_refl eq_refl eq_refl) as (d' & Hd & Hi & Hs & Hc & Hmove).
  exists d'. split; [exact Hd|].
  destruct (Hmove "k" "a" "b" eq_refl) as (H1 & H2 & H3 & H4); [discriminate|].
  repeat split; auto.
  - apply H4. apply Hc. exists "i". reflexivity.
  - rewrite Hs, Hi; [reflexivity|]. apply Hc. exists "i". reflexivity.
Defined.

(** C6 as stated fails: in [moved_manager] the record of [k] has moved
    from [a] to [b] and [j] has left the working set, no record staying
    under [a].  After the save the index has [b] only, and the file of
    [a] still has its entries for [k] and for [j], a key the index no
    longer has. *)
Lemma save_leaves_emptied_shard :
  exists d',
    disk_of (fst (save "2025-06-01" moved_manager)) = Some d' /\
    snd (save "2025-06-01" moved_manager) = [SavedSplit 1 1] /\
    in_index d' "b" "k" = true /\
    in_index d' "a" "k" = false /\
    in_shard d' "a" "k" = true /\
    in_shard d' "a" "j" = true /\
    (forall c, in_index d' c "j" = false).
Proof.
  eexists. split; [reflexivity|]. repeat split.
  intros c. unfold in_index. simpl.
  destruct (String.eqb c _); reflexivity.
Qed.

(* ================================================================== *)
(** ** The cleanup command *)
(* ================================================================== *)

Lemma listed_cons c0 keys m c k :
  listed ((c0, keys) :: m) c k =
  if String.eqb c c0 then str_in k keys else listed m c k.
Proof. unfold listed. simpl. now destruct (String.eqb c c0). Qed.

Lemma listed_set c0 keys m c k :
  listed (dict_set c0 keys m) c k =
  if String.eqb c c0 then str_in k keys else listed m c k.
Proof. unfold listed. rewrite dict_get_set. now destruct (String.eqb c c0). Qed.

Lemma listed_del c0 m c k :
  listed (dict_del c0 m) c k =
  if String.eqb c c0 then false else listed m c k.
Proof. unfold listed. rewrite dict_get_del. now destruct (String.eqb c c0). Qed.

Lemma listed_absent m c k :
  ~ In c (dict_keys m) -> listed m c k = false.
Proof.
  intros H. apply dict_get_None_iff in H. unfold listed. now rewrite H.
Qed.

Lemma str_in_filter (p : string -> bool) k l :
  str_in k (filter p l) = andb (str_in k l) (p k).
Proof.
  apply bool_ext. rewrite andb_true_iff, !str_in_iff, filter_In. tauto.
Qed.

(** The dry run of the first loop writes nothing. *)
Lemma remove_from_shards_dry o : forall yaml n out,
  fst (fst (remove_from_shards true o yaml n out)) = yaml.
Proof.
  induction o as [|[c ks] o IH]; intros yaml n out; [reflexivity|].
  cbn [remove_from_shards].
  destruct (dict_get c yaml) as [data|]; [|apply IH].
  destruct (remove_keys true ks data 0 out) as [[data' cnt] out'].
  rewrite andb_false_r. apply IH.
Qed.

(** The inner loop in execute mode: the keys of the list leave the
    shard, and a zero count leaves it as it was. *)
Lemma remove_keys_exec ks : forall data n out,
  (forall k, dict_in k (fst (fst (remove_keys false ks data n out)))
             = andb (dict_in k data) (negb (str_in k ks))) /\
  n <= snd (fst (remove_keys false ks data n out)) /\
  (snd (fst (remove_keys false ks data n out)) = n ->
   fst (fst (remove_keys false ks data n out)) = data).
Proof.
  induction ks as [|key ks IH]; intros data n out; cbn [remove_keys].
  - simpl. repeat split; auto. intros k. now rewrite andb_true_r.
  - destruct (dict_in key data) eqn:Ekey.
    + destruct (IH (dict_del key data) (S n) (out ++ [Removed key]))
        as (Hin & Hle & Hsame).
      split; [|split].
      * intros k. rewrite Hin. unfold dict_in at 1. rewrite dict_get_del.
        cbn [str_in existsb]. fold (str_in k ks).
        destruct (String.eqb k key); simpl.
        -- now rewrite andb_false_r.
        -- reflexivity.
      * lia.
      * intros H. lia.
    + destruct (IH data n out) as (Hin & Hle & Hsame).
      split; [|split]; auto.
      intros k. rewrite Hin. cbn [str_in existsb]. fold (str_in k ks).
      eqb_case k key; simpl; [|reflexivity].
      rewrite Ekey. reflexivity.
Qed.

(** The first loop in execute mode. *)
Lemma remove_from_shards_exec o : forall yaml n out,
  NoDup (dict_keys o) ->
  forall c k,
    in_yaml (fst (fst (remove_from_shards false o yaml n out))) c k
    = andb (in_yaml yaml c k) (negb (listed o c k)).
Proof.
  induction o as [|[c0 ks] o IH]; intros yaml n out Hnd c k.
  - simpl. now rewrite andb_true_r.
  - inversion Hnd as [|? ? Hnotin Hnd']; subst.
    cbn [remove_from_shards]. rewrite listed_cons.
    destruct (dict_get c0 yaml) as [data|] eqn:Ey.
    + destruct (remove_keys_exec ks data 0 out) as (Hin & _ & Hsame).
      destruct (remove_keys false ks data 0 out) as [[data' cnt] out'].
      cbn [fst snd] in Hin, Hsame. rewrite andb_true_r.
      destruct (Nat.ltb 0 cnt) eqn:Ecnt; rewrite IH by exact Hnd'.
      * unfold in_yaml at 1. rewrite dict_get_set. eqb_case c c0.
        -- rewrite yaml_dump_in, Hin, (listed_absent o c0 k Hnotin).
           unfold in_yaml. rewrite Ey. now rewrite andb_true_r.
        -- reflexivity.
      * apply Nat.ltb_ge in Ecnt. assert (cnt = 0) by lia.
        specialize (Hsame H). subst data'.
        eqb_case c c0; [|reflexivity].
        rewrite (listed_absent o c0 k Hnotin), andb_true_r.
        unfold in_yaml. rewrite Ey. apply Hin.
    + rewrite IH by exact Hnd'. eqb_case c c0; [|reflexivity].
      unfold in_yaml. rewrite Ey. reflexivity.
Qed.

(** The second loop: the index loses the orphaned keys. *)
Lemma remove_from_index_listed o : forall cats,
  NoDup (dict_keys o) ->
  forall c k,
    listed (remove_from_index o cats) c k
    = andb (listed cats c k) (negb (listed o c k)).
Proof.
  unfold remove_from_index.
  induction o as [|[c0 ks] o IH]; intros cats Hnd c k.
  - simpl. now rewrite andb_true_r.
  - inversion Hnd as [|? ? Hnotin Hnd']; subst.
    cbn [fold_left fst snd]. rewrite IH by exact Hnd'. rewrite listed_cons.
    destruct (dict_get c0 cats) as [keys|] eqn:Ec.
    + assert (Hstep :
        listed (match filter (fun key => negb (str_in key ks)) keys with
                | [] => dict_del c0 cats
                | s :: l => dict_set c0 (s :: l) cats
                end) c k
        = if String.eqb c c0 then andb (str_in k keys) (negb (str_in k ks))
          else listed cats c k).
      { destruct (filter (fun key => negb (str_in key ks)) keys) as [|s l] eqn:Ef.
        - rewrite listed_del. destruct (String.eqb c c0); [|reflexivity].
          rewrite <- (str_in_filter (fun key => negb (str_in key ks))), Ef.
          reflexivity.
        - rewrite listed_set. destruct (String.eqb c c0); [|reflexivity].
          rewrite <- Ef. apply str_in_filter. }
      rewrite Hstep. eqb_keep c c0; [subst c|reflexivity].
      rewrite (listed_absent o c0 k Hnotin), andb_true_r.
      unfold listed. now rewrite Ec.
    + eqb_keep c c0; [subst c|reflexivity].
      assert (H : listed cats c0 k = false) by (unfold listed; now rewrite Ec).
      now rewrite H.
Qed.

(** The orphans found: the keys the index lists that [strings.xml]
    lacks. *)
Lemma find_fold_listed xs cats : forall acc,
  NoDup (dict_keys cats) ->
  (forall c, In c (dict_keys cats) -> ~ In c (dict_keys acc)) ->
  NoDup (dict_keys acc) ->
  let o := fold_left
             (fun (orphaned_by_category : dict (list string)) cks =>
                match orphaned_in xs (snd cks) with
                | [] => orphaned_by_category
                | orphaned => dict_set (fst cks) orphaned orphaned_by_category
                end)
             cats acc in
  NoDup (dict_keys o) /\
  forall c k, listed o c k
              = orb (listed acc c k)
                    (andb (listed cats c k) (negb (str_in k xs))).
Proof.
  induction cats as [|[c0 ks0] cats IH]; intros acc Hnd Hdisj Hacc; cbn [fold_left].
  - split; [exact Hacc|]. intros c k. unfold listed at 3. simpl.
    now rewrite orb_false_r.
  - inversion Hnd as [|? ? Hnotin Hnd']; subst. cbn [fst snd].
    assert (Hc0 : ~ In c0 (dict_keys acc)) by (apply Hdisj; now left).
    set (acc1 := match orphaned_in xs ks0 with
                 | [] => acc
                 | s :: l => dict_set c0 (s :: l) acc
                 end).
    assert (Hacc1 : NoDup (dict_keys acc1)).
    { unfold acc1. destruct (orphaned_in xs ks0); [exact Hacc|].
      now apply dict_set_NoDup. }
    assert (Hkeys1 : forall c, In c (dict_keys acc1) ->
                               c = c0 \/ In c (dict_keys acc)).
    { unfold acc1. intros c. destruct (orphaned_in xs ks0); [now right|].
      now rewrite dict_keys_set. }
    assert (Hl1 : forall c k,
      listed acc1 c k
      = if String.eqb c c0 then andb (str_in k ks0) (negb (str_in k xs))
        else listed acc c k).
    { intros c k. unfold acc1.
      rewrite <- (str_in_filter (fun key => negb (str_in key xs))).
      fold (orphaned_in xs ks0).
      destruct (orphaned_in xs ks0) as [|s l] eqn:Eo.
      - eqb_keep c c0; [subst c|reflexivity]. now apply listed_absent.
      - apply listed_set. }
    destruct (IH acc1 Hnd') as (Ho & Hl); [|exact Hacc1|].
    { intros c Hc Hin. destruct (Hkeys1 c Hin) as [->|Hin'].
      - tauto.
      - apply (Hdisj c); [now right | exact Hin']. }
    split; [exact Ho|]. intros c k. rewrite Hl, Hl1, listed_cons.
    eqb_keep c c0; [subst c|reflexivity].
    rewrite (listed_absent acc c0 k Hc0), (listed_absent cats c0 k Hnotin).
    simpl. now rewrite orb_false_r.
Qed.

Lemma find_orphaned_ok d xml index :
  index_json d = Some index ->
  unique_keys (categories index) = true ->
  exists o,
    fst (find_orphaned_metadata d xml) = Ok o /\
    NoDup (dict_keys o) /\
    forall c k,
      listed o c k
      = andb (in_index d c k)
             (negb (str_in k (fst (get_strings_from_xml xml)))).
Proof.
  intros Hi Hu. apply unique_keys_NoDup in Hu.
  unfold find_orphaned_metadata. rewrite Hi.
  destruct (get_strings_from_xml xml) as [xs out0]. cbn [fst].
  destruct (find_fold_listed xs (categories index) [] Hu) as (Ho & Hl).
  { intros c _ []. }
  { constructor. }
  eexists. split; [reflexivity|]. split; [exact Ho|].
  intros c k. rewrite Hl. unfold in_index. rewrite Hi. reflexivity.
Qed.

Lemma listed_iff_In o c k :
  NoDup (dict_keys o) ->
  listed o c k = true <-> exists ks, In (c, ks) o /\ In k ks.
Proof.
  intros Hnd. unfold listed. split.
  - destruct (dict_get c o) as [ks|] eqn:E; [|discriminate].
    intros H. exists ks. split; [now apply dict_get_In | now apply str_in_iff].
  - intros (ks & Hin & Hk). rewrite (In_dict_get _ _ _ Hnd Hin).
    now apply str_in_iff.
Qed.

(** The keys the summary lists are the orphans found. *)
Lemma print_summary_bullets o k :
  NoDup (dict_keys o) ->
  In (KeyBullet k) (print_summary o) <-> exists c, listed o c k = true.
Proof.
  intros Hnd. unfold print_summary. rewrite in_app_iff, in_flat_map. split.
  - intros [[H|[]]|([c ks] & Hin & Hk)]; [discriminate|].
    cbn [fst snd] in Hk. destruct Hk as [Hk|Hk]; [discriminate|].
    apply in_app_or in Hk. destruct Hk as [Hk|[Hk|[]]]; [|discriminate].
    apply in_map_iff in Hk. destruct Hk as (k' & [= ->] & Hk').
    exists c. apply listed_iff_In; [exact Hnd|]. exists ks. split.
    + eapply Permutation_in; [apply sort_on_perm | exact Hin].
    + now apply sorted_In.
  - intros (c & Hc). apply listed_iff_In in Hc; [|exact Hnd].
    destruct Hc as (ks & Hin & Hk). right. exists (c, ks). split.
    + eapply Permutation_in; [symmetry; apply sort_on_perm | exact Hin].
    + cbn [fst snd]. right. apply in_or_app. left.
      apply in_map. now apply sorted_In.
Qed.

Lemma removal_line_inj b k k' : removal_line b k = removal_line b k' -> k = k'.
Proof. destruct b; simpl; congruence. Qed.

Lemma In_removal_line_snoc b k l (x : Line) :
  (forall k', x <> removal_line b k') ->
  In (removal_line b k) (l ++ [x]) <-> In (removal_line b k) l.
Proof.
  intros Hx. rewrite in_app_iff. simpl. split; [|tauto].
  intros [H|[H|[]]]; [exact H|]. exfalso. now apply (Hx k).
Qed.

(** The keys the inner loop reports: those of the list the shard has. *)
Lemma remove_keys_lines b k ks : forall data n out,
  In (removal_line b k) (snd (remove_keys b ks data n out)) <->
  In (removal_line b k) out \/ (In k ks /\ dict_in k data = true).
Proof.
  induction ks as [|key ks IH]; intros data n out; cbn [remove_keys].
  - simpl. tauto.
  - destruct (dict_in key data) eqn:Ekey.
    + assert (Hsnoc : In (removal_line b k) (out ++ [removal_line b key]) <->
                      In (removal_line b k) out \/ k = key).
      { rewrite in_app_iff. simpl. split.
        - intros [H|[H|[]]]; [now left|]. right.
          symmetry. now apply removal_line_inj in H.
        - intros [H|H]; [now left|]. subst. right. now left. }
      assert (Hstep :
        In (removal_line b k)
           (snd (if b
                 then remove_keys b ks data (S n) (out ++ [WouldRemove key])
                 else remove_keys b ks (dict_del key data) (S n)
                                  (out ++ [Removed key])))
        <-> In (removal_line b k) (out ++ [removal_line b key]) \/
            (In k ks /\ dict_in k data = true)).
      { destruct b; rewrite IH; cbn [removal_line]; [reflexivity|].
        change (Removed key) with (removal_line false key).
        change (Removed k) with (removal_line false k).
        rewrite Hsnoc. unfold dict_in at 1. rewrite dict_get_del.
        eqb_keep k key.
        - intuition discriminate.
        - fold (dict_in k data). tauto. }
      rewrite Hstep, Hsnoc. simpl. split.
      * intros [[H|H]|[H H']]; auto. subst. auto.
      * intros [H|[[H|H] H']]; auto.
    + rewrite IH. simpl. split; [tauto|].
      intros [H|[[H|H] H']]; auto. subst. congruence.
Qed.

(** The keys the first loop reports, in either mode: the orphans whose
    category's shard has them. *)
Lemma remove_from_shards_lines b k o : forall yaml n out,
  NoDup (dict_keys o) ->
  In (removal_line b k) (snd (remove_from_shards b o yaml n out)) <->
  In (removal_line b k) out \/
  exists c, listed o c k = true /\ in_yaml yaml c k = true.
Proof.
  induction o as [|[c0 ks] o IH]; intros yaml n out Hnd.
  - simpl. split; [tauto|]. intros [H|(c & H & _)]; [exact H|discriminate].
  - inversion Hnd as [|? ? Hnotin Hnd']; subst. cbn [remove_from_shards].
    assert (Hex : forall (P : Prop),
      (P \/ exists c, listed o c k = true /\ in_yaml yaml c k = true) \/
      (listed [(c0, ks)] c0 k = true /\ in_yaml yaml c0 k = true)
      <-> P \/ exists c, listed ((c0, ks) :: o) c k = true /\
                         in_yaml yaml c k = true).
    { intros P. split.
      - intros [[H|(c & H1 & H2)]|[H1 H2]]; [now left| |].
        + right. exists c. rewrite listed_cons.
          eqb_keep c c0; [subst c|now split].
          now rewrite (listed_absent o c0 k Hnotin) in H1.
        + right. exists c0. rewrite listed_cons in *.
          now rewrite String.eqb_refl in *.
      - intros [H|(c & H1 & H2)]; [now left; left|].
        rewrite listed_cons in H1. eqb_keep c c0; [subst c|].
        + right. rewrite listed_cons, String.eqb_refl. now split.
        + left. right. now exists c. }
    destruct (dict_get c0 yaml) as [data|] eqn:Ey.
    + pose proof (remove_keys_lines b k ks data 0 out) as Hkeys.
      destruct (remove_keys b ks data 0 out) as [[data' cnt] out'].
      cbn [snd] in Hkeys.
      assert (Hhere : In (removal_line b k) out' <->
                      In (removal_line b k) out \/
                      (listed [(c0, ks)] c0 k = true /\
                       in_yaml yaml c0 k = true)).
      { rewrite Hkeys, listed_cons, String.eqb_refl, str_in_iff.
        unfold in_yaml. now rewrite Ey. }
      destruct (andb (Nat.ltb 0 cnt) (negb b)) eqn:Ew.
      * rewrite IH by exact Hnd'.
        rewrite In_removal_line_snoc by (destruct b; discriminate).
        rewrite Hhere, <- Hex.
        assert (Hy : forall c, listed o c k = true ->
                  in_yaml (dict_set c0 (yaml_dump data') yaml) c k
                  = in_yaml yaml c k).
        { intros c Hc. unfold in_yaml. rewrite dict_get_set.
          eqb_keep c c0; [subst c|reflexivity].
          now rewrite (listed_absent o c0 k Hnotin) in Hc. }
        split.
        -- intros [[H|H]|(c & H1 & H2)]; auto.
           left. right. exists c. split; [exact H1|]. now rewrite <- Hy.
        -- intros [[H|(c & H1 & H2)]|H]; auto.
           right. exists c. split; [exact H1|]. now rewrite Hy.
      * rewrite IH by exact Hnd'. rewrite Hhere, <- Hex. tauto.
    + rewrite IH by exact Hnd'.
      rewrite In_removal_line_snoc by (destruct b; discriminate).
      rewrite <- Hex. unfold in_yaml at 3. rewrite Ey. intuition discriminate.
Qed.

Lemma remove_orphaned_dry_keeps_disk mtime d o :
  snd (fst (remove_orphaned_metadata mtime d o true)) = d.
Proof.
  unfold remove_orphaned_metadata.
  pose proof (remove_from_shards_dry o (category_yaml d) 0 []) as H.
  destruct (remove_from_shards true o (category_yaml d) 0 []) as [[yaml' n] out].
  cbn [fst snd] in *. subst yaml'. now destruct d.
Qed.

Lemma cleanup_dry_keeps_disk mtime argv d xml :
  str_in "--execute" argv = false ->
  snd (fst (cleanup_main mtime argv d xml)) = d.
Proof.
  intros H. unfold cleanup_main. rewrite H. cbn [negb].
  destruct (find_orphaned_metadata d xml) as [[[|? ?]|e] out]; reflexivity.
Qed.

Lemma in_index_listed d index c k :
  index_json d = Some index -> in_index d c k = listed (categories index) c k.
Proof. intros H. unfold in_index, listed. now rewrite H. Qed.

(** C8: the dry-run contract of the cleanup command.  Without
    [--execute] the command leaves the metadata directory as it was, and
    so does [remove_orphaned_metadata] called for a dry run.  On the
    same inputs the two modes print the same lines after the banner that
    names the mode, up to the point where the dry run stops; the keys
    listed there are the orphans found; and execute mode takes exactly
    those keys, each under its category, out of the index and out of the
    shards, and nothing else.  Called on the same orphans, the dry run of
    [remove_orphaned_metadata] reports the keys the execute run
    removes. *)
Theorem cleanup_dry_run_contract (mtime : string) (d : Disk)
    (xml : option (list StringElem)) :
  (forall argv, str_in "--execute" argv = false ->
                snd (fst (cleanup_main mtime argv d xml)) = d) /\
  (forall o, snd (fst (remove_orphaned_metadata mtime d o true)) = d) /\
  (forall index argv_dry argv_exec,
     index_json d = Some index ->
     unique_keys (categories index) = true ->
     is_ok (touch_index_metadata mtime (other_fields index)) = true ->
     str_in "--execute" argv_dry = false ->
     str_in "--execute" argv_exec = true ->
     exists o d2 tail1 tail2,
       fst (find_orphaned_metadata d xml) = Ok o /\
       cleanup_main mtime argv_dry d xml
       = (Ok tt, d, Banner true :: preview_lines d xml ++ tail1) /\
       cleanup_main mtime argv_exec d xml
       = (Ok tt, d2, Banner false :: preview_lines d xml ++ tail2) /\
       (forall k, In (KeyBullet k) (preview_lines d xml) <->
                  exists c, listed o c k = true) /\
       (forall c k, listed o c k = true -> in_index d c k = true) /\
       (forall c k, in_index d2 c k
                    = andb (in_index d c k) (negb (listed o c k))) /\
       (forall c k, in_shard d2 c k
                    = andb (in_shard d c k) (negb (listed o c k))) /\
       (forall k,
          In (WouldRemove k) (snd (remove_orphaned_metadata mtime d o true))
          <-> In (Removed k) (snd (remove_orphaned_metadata mtime d o false)))).
Proof.
  split; [intros argv; apply cleanup_dry_keeps_disk|].
  split; [intros o; apply remove_orphaned_dry_keeps_disk|].
  intros index argv_dry argv_exec Hi Hu Htouch Hdry Hexec.
  destruct (find_orphaned_ok d xml index Hi Hu) as (o & Hfind & Ho & Hl).
  assert (Hlines : forall k,
    In (WouldRemove k) (snd (remove_orphaned_metadata mtime d o true))
    <-> In (Removed k) (snd (remove_orphaned_metadata mtime d o false))).
  { intros k. unfold remove_orphaned_metadata.
    pose proof (remove_from_shards_lines true k o (category_yaml d) 0 [] Ho) as H1.
    pose proof (remove_from_shards_lines false k o (category_yaml d) 0 [] Ho) as H2.
    destruct (remove_from_shards true o (category_yaml d) 0 []) as [[y1 n1] out1].
    destruct (remove_from_shards false o (category_yaml d) 0 []) as [[y2 n2] out2].
    cbn [snd removal_line negb] in *. rewrite Hi.
    destruct (touch_index_metadata mtime (other_fields index)); cbn [snd].
    - change (Removed k) with (removal_line false k).
      rewrite In_removal_line_snoc by discriminate.
      cbn [removal_line]. rewrite H1, H2. simpl. tauto.
    - rewrite H1, H2. simpl. tauto. }
  assert (Hbul : forall k, In (KeyBullet k) (preview_lines d xml) <->
                           exists c, listed o c k = true).
  { intros k. unfold preview_lines. rewrite Hfind.
    assert (Hout : ~ In (KeyBullet k) (snd (find_orphaned_metadata d xml))).
    { unfold find_orphaned_metadata. rewrite Hi.
      destruct xml; simpl; intuition discriminate. }
    rewrite !in_app_iff. destruct o as [|co o'] eqn:Eo.
    - simpl. split.
      + intros [H|[H|H]]; [intuition discriminate | tauto | intuition discriminate].
      + intros (c & H). discriminate.
    - rewrite <- Eo in *. rewrite print_summary_bullets by exact Ho.
      simpl. split; [|tauto].
      intros [H|[H|H]]; [intuition discriminate | tauto | exact H]. }
  assert (Hsub : forall c k, listed o c k = true -> in_index d c k = true).
  { intros c k H. rewrite Hl in H. now apply andb_true_iff in H. }
  assert (Hmain : exists d2 tail1 tail2,
    cleanup_main mtime argv_dry d xml
    = (Ok tt, d, Banner true :: preview_lines d xml ++ tail1) /\
    cleanup_main mtime argv_exec d xml
    = (Ok tt, d2, Banner false :: preview_lines d xml ++ tail2) /\
    (forall c k, in_index d2 c k
                 = andb (in_index d c k) (negb (listed o c k))) /\
    (forall c k, in_shard d2 c k
                 = andb (in_shard d c k) (negb (listed o c k)))).
  { clear Hlines Hbul Hsub.
    unfold cleanup_main. rewrite Hdry, Hexec. cbn [negb].
    pose proof (eq_refl (preview_lines d xml)) as Hp.
    unfold preview_lines at 2 in Hp.
    destruct (find_orphaned_metadata d xml) as [r out0]. cbn [fst snd] in *.
    subst r. destruct o as [|co o'] eqn:Eo.
    - (* nothing to remove *)
      exists d, [], []. rewrite !app_nil_r.
      split; [now rewrite Hp|]. split; [now rewrite Hp|].
      split; intros c k; unfold listed; simpl; now rewrite andb_true_r.
    - rewrite <- Eo in *.
      pose proof (remove_from_shards_exec o (category_yaml d) 0 [] Ho) as Hy.
      unfold remove_orphaned_metadata. cbn [negb].
      destruct (remove_from_shards false o (category_yaml d) 0 [])
        as [[yaml' total] out'] eqn:Erun.
      cbn [fst] in Hy. rewrite Hi.
      destruct (touch_index_metadata mtime (other_fields index)) as [other|e];
        [|discriminate].
      eexists. exists [DryRunNotice]. eexists.
      split.
      { rewrite Hp, Eo. cbn [app]. rewrite <- !app_assoc. reflexivity. }
      split.
      { rewrite Hp, Eo. cbn [app]. rewrite <- !app_assoc. reflexivity. }
      split.
      + intros c k. unfold in_index at 1. cbn [index_json categories].
        fold (listed (remove_from_index o (categories index)) c k).
        rewrite remove_from_index_listed by exact Ho.
        now rewrite (in_index_listed d index c k Hi).
      + intros c k. unfold in_shard. cbn [category_yaml]. apply Hy. }
  destruct Hmain as (d2 & tail1 & tail2 & H1 & H2 & H3 & H4).
  exists o, d2, tail1, tail2.
  split; [exact Hfind|]. split; [exact H1|]. split; [exact H2|].
  split; [exact Hbul|]. split; [exact Hsub|]. split; [exact H3|].
  split; [exact H4 | exact Hlines].
Qed.

Lemma cleanup_dry_run_contract_witness :
  index_json orphan_disk
  = Some (mkIndex [("auth", ["gone"; "sign_in"])] [] 2 2 "2025-01-01" []) /\
  str_in "--execute" [] = false /\
  str_in "--execute" ["--execute"] = true /\
  exists d2 tail,
    cleanup_main "0" [] orphan_disk orphan_xml
    = (Ok tt, orphan_disk,
       Banner true :: preview_lines orphan_disk orphan_xml ++ [DryRunNotice]) /\
    cleanup_main "0" ["--execute"] orphan_disk orphan_xml
    = (Ok tt, d2, Banner false :: preview_lines orphan_disk orphan_xml ++ tail) /\
    In (KeyBullet "gone") (preview_lines orphan_disk orphan_xml) /\
    in_index d2 "auth" "gone" = false /\
    in_shard d2 "auth" "gone" = false /\
    in_index d2 "auth" "sign_in" = true /\
    in_shard d2 "auth" "sign_in" = true.
Proof.
  split; [reflexivity|]. split; [reflexivity|]. split; [reflexivity|].
  destruct (proj2 (proj2 (cleanup_dry_run_contract "0" orphan_disk orphan_xml))
              _ [] ["--execute"] eq_refl eq_refl eq_refl eq_refl eq_refl)
    as (o & d2 & tail1 & tail2 & Hfind & Hdry & Hexec & Hbul & _ & Hi & Hs & _).
  simpl in Hfind. injection Hfind as <-.
  exists d2, tail2. split; [reflexivity|]. split; [exact Hexec|].
  split; [apply Hbul; now exists "auth"|].
  rewrite !Hi, !Hs. repeat split.
Defined.

(* ================================================================== *)
(** ** Runs and their events *)
(* ================================================================== *)

Lemma and_then_done {A B} (m : Run A) (f : A -> Run B) a t1 r t2 :
  m = (Done a, t1) -> f a = (r, t2) -> and_then m f = (r, t1 ++ t2).
Proof. intros -> H. unfold and_then. now rewrite H. Qed.

Lemma and_then_exit {A B} (m : Run A) (f : A -> Run B) c t1 :
  m = (SystemExit c, t1) -> and_then m f = (SystemExit c, t1).
Proof. now intros ->. Qed.

Lemma dispatched_app t1 t2 :
  dispatched (t1 ++ t2) = dispatched t1 ++ dispatched t2.
Proof. unfold dispatched. apply flat_map_app. Qed.

Lemma dispatched_cons_log l m t :
  dispatched (Log l m :: t) = dispatched t.
Proof. reflexivity. Qed.

Lemma dispatched_logs t :
  (forall e, In e t -> exists l m, e = Log l m) -> dispatched t = [].
Proof.
  induction t as [|e t IH]; intros H; [reflexivity|].
  destruct (H e (or_introl eq_refl)) as (l & m & ->). simpl.
  apply IH. intros e' He'. apply H. now right.
Qed.

(** The events of [m] followed by [f]: those of [m], then those of [f]
    on the value [m] went on with. *)
Lemma and_then_events {A B} (m : Run A) (f : A -> Run B) e :
  In e (snd (and_then m f)) ->
  In e (snd m) \/ exists a, fst m = Done a /\ In e (snd (f a)).
Proof.
  destruct m as [[a|c] t]; simpl; [|now left].
  destruct (f a) as [r t'] eqn:E. simpl. rewrite in_app_iff.
  intros [H|H]; [now left|]. right. exists a. rewrite E. now split.
Qed.


(* ================================================================== *)
(** ** [translate_string] *)
(* ================================================================== *)

Section SessionFacts.

Variable build_multilang_prompt : string -> string -> Metadata -> option string.
Variable openai : Provider.
Variable T : Translator.

(** A documented key without source text: a warning, no translations. *)
Lemma translate_string_no_source string_key dry_run :
  documented T string_key = true ->
  dict_get_default string_key "" (tr_strings T) = "" ->
  translate_string build_multilang_prompt openai T string_key dry_run
  = (Done [], [Log WARNING (NoSourceTextSkipping string_key)]).
Proof.
  unfold documented, dict_in, translate_string. intros Hdoc Hsrc.
  destruct (dict_get string_key (tr_metadata T)); [|discriminate].
  now rewrite Hsrc.
Qed.

(** A key whose prompt cannot be built: an error record, no
    translations. *)
Lemma translate_string_prompt_fails string_key dry_run m :
  dict_get string_key (tr_metadata T) = Some m ->
  build_multilang_prompt string_key
    (dict_get_default string_key "" (tr_strings T)) m = None ->
  fst (translate_string build_multilang_prompt openai T string_key dry_run)
  = Done [].
Proof.
  unfold translate_string. intros Hm Hb. rewrite Hm.
  destruct (nonempty (dict_get_default string_key "" (tr_strings T)));
    simpl; [now rewrite Hb | reflexivity].
Qed.

(** A key whose call fails or comes back empty: no translations. *)
Lemma translate_string_dispatch_fails string_key m prompt :
  configured openai = true ->
  dict_get string_key (tr_metadata T) = Some m ->
  build_multilang_prompt string_key
    (dict_get_default string_key "" (tr_strings T)) m = Some prompt ->
  dispatch_fails (chat openai string_key prompt) = true ->
  fst (translate_string build_multilang_prompt openai T string_key false)
  = Done [].
Proof.
  unfold configured, translate_string, translate_with_openai_structured.
  intros Hc Hm Hb Hf. apply andb_true_iff in Hc. destruct Hc as [H1 H2].
  rewrite Hm, H1, H2.
  destruct (nonempty (dict_get_default string_key "" (tr_strings T)));
    simpl; [|reflexivity].
  rewrite Hb.
  destruct (chat openai string_key prompt) as [[|? ?]| |]; try discriminate;
    try reflexivity.
  simpl. destruct (filter _ (target_languages T)); reflexivity.
Qed.

(** With the provider configured, or in a dry run, [translate_string]
    returns. *)
Lemma translate_string_returns string_key dry_run :
  orb dry_run (configured openai) = true ->
  exists translations t,
    translate_string build_multilang_prompt openai T string_key dry_run
    = (Done translations, t).
Proof.
  unfold configured, translate_string, translate_with_openai_structured.
  intros H.
  destruct (dict_get string_key (tr_metadata T)) as [m|]; [|simpl; eauto].
  destruct (nonempty (dict_get_default string_key "" (tr_strings T)));
    [|simpl; eauto].
  destruct (build_multilang_prompt _ _ m) as [prompt|]; [|simpl; eauto].
  destruct dry_run; [simpl; eauto|]. simpl in H.
  apply andb_true_iff in H. destruct H as [-> ->]. simpl.
  destruct (chat openai string_key prompt) as [[|[l v] tr]| |]; simpl; eauto.
  all: destruct (filter _ (target_languages T)); simpl; eauto.
Qed.

(** Only the key itself is dispatched, and never in a dry run. *)
Lemma translate_string_dispatched string_key dry_run k :
  In k (dispatched
          (snd (translate_string build_multilang_prompt openai T
                                 string_key dry_run))) ->
  k = string_key /\ dry_run = false.
Proof.
  unfold translate_string, translate_with_openai_structured.
  destruct (dict_get string_key (tr_metadata T)) as [m|]; [|simpl; tauto].
  destruct (nonempty (dict_get_default string_key "" (tr_strings T)));
    [|simpl; tauto].
  destruct (build_multilang_prompt _ _ m) as [prompt|]; [|simpl; tauto].
  destruct dry_run; [simpl; tauto|].
  destruct (openai_installed openai); [|simpl; tauto].
  destruct (api_key_set openai); [|simpl; tauto].
  destruct (chat openai string_key prompt) as [[|[l v] tr]| |]; simpl;
    try (intros [H|[]]; now split).
  all: destruct (filter _ (target_languages T)); simpl; intros [H|[]];
    now split.
Qed.

End SessionFacts.

(* ================================================================== *)
(** ** [translate_all] *)
(* ================================================================== *)

Lemma tally_all_failed f keys : forall st,
  failed_keys (tally_all f keys st)
  = failed_keys st ++ filter (fun k => is_empty (f k)) keys.
Proof.
  unfold tally_all.
  induction keys as [|k keys IH]; intros st; simpl.
  - now rewrite app_nil_r.
  - rewrite IH. unfold tally_one. destruct (f k); simpl.
    + now rewrite <- app_assoc.
    + reflexivity.
Qed.

Lemma tally_all_skipped f keys : forall st,
  skipped_keys (tally_all f keys st) = skipped_keys st.
Proof.
  unfold tally_all.
  induction keys as [|k keys IH]; intros st; simpl; [reflexivity|].
  rewrite IH. unfold tally_one. now destruct (f k).
Qed.

Lemma tally_all_in f keys K : forall st,
  dict_in K (all_translations (tally_all f keys st)) = true <->
  dict_in K (all_translations st) = true \/
  (In K keys /\ is_empty (f K) = false).
Proof.
  unfold tally_all.
  induction keys as [|k keys IH]; intros st; simpl.
  - tauto.
  - rewrite IH. unfold tally_one. destruct (f k) as [|kv tr] eqn:Ef; simpl.
    + split; [tauto|]. intros [H|[[H|H] H']]; auto.
      subst. rewrite Ef in H'. discriminate.
    + unfold dict_in at 1. rewrite dict_get_set. eqb_keep K k.
      * subst. rewrite Ef. simpl. tauto.
      * fold (dict_in K (all_translations st)). intuition congruence.
Qed.

Lemma dispatched_map_log (f : string -> Event) l :
  (forall k, exists lv m, f k = Log lv m) -> dispatched (map f l) = [].
Proof.
  intros H. apply dispatched_logs. intros e He. apply in_map_iff in He.
  destruct He as (k & <- & _). apply H.
Qed.

(** The closing report: always made, with the counts. *)
Lemma report_done T st :
  exists t,
    report T st = (Done tt, t) /\
    In (Log INFO (CompletedAll (List.length (all_translations st))
                               (List.length (target_languages T))
                               (total_translations (all_translations st)))) t /\
    (failed_keys st <> [] ->
     In (Log WARNING (FailedToTranslate (List.length (failed_keys st)))) t) /\
    dispatched t = [].
Proof.
  unfold report, and_then, log, emit, done.
  destruct (skipped_keys st) as [|s sk]; destruct (failed_keys st) as [|f fk] eqn:Ef;
    cbn [app fst snd];
    try (eexists; split; [reflexivity|]; split; [now left|];
         split; [congruence | reflexivity]).
  all: destruct (Nat.ltb 10 (List.length (f :: fk)));
    (eexists; split; [reflexivity|]; split; [now left|]; split;
     [intros _; simpl; tauto|]);
    simpl; rewrite ?dispatched_app;
    rewrite (dispatched_map_log (fun k => Log WARNING (FailedKey k)));
    eauto.
Qed.

Lemma keys_to_translate_done T files dry_run force :
  exists t,
    keys_to_translate T files dry_run force
    = (Done (selected_keys T files dry_run force,
             if andb (negb force) (negb dry_run)
             then complete_strings_of T files else []), t) /\
    dispatched t = [].
Proof.
  unfold keys_to_translate, selected_keys, complete_strings_of,
    load_existing_translations.
  assert (Hw : forall languages tbs,
    dispatched (snd (scan_locales files languages tbs)) = []).
  { induction languages as [|l ls IH]; intros tbs; simpl; [reflexivity|].
    destruct (dict_get (android_locale_of l) files) as [[|elems]|]; auto.
    specialize (IH tbs). destruct (scan_locales files ls tbs). simpl. exact IH. }
  specialize (Hw (target_languages T) []).
  destruct (scan_locales files (target_languages T) []) as [tbs warnings].
  cbn [fst snd] in *.
  destruct force, dry_run; cbn [andb negb and_then done log emit fst snd app];
    try (eexists; split; [reflexivity|]; reflexivity).
  set (complete := filter _ (dict_keys (tr_metadata T))).
  destruct complete eqn:Ec; cbn [and_then done log emit fst snd app];
    (eexists; split; [reflexivity|]);
    repeat (rewrite ?dispatched_app, ?dispatched_cons_log, ?Hw; cbn [app]);
    reflexivity.
Qed.

Section TranslateAll.

Variable build_multilang_prompt : string -> string -> Metadata -> option string.
Variable openai : Provider.
Variable T : Translator.


Lemma translations_for_eq dry_run key translations t :
  translate_string build_multilang_prompt openai T key dry_run
  = (Done translations, t) ->
  translations_for build_multilang_prompt openai T dry_run key = translations.
Proof. unfold translations_for. now intros ->. Qed.

(** When no call can leave through [sys.exit], the loop goes through
    every key. *)
Lemma translate_keys_done dry_run :
  orb dry_run (configured openai) = true ->
  forall keys i n st,
  exists t,
    translate_keys build_multilang_prompt openai T dry_run keys i n st
    = (Done (tally_all (translations_for build_multilang_prompt openai T dry_run)
                       keys st), t) /\
    (forall k, In k keys -> exists j, In (Log INFO (Processing j n k)) t) /\
    (forall k e, In k keys ->
       In e (snd (translate_string build_multilang_prompt openai T k dry_run)) ->
       In e t).
Proof.
  intros Hno. induction keys as [|key keys IH]; intros i n st.
  - exists []. simpl. repeat split; tauto.
  - destruct (translate_string_returns build_multilang_prompt openai T key
                dry_run Hno) as (tr & tk & Ek).
    destruct (IH (S i) n (tally_one key tr st)) as (t & Et & Hp & He).
    exists ([Log INFO (Processing i n key)] ++ tk ++ t). split; [|split].
    + cbn [translate_keys]. eapply and_then_done; [reflexivity|].
      eapply and_then_done; [exact Ek|].
      rewrite Et. unfold tally_all. cbn [fold_left].
      now rewrite (translations_for_eq _ _ _ _ Ek).
    + intros k [<-|Hk].
      * exists i. now left.
      * destruct (Hp k Hk) as (j & Hj). exists j. right. simpl.
        apply in_or_app. now right.
    + intros k e [<-|Hk] Hin.
      * rewrite Ek in Hin. right. simpl. apply in_or_app. now left.
      * right. simpl. apply in_or_app. right. now apply (He k).
Qed.

(** [translate_all] over the documented keys, when no call can leave
    through [sys.exit]. *)
Lemma translate_all_done files dry_run force :
  orb dry_run (configured openai) = true ->
  exists t,
    translate_all build_multilang_prompt openai T files None dry_run force
    = (Done (mkTally
               (all_translations
                  (tally_all (translations_for build_multilang_prompt openai T
                                               dry_run)
                             (selected_keys T files dry_run force)
                             (mkTally [] [] [])))
               (failed_keys
                  (tally_all (translations_for build_multilang_prompt openai T
                                               dry_run)
                             (selected_keys T files dry_run force)
                             (mkTally [] [] [])))
               (if andb (negb force) (negb dry_run)
                then complete_strings_of T files else [])), t) /\
    (forall k, In k (selected_keys T files dry_run force) ->
       exists j, In (Log INFO
                       (Processing j
                          (List.length (selected_keys T files dry_run force)) k))
                    t) /\
    (forall k e, In k (selected_keys T files dry_run force) ->
       In e (snd (translate_string build_multilang_prompt openai T k dry_run)) ->
       In e t) /\
    (forall st, fst (translate_all build_multilang_prompt openai T files None
                                   dry_run force) = Done st ->
       In (Log INFO (CompletedAll (List.length (all_translations st))
                                  (List.length (target_languages T))
                                  (total_translations (all_translations st)))) t /\
       (failed_keys st <> [] ->
        In (Log WARNING (FailedToTranslate (List.length (failed_keys st)))) t)).
Proof.
  intros Hno.
  destruct (keys_to_translate_done T files dry_run force) as (t0 & E0 & _).
  destruct (translate_keys_done dry_run Hno
              (selected_keys T files dry_run force) 1
              (List.length (selected_keys T files dry_run force))
              (mkTally [] [] [])) as (t1 & E1 & Hp & He).
  set (st1 := tally_all _ _ _) in *.
  set (st := mkTally (all_translations st1) (failed_keys st1)
               (if andb (negb force) (negb dry_run)
                then complete_strings_of T files else [])).
  destruct (report_done T st) as (t2 & E2 & Hc & Hf & _).
  assert (E : translate_all build_multilang_prompt openai T files None
                            dry_run force
              = (Done st, ((t0 ++ t1 ++ []) ++ t2 ++ []))).
  { unfold translate_all. cbn [given].
    eapply and_then_done.
    - eapply and_then_done; [exact E0|]. cbn [fst snd].
      eapply and_then_done; [exact E1|]. reflexivity.
    - eapply and_then_done; [exact E2|]. reflexivity. }
  exists ((t0 ++ t1 ++ []) ++ t2 ++ []). split; [exact E|].
  rewrite !app_nil_r. split; [|split].
  - intros k Hk. destruct (Hp k Hk) as (j & Hj). exists j.
    apply in_or_app. left. apply in_or_app. now right.
  - intros k e Hk Hin. apply in_or_app. left. apply in_or_app. right.
    now apply (He k).
  - intros st' Hst'. rewrite E in Hst'. injection Hst' as <-.
    split; [apply in_or_app; now right|].
    intros H. apply in_or_app. right. now apply Hf.
Qed.

End TranslateAll.

Lemma selected_keys_documented T files dry_run force k :
  In k (selected_keys T files dry_run force) -> documented T k = true.
Proof.
  unfold selected_keys, documented. rewrite dict_in_iff.
  destruct force; [tauto|]. intros H. apply filter_In in H. tauto.
Qed.

(** C9: lenient per-key failures.  [translate_string] answers a
    documented key whose source text is empty or absent with a warning
    and no translations, without raising.  When no call can leave
    through [sys.exit] (the provider is configured, or the run is dry),
    [translate_all] returns after going through every selected key:
    each has its [Processing] record; a key without source text has its
    warning, no translations and a place in the failure list; so has a
    key whose prompt cannot be built or whose call fails or comes back
    empty; every selected key ends in the failure list or among the
    translations; and the log closes with the count of translated
    strings and, when there are failures, their count. *)
Theorem lenient_per_key_failures
    (build_multilang_prompt : string -> string -> Metadata -> option string)
    (openai : Provider) (T : Translator) (files : LocaleFiles)
    (dry_run force : bool) :
  (forall K,
     documented T K = true ->
     dict_get_default K "" (tr_strings T) = "" ->
     translate_string build_multilang_prompt openai T K dry_run
     = (Done [], [Log WARNING (NoSourceTextSkipping K)])) /\
  (orb dry_run (configured openai) = true ->
   exists st t,
     translate_all build_multilang_prompt openai T files None dry_run force
     = (Done st, t) /\
     (forall K, In K (selected_keys T files dry_run force) ->
        exists i,
          In (Log INFO
                (Processing i
                   (List.length (selected_keys T files dry_run force)) K)) t) /\
     (forall K, In K (selected_keys T files dry_run force) ->
        dict_get_default K "" (tr_strings T) = "" ->
        In (Log WARNING (NoSourceTextSkipping K)) t /\
        In K (failed_keys st) /\ dict_in K (all_translations st) = false) /\
     (forall K m, In K (selected_keys T files dry_run force) ->
        dict_get K (tr_metadata T) = Some m ->
        build_multilang_prompt K (dict_get_default K "" (tr_strings T)) m
        = None ->
        In K (failed_keys st) /\ dict_in K (all_translations st) = false) /\
     (forall K m prompt, In K (selected_keys T files dry_run force) ->
        dry_run = false ->
        dict_get K (tr_metadata T) = Some m ->
        build_multilang_prompt K (dict_get_default K "" (tr_strings T)) m
        = Some prompt ->
        dispatch_fails (chat openai K prompt) = true ->
        In K (failed_keys st) /\ dict_in K (all_translations st) = false) /\
     (forall K, In K (selected_keys T files dry_run force) ->
        In K (failed_keys st) \/ dict_in K (all_translations st) = true) /\
     In (Log INFO (CompletedAll (List.length (all_translations st))
                                (List.length (target_languages T))
                                (total_translations (all_translations st)))) t /\
     (failed_keys st <> [] ->
      In (Log WARNING (FailedToTranslate (List.length (failed_keys st)))) t)).
Proof.
  split.
  { intros K. apply translate_string_no_source. }
  intros Hno.
  destruct (translate_all_done build_multilang_prompt openai T files dry_run
              force Hno) as (t & E & Hp & He & Hrep).
  set (f := translations_for build_multilang_prompt openai T dry_run) in *.
  set (keys := selected_keys T files dry_run force) in *.
  set (st1 := tally_all f keys (mkTally [] [] [])) in *.
  assert (Hfail : forall K, In K keys -> f K = [] ->
            In K (failed_keys st1) /\ dict_in K (all_translations st1) = false).
  { intros K HK HfK. split.
    - unfold st1. rewrite tally_all_failed. simpl. apply filter_In.
      split; [exact HK | now rewrite HfK].
    - destruct (dict_in K (all_translations st1)) eqn:Ein; [|reflexivity].
      apply tally_all_in in Ein. rewrite HfK in Ein.
      destruct Ein as [Ein|[_ Ein]]; discriminate. }
  assert (Hfrom : forall K, fst (translate_string build_multilang_prompt openai
                                                  T K dry_run) = Done [] ->
                            f K = []).
  { intros K HK. unfold f, translations_for. now rewrite HK. }
  eexists. exists t. split; [exact E|]. cbn [failed_keys all_translations].
  split; [exact Hp|]. split; [|split; [|split; [|split]]].
  - intros K HK Hsrc.
    assert (Hdoc : documented T K = true)
      by (eapply selected_keys_documented; exact HK).
    pose proof (translate_string_no_source build_multilang_prompt openai T K
                  dry_run Hdoc Hsrc) as Ets.
    split.
    + apply (He K); [exact HK|]. rewrite Ets. now left.
    + apply Hfail; [exact HK|]. apply Hfrom. now rewrite Ets.
  - intros K m HK Hm Hb. apply Hfail; [exact HK|]. apply Hfrom.
    eapply translate_string_prompt_fails; eassumption.
  - intros K m prompt HK Hdry Hm Hb Hd. apply Hfail; [exact HK|]. apply Hfrom.
    assert (Hc : configured openai = true).
    { destruct dry_run; [discriminate | exact Hno]. }
    rewrite Hdry.
    eapply translate_string_dispatch_fails; eauto.
  - intros K HK. destruct (f K) as [|kv tr] eqn:EfK.
    + left. now apply Hfail.
    + right. apply tally_all_in. right. split; [exact HK|]. now rewrite EfK.
  - apply (Hrep _ (f_equal fst E)).
Qed.

Lemma lenient_per_key_failures_witness :
  orb false (configured example_provider) = true /\
  exists st t,
    translate_all example_prompt example_provider example_translator []
                  None false false = (Done st, t) /\
    failed_keys st = ["bye"] /\
    dict_in "hello" (all_translations st) = true /\
    In (Log WARNING (FailedToTranslate 1)) t.
Proof.
  split; [reflexivity|].
  destruct (proj2 (lenient_per_key_failures example_prompt example_provider
                     example_translator [] false false) eq_refl)
    as (st & t & E & _ & _ & _ & _ & _ & _ & Hf).
  exists st, t. split; [exact E|].
  vm_compute in E. injection E as <- <-.
  split; [reflexivity|]. split; [reflexivity|].
  simpl. tauto.
Defined.

(* ================================================================== *)
(** ** The resume scan *)
(* ================================================================== *)






Lemma read_elems_snoc elems e :
  read_elems (elems ++ [e]) =
  if nonempty (elem_name e)
  then dict_set (elem_name e) (elem_text e) (read_elems elems)
  else read_elems elems.
Proof. unfold read_elems. now rewrite fold_left_app. Qed.



(* ================================================================== *)
(** ** What a session dispatches *)
(* ================================================================== *)


Lemma save_locale_logs metadata st lt :
  dispatched (save_log (save_locale metadata st lt)) = dispatched (save_log st).
Proof.
  unfold save_locale. destruct lt as [android_locale translations].
  destruct (build_xml metadata _) as [elems|e];
    [destruct (write_xml elems)|]; cbn [save_log];
    rewrite !dispatched_app;
    destruct (dict_get android_locale (locale_files st)) as [[|]|];
    simpl; now rewrite app_nil_r.
Qed.

Lemma save_translations_logs T files all :
  dispatched (snd (save_translations T files all)) = [].
Proof.
  unfold save_translations. destruct all as [|kt all]; [reflexivity|].
  cbn [snd]. rewrite dispatched_app.
  assert (H : forall bl st,
    dispatched (save_log (fold_left (save_locale (tr_metadata T)) bl st))
    = dispatched (save_log st)).
  { induction bl as [|lt bl IH]; intros st; [reflexivity|].
    cbn [fold_left]. now rewrite IH, save_locale_logs. }
  rewrite H. simpl.
  now destruct (failed_locales _).
Qed.



(* ================================================================== *)
(** ** [save_translations] *)
(* ================================================================== *)

(** Escaping twice is not escaping once. *)
Lemma escape_android_string_not_idempotent :
  escape_android_string "it's" = String "i" (String "t" (String backslash "'s"))
  /\ escape_android_string (escape_android_string "it's")
     <> escape_android_string "it's".
Proof. split; [reflexivity | discriminate]. Qed.


(** The regrouping by locale keeps mappings: distinct locales, and
    distinct keys under each. *)
Lemma add_translation_wf k (bl : dict (dict string)) lt :
  (NoDup (dict_keys bl) /\
   forall L d, dict_get L bl = Some d -> NoDup (dict_keys d)) ->
  NoDup (dict_keys (add_translation k bl lt)) /\
  forall L d, dict_get L (add_translation k bl lt) = Some d ->
              NoDup (dict_keys d).
Proof.
  intros [H1 H2]. unfold add_translation. split; [now apply dict_set_NoDup|].
  intros L d. rewrite dict_get_set.
  eqb_keep L (android_locale_of (fst lt)); [|apply H2].
  intros [= <-]. apply dict_set_NoDup. unfold dict_get_default.
  destruct (dict_get (android_locale_of (fst lt)) bl) eqn:Eg;
    [now apply (H2 (android_locale_of (fst lt))) | constructor].
Qed.

Lemma group_by_locale_wf all :
  NoDup (dict_keys (group_by_locale all)) /\
  forall L d, dict_get L (group_by_locale all) = Some d -> NoDup (dict_keys d).
Proof.
  unfold group_by_locale.
  assert (Hinner : forall k tr (bl : dict (dict string)),
    (NoDup (dict_keys bl) /\
     forall L d, dict_get L bl = Some d -> NoDup (dict_keys d)) ->
    NoDup (dict_keys (fold_left (add_translation k) tr bl)) /\
    forall L d, dict_get L (fold_left (add_translation k) tr bl) = Some d ->
                NoDup (dict_keys d)).
  { intros k tr. induction tr as [|lt tr IH]; intros bl H; [exact H|].
    cbn [fold_left]. apply IH. now apply add_translation_wf. }
  assert (Houter : forall (bl : dict (dict string)),
    (NoDup (dict_keys bl) /\
     forall L d, dict_get L bl = Some d -> NoDup (dict_keys d)) ->
    NoDup (dict_keys (fold_left add_translations all bl)) /\
    forall L d, dict_get L (fold_left add_translations all bl) = Some d ->
                NoDup (dict_keys d)).
  { induction all as [|kt all IH]; intros bl H; [exact H|].
    cbn [fold_left]. apply IH. now apply Hinner. }
  apply Houter. split; [constructor | discriminate].
Qed.

Lemma metadata_typed_ok metadata key m :
  metadata_typed metadata = true ->
  dict_get key metadata = Some m ->
  is_ok (technical_format_specifiers m) = true.
Proof.
  unfold metadata_typed. rewrite forallb_forall. intros H Hm.
  apply (H (key, m)). now apply dict_get_In.
Qed.

Lemma build_elem_ok metadata existing key :
  metadata_typed metadata = true ->
  build_elem metadata key (dict_get_default key "" existing)
  = Ok (built_elem metadata existing key).
Proof.
  intros Ht. unfold build_elem, built_elem, metadata_flags.
  destruct (dict_get key metadata) as [m|] eqn:Em.
  - pose proof (metadata_typed_ok _ _ _ Ht Em) as Hok.
    destruct (technical_format_specifiers m) as [flagged|]; [|discriminate].
    destruct flagged; simpl; [|reflexivity].
    now destruct (orb _ _).
  - reflexivity.
Qed.

Lemma build_elems_ok metadata existing keys :
  metadata_typed metadata = true ->
  build_elems metadata existing keys
  = Ok (map (built_elem metadata existing) keys).
Proof.
  intros Ht. induction keys as [|key keys IH]; [reflexivity|].
  cbn [build_elems map]. now rewrite build_elem_ok, IH.
Qed.

(** Reading back a list of elements with distinct names. *)
Lemma read_elems_fold k elems : forall acc,
  NoDup (map elem_name elems) ->
  dict_get k
    (fold_left (fun (existing : dict string) e =>
                  if nonempty (elem_name e)
                  then dict_set (elem_name e) (elem_text e) existing
                  else existing) elems acc)
  = match find (fun e => String.eqb (elem_name e) k) elems with
    | Some e => if nonempty k then Some (elem_text e) else dict_get k acc
    | None => dict_get k acc
    end.
Proof.
  induction elems as [|e elems IH]; intros acc Hnd; [reflexivity|].
  inversion Hnd as [|? ? Hnotin Hnd']; subst.
  cbn [fold_left find]. rewrite IH by exact Hnd'.
  eqb_keep (elem_name e) k.
  - subst k.
    assert (Hf : find (fun e0 => String.eqb (elem_name e0) (elem_name e)) elems
                 = None).
    { destruct (find _ elems) as [e'|] eqn:Ef; [|reflexivity].
      apply find_some in Ef. destruct Ef as [Hin He']. exfalso.
      apply String.eqb_eq in He'. apply Hnotin. rewrite <- He'.
      now apply in_map. }
    rewrite Hf. destruct (nonempty (elem_name e)); [|reflexivity].
    apply dict_get_set_eq.
  - assert (Hacc : dict_get k (if nonempty (elem_name e)
                               then dict_set (elem_name e) (elem_text e) acc
                               else acc) = dict_get k acc).
    { destruct (nonempty (elem_name e)); [|reflexivity].
      apply dict_get_set_ne. congruence. }
    now rewrite Hacc.
Qed.

Lemma load_existing_NoDup f : NoDup (dict_keys (load_existing f)).
Proof.
  destruct f as [[|elems]|]; try constructor.
  unfold load_existing, read_elems.
  assert (H : forall acc : dict string, NoDup (dict_keys acc) ->
    NoDup (dict_keys (fold_left
      (fun (existing : dict string) e =>
         if nonempty (elem_name e)
         then dict_set (elem_name e) (elem_text e) existing
         else existing) elems acc))).
  { induction elems as [|e elems IH]; intros acc Hacc; [exact Hacc|].
    cbn [fold_left]. apply IH.
    destruct (nonempty (elem_name e)); [now apply dict_set_NoDup | exact Hacc]. }
  apply H. constructor.
Qed.

(** *** The text of a locale file *)


Lemma printable_single_line s : printable s = true -> single_line s = true.
Proof.
  induction s as [|c r IH]; [reflexivity|]. cbn [printable single_line].
  intros H. apply andb_true_iff in H. destruct H as [Hc Hr].
  rewrite IH by exact Hr.
  destruct (Ascii.eqb c LF) eqn:E1;
    [apply Ascii.eqb_eq in E1; subst c; discriminate|].
  destruct (Ascii.eqb c CR) eqn:E2;
    [apply Ascii.eqb_eq in E2; subst c; discriminate|].
  reflexivity.
Qed.

Lemma single_line_head c r :
  single_line (String c r) = true ->
  Ascii.eqb c LF = false /\ Ascii.eqb c CR = false /\ single_line r = true.
Proof.
  cbn [single_line]. intros H.
  apply andb_true_iff in H. destruct H as [H Hr].
  apply andb_true_iff in H. destruct H as [H1 H2].
  apply negb_true_iff in H1, H2. now repeat split.
Qed.

Lemma split_lines_single_line s :
  single_line s = true -> split_lines s = [s].
Proof.
  induction s as [|c r IH]; [reflexivity|]. intros H.
  apply single_line_head in H. destruct H as (H1 & _ & Hr).
  cbn [split_lines]. now rewrite H1, IH.
Qed.

Lemma normalize_single_line s :
  single_line s = true -> normalize_newlines s = s.
Proof.
  induction s as [|c r IH]; [reflexivity|]. intros H.
  apply single_line_head in H. destruct H as (_ & H2 & Hr).
  cbn [normalize_newlines]. now rewrite H2, IH.
Qed.

(** A text on one line is stored as it is. *)
Lemma stored_text_single_line t : single_line t = true -> stored_text t = t.
Proof.
  intros H. unfold stored_text, drop_blank_lines.
  now rewrite normalize_single_line, split_lines_single_line.
Qed.

Lemma attribute_spaces_printable s :
  printable s = true -> attribute_spaces s = s.
Proof.
  induction s as [|c r IH]; [reflexivity|]. cbn [printable attribute_spaces].
  intros H. apply andb_true_iff in H. destruct H as [Hc Hr].
  rewrite IH by exact Hr.
  destruct (Ascii.eqb c TAB) eqn:E0;
    [apply Ascii.eqb_eq in E0; subst c; discriminate|].
  destruct (Ascii.eqb c LF) eqn:E1;
    [apply Ascii.eqb_eq in E1; subst c; discriminate|].
  destruct (Ascii.eqb c CR) eqn:E2;
    [apply Ascii.eqb_eq in E2; subst c; discriminate|].
  reflexivity.
Qed.

(** A name of printable characters is stored as it is. *)
Lemma stored_name_printable s : printable s = true -> stored_name s = s.
Proof.
  intros H. pose proof (printable_single_line s H) as Hs.
  unfold stored_name, drop_blank_lines.
  now rewrite split_lines_single_line, normalize_single_line,
    attribute_spaces_printable.
Qed.

Lemma split_lines_cons s : exists first others, split_lines s = first :: others.
Proof.
  induction s as [|c r (first & others & IH)]; cbn [split_lines].
  - now exists EmptyString, [].
  - destruct (Ascii.eqb c LF); [now exists EmptyString, (split_lines r)|].
    rewrite IH. now exists (String c first), others.
Qed.

Lemma join_lines_cons first lines :
  lines <> [] ->
  join_lines (first :: lines)
  = String.append first (String LF (join_lines lines)).
Proof. destruct lines; [congruence | reflexivity]. Qed.

Lemma join_split_lines s : join_lines (split_lines s) = s.
Proof.
  induction s as [|c r IH]; [reflexivity|]. cbn [split_lines].
  destruct (split_lines_cons r) as (first & others & E).
  destruct (Ascii.eqb c LF) eqn:Ec.
  - apply Ascii.eqb_eq in Ec. subst c. rewrite join_lines_cons, IH.
    + reflexivity.
    + rewrite E. discriminate.
  - rewrite E in *. destruct others as [|l ls].
    + cbn in *. now rewrite IH.
    + rewrite join_lines_cons in * by discriminate. cbn [String.append].
      now rewrite IH.
Qed.

Lemma nonempty_append a b :
  nonempty (String.append a (String LF b)) = true.
Proof. now destruct a. Qed.

Lemma normalize_nonempty s : nonempty (normalize_newlines s) = nonempty s.
Proof.
  destruct s as [|c r]; [reflexivity|]. cbn [normalize_newlines].
  now destruct (Ascii.eqb c CR).
Qed.

Lemma drop_blank_lines_nonempty s :
  nonempty (drop_blank_lines s) = nonempty s.
Proof.
  unfold drop_blank_lines.
  destruct (split_lines s) as [|first [|l ls]] eqn:E; try reflexivity.
  rewrite join_lines_cons, nonempty_append.
  - destruct s as [|c r]; [discriminate | reflexivity].
  - now destruct (filter _ _).
Qed.

(** A text is stored empty only when it is empty. *)
Lemma stored_text_nonempty t : nonempty (stored_text t) = nonempty t.
Proof.
  unfold stored_text. now rewrite drop_blank_lines_nonempty, normalize_nonempty.
Qed.

(** *** One turn of the loop over the locales *)

Lemma save_locale_files metadata st L0 tr0 :
  locale_files (save_locale metadata st (L0, tr0))
  = match written_file metadata (dict_get L0 (locale_files st)) tr0 with
    | Some file => dict_set L0 file (locale_files st)
    | None => locale_files st
    end.
Proof.
  unfold save_locale, written_file.
  destruct (build_xml metadata _) as [elems|e]; [|reflexivity].
  now destruct (write_xml elems).
Qed.

(** The files after the loop over the locales. *)
Lemma save_locales_files metadata bl : forall st,
  NoDup (dict_keys bl) ->
  forall L,
    dict_get L (locale_files (fold_left (save_locale metadata) bl st))
    = match dict_get L bl with
      | Some translations =>
          match written_file metadata (dict_get L (locale_files st))
                             translations with
          | Some file => Some file
          | None => dict_get L (locale_files st)
          end
      | None => dict_get L (locale_files st)
      end.
Proof.
  induction bl as [|[L0 tr0] bl IH]; intros st Hnd L; [reflexivity|].
  inversion Hnd as [|? ? Hnotin Hnd']; subst.
  cbn [fold_left]. rewrite IH by assumption. cbn [dict_get].
  rewrite (save_locale_files metadata st L0 tr0).
  eqb_keep L L0.
  - subst L. apply dict_get_None_iff in Hnotin. rewrite Hnotin.
    destruct (written_file metadata (dict_get L0 (locale_files st)) tr0);
      [apply dict_get_set_eq | reflexivity].
  - destruct (written_file metadata (dict_get L0 (locale_files st)) tr0);
      [|reflexivity].
    rewrite dict_get_set_ne by exact E. reflexivity.
Qed.

Lemma save_translations_files T files all L :
  dict_get L (fst (save_translations T files all))
  = match dict_get L (group_by_locale all) with
    | Some translations =>
        match written_file (tr_metadata T) (dict_get L files) translations with
        | Some file => Some file
        | None => dict_get L files
        end
    | None => dict_get L files
    end.
Proof.
  unfold save_translations. destruct all as [|kt all]; [reflexivity|].
  cbn [fst]. rewrite save_locales_files; [reflexivity|].
  apply group_by_locale_wf.
Qed.

(** The mapping of a turn is the merged mapping of the locale. *)
Lemma merged_of_group files all L translations :
  dict_get L (group_by_locale all) = Some translations ->
  dict_update (load_existing (dict_get L files)) (escape_all translations)
  = merged files all L.
Proof.
  intros Hg. unfold merged, persisted, new_values, dict_get_default.
  now rewrite Hg.
Qed.

Lemma merged_NoDup files all L : NoDup (dict_keys (merged files all L)).
Proof. apply dict_update_NoDup, load_existing_NoDup. Qed.

(** *** When the write goes through, and when it does not *)

Lemma writable_In existing k :
  NoDup (dict_keys existing) ->
  writable existing = true ->
  In k (dict_keys existing) ->
  xml_chars k = true /\ xml_chars (dict_get_default k "" existing) = true.
Proof.
  intros Hnd Hw Hk. unfold writable in Hw. rewrite forallb_forall in Hw.
  apply dict_in_iff in Hk. unfold dict_in in Hk. unfold dict_get_default.
  destruct (dict_get k existing) as [v|] eqn:Ev; [|discriminate].
  specialize (Hw _ (dict_get_In _ _ _ Ev)). cbn [fst snd] in Hw.
  now apply andb_true_iff in Hw.
Qed.

Lemma built_elem_formatted metadata existing key :
  elem_formatted (built_elem metadata existing key) = None \/
  elem_formatted (built_elem metadata existing key) = Some "false".
Proof. unfold built_elem. cbn [elem_formatted]. destruct (orb _ _); auto. Qed.

Lemma write_xml_built metadata existing keys :
  (forall k, In k keys ->
     xml_chars k = true /\ xml_chars (dict_get_default k "" existing) = true) ->
  write_xml (map (built_elem metadata existing) keys)
  = Some (Resources (map (stored_built metadata existing) keys) "").
Proof.
  intros H. unfold write_xml.
  assert (Hall : forallb
            (fun e =>
               xml_chars (elem_name e) && xml_chars (elem_text e)
               && match elem_formatted e with
                  | Some v => xml_chars v
                  | None => true
                  end)
            (map (built_elem metadata existing) keys) = true).
  { apply forallb_forall. intros e He. apply in_map_iff in He.
    destruct He as (k & <- & Hk). destruct (H k Hk) as [H1 H2].
    destruct (built_elem_formatted metadata existing k) as [Ef|Ef];
      rewrite Ef; cbn [built_elem elem_name elem_text];
      now rewrite H1, H2. }
  rewrite Hall. now rewrite map_map.
Qed.

Lemma write_xml_fails metadata existing keys k :
  In k keys ->
  andb (xml_chars k) (xml_chars (dict_get_default k "" existing)) = false ->
  write_xml (map (built_elem metadata existing) keys) = None.
Proof.
  intros Hk Hbad. unfold write_xml.
  destruct (forallb _ _) eqn:E; [|reflexivity]. exfalso.
  rewrite forallb_forall in E.
  specialize (E _ (in_map (built_elem metadata existing) _ _ Hk)).
  cbn [built_elem elem_name elem_text] in E.
  apply andb_true_iff in E. destruct E as [E _]. congruence.
Qed.

(** With metadata typed as the data model has it, the turn writes the
    file exactly when the names and the texts of the merged mapping
    hold only characters XML allows. *)
Lemma written_file_writable metadata old translations :
  metadata_typed metadata = true ->
  let existing := dict_update (load_existing old) (escape_all translations) in
  writable existing = true ->
  written_file metadata old translations
  = Some (Resources (map (stored_built metadata existing)
                         (sorted (dict_keys existing))) "").
Proof.
  intros Ht existing Hw. unfold written_file, build_xml. fold existing.
  rewrite build_elems_ok by exact Ht. apply write_xml_built.
  intros k Hk. apply (proj1 (sorted_In _ _)) in Hk.
  apply writable_In; auto. apply dict_update_NoDup, load_existing_NoDup.
Qed.

Lemma written_file_not_writable metadata old translations :
  writable (dict_update (load_existing old) (escape_all translations)) = false ->
  written_file metadata old translations = None.
Proof.
  intros Hw. unfold written_file, build_xml.
  set (existing := dict_update (load_existing old) (escape_all translations))
    in *.
  destruct (build_elems metadata existing (sorted (dict_keys existing)))
    as [elems|e] eqn:Eb; [|reflexivity].
  assert (Hbad : exists k v, In (k, v) existing /\
                             andb (xml_chars k) (xml_chars v) = false).
  { unfold writable in Hw. clear Eb. induction existing as [|[k v] d IH];
      [discriminate|].
    cbn [forallb fst snd] in Hw. apply andb_false_iff in Hw.
    destruct Hw as [Hw|Hw].
    - exists k, v. split; [now left | exact Hw].
    - destruct (IH Hw) as (k' & v' & Hin & Hb). exists k', v'.
      split; [now right | exact Hb]. }
  destruct Hbad as (k & v & Hin & Hb).
  assert (Hnd : NoDup (dict_keys existing))
    by apply dict_update_NoDup, load_existing_NoDup.
  assert (Hk : In k (sorted (dict_keys existing))).
  { apply sorted_In. unfold dict_keys. now apply (in_map fst) in Hin. }
  assert (Helems : elems = map (fun k => match build_elem metadata k
                                  (dict_get_default k "" existing) with
                                         | Ok e => e
                                         | Raise _ => mkElem k "" None
                                         end)
                               (sorted (dict_keys existing))
                   /\ forall k, In k (sorted (dict_keys existing)) ->
                        is_ok (build_elem metadata k
                                 (dict_get_default k "" existing)) = true).
  { revert elems Eb. generalize (sorted (dict_keys existing)).
    induction l as [|k0 l IH]; intros elems Eb; cbn [build_elems] in Eb.
    - injection Eb as <-. split; [reflexivity | intros ? []].
    - destruct (build_elem metadata k0 (dict_get_default k0 "" existing))
        as [e0|] eqn:E0; [|discriminate].
      destruct (build_elems metadata existing l) as [es|]; [|discriminate].
      injection Eb as <-. destruct (IH es eq_refl) as [-> Hok].
      split; [cbn [map]; now rewrite E0|].
      intros k' [<-|Hk']; [now rewrite E0 | now apply Hok]. }
  destruct Helems as [-> Hok].
  unfold write_xml. destruct (forallb _ _) eqn:E; [|reflexivity]. exfalso.
  rewrite forallb_forall in E.
  specialize (E _ (in_map _ _ _ Hk)). cbn beta in E. specialize (Hok k Hk).
  unfold build_elem in E, Hok.
  destruct (match dict_get k metadata with
            | Some m => technical_format_specifiers m
            | None => Ok false
            end) as [flagged|]; [|discriminate].
  cbn [elem_name elem_text] in E.
  apply andb_true_iff in E. destruct E as [E _].
  unfold dict_get_default in E.
  rewrite (In_dict_get _ _ _ Hnd Hin) in E. congruence.
Qed.

(** The names of the written file are the sorted keys of the mapping
    when these are of printable characters. *)
Lemma stored_built_name metadata existing key :
  printable key = true ->
  elem_name (stored_built metadata existing key) = key.
Proof.
  intros H. unfold stored_built, stored_elem, built_elem.
  cbn [elem_name]. now apply stored_name_printable.
Qed.

Lemma printable_names_In existing k :
  printable_names existing = true -> In k (dict_keys existing) ->
  printable k = true.
Proof.
  unfold printable_names. rewrite forallb_forall. intros H Hk.
  apply in_map_iff in Hk. destruct Hk as ([k' v] & <- & Hin).
  exact (H _ Hin).
Qed.

Lemma names_stored metadata existing keys :
  (forall k, In k keys -> printable k = true) ->
  map elem_name (map (stored_built metadata existing) keys) = keys.
Proof.
  induction keys as [|k r IH]; intros H; [reflexivity|]. cbn [map].
  rewrite stored_built_name by (apply H; now left).
  rewrite IH; [reflexivity|]. intros k' Hk'. apply H. now right.
Qed.

Lemma find_stored metadata existing keys k :
  (forall key, In key keys -> printable key = true) ->
  find (fun e => String.eqb (elem_name e) k)
       (map (stored_built metadata existing) keys)
  = if str_in k keys then Some (stored_built metadata existing k) else None.
Proof.
  induction keys as [|key keys IH]; intros H; [reflexivity|].
  cbn [map find str_in existsb]. fold (str_in k keys).
  rewrite stored_built_name by (apply H; now left).
  rewrite IH by (intros key' Hk'; apply H; now right).
  rewrite (String.eqb_sym k key).
  eqb_keep key k; [now subst | reflexivity].
Qed.

(** The written file read back: the texts of the mapping, as they are
    stored, on the keys that are names. *)
Lemma read_stored metadata existing k :
  NoDup (dict_keys existing) ->
  printable_names existing = true ->
  nonempty k = true ->
  dict_get k (read_elems
                (map (stored_built metadata existing)
                     (sorted (dict_keys existing))))
  = option_map stored_text (dict_get k existing).
Proof.
  intros Hnd Hp Hk.
  assert (Hkeys : forall key, In key (sorted (dict_keys existing)) ->
                              printable key = true).
  { intros key Hin. apply (proj1 (sorted_In _ _)) in Hin.
    now apply (printable_names_In existing). }
  unfold read_elems. rewrite read_elems_fold.
  2:{ rewrite names_stored by exact Hkeys.
      apply (Permutation_NoDup (l := dict_keys existing));
        [symmetry; apply sort_on_perm | exact Hnd]. }
  rewrite find_stored by exact Hkeys. rewrite Hk.
  destruct (str_in k (sorted (dict_keys existing))) eqn:E.
  - apply str_in_iff, sorted_In, dict_in_iff in E. unfold dict_in in E.
    unfold stored_built, stored_elem, built_elem. cbn [elem_text].
    unfold dict_get_default.
    now destruct (dict_get k existing).
  - apply str_in_false_iff in E. rewrite sorted_In in E.
    apply dict_get_None_iff in E. now rewrite E.
Qed.

(** The file of a locale after [save_translations], when the write
    goes through. *)
Lemma saved_file T files all L :
  metadata_typed (tr_metadata T) = true ->
  dict_in L (group_by_locale all) = true ->
  writable (merged files all L) = true ->
  dict_get L (fst (save_translations T files all))
  = Some (Resources
            (map (stored_built (tr_metadata T) (merged files all L))
                 (sorted (dict_keys (merged files all L)))) "").
Proof.
  intros Ht Hin Hw. rewrite save_translations_files.
  unfold dict_in in Hin.
  destruct (dict_get L (group_by_locale all)) as [tr|] eqn:Eg; [|discriminate].
  pose proof (written_file_writable (tr_metadata T) (dict_get L files) tr Ht)
    as Hwf.
  cbv zeta in Hwf. rewrite (merged_of_group files all L tr Eg) in Hwf.
  now rewrite (Hwf Hw).
Qed.

(** The file of a locale after [save_translations], when the write
    does not go through, and when there is nothing to write. *)
Lemma unsaved_file T files all L :
  dict_in L (group_by_locale all) = false \/
  writable (merged files all L) = false ->
  dict_get L (fst (save_translations T files all)) = dict_get L files.
Proof.
  intros H. rewrite save_translations_files. unfold dict_in in H.
  destruct (dict_get L (group_by_locale all)) as [tr|] eqn:Eg; [|reflexivity].
  destruct H as [H|H]; [discriminate|].
  rewrite written_file_not_writable; [reflexivity|].
  now rewrite (merged_of_group files all L tr Eg).
Qed.

(** The mapping of a locale's file after [save_translations], when the
    write goes through. *)
Lemma persisted_after_save (T : Translator) (files : LocaleFiles)
    (all : dict (dict string)) (android_locale key : string) :
  metadata_typed (tr_metadata T) = true ->
  dict_in android_locale (group_by_locale all) = true ->
  printable_names (merged files all android_locale) = true ->
  writable (merged files all android_locale) = true ->
  nonempty key = true ->
  dict_get key (persisted (fst (save_translations T files all)) android_locale)
  = match dict_get key (new_values all android_locale) with
    | Some value => Some (stored_text (escape_android_string value))
    | None => option_map stored_text
                (dict_get key (persisted files android_locale))
    end.
Proof.
  intros Ht Hin Hp Hw Hk. unfold persisted at 1.
  rewrite saved_file by assumption. cbn [load_existing].
  rewrite read_stored; [|apply merged_NoDup | exact Hp | exact Hk].
  unfold merged. rewrite dict_get_update.
  - unfold escape_all. rewrite (dict_get_map escape_android_string).
    now destruct (dict_get key (new_values all android_locale)).
  - unfold escape_all. rewrite (dict_keys_map escape_android_string).
    unfold new_values, dict_get_default.
    destruct (dict_get android_locale (group_by_locale all)) as [tr|] eqn:Eg;
      [|constructor].
    exact (proj2 (group_by_locale_wf all) _ _ Eg).
Qed.

(** C2, amended: the output merge, and what it keeps.  For a locale the
    session produced values for, [save_translations] builds the file
    from the mapping the file held, overridden key by key by the new
    values, each escaped once.  When a name or a text of that mapping
    holds a character XML forbids, the file is left as it was, and so
    is the file of a locale without new values.  Else, with metadata
    typed as the data model has it and names of printable characters,
    the file is written anew: it holds text-only entries and nothing
    else, and gives every key (a non-empty name) the escaped new value
    when the session produced one, otherwise the text the file held for
    it, each as it is stored: line ends as LF and the blank lines
    inside the text gone.  A text on one line is stored as it is. *)
Theorem save_merges_and_escapes_once (T : Translator) (files : LocaleFiles)
    (all : dict (dict string)) (android_locale : string) :
  (dict_in android_locale (group_by_locale all) = false \/
   writable (merged files all android_locale) = false ->
   dict_get android_locale (fst (save_translations T files all))
   = dict_get android_locale files) /\
  (metadata_typed (tr_metadata T) = true ->
   dict_in android_locale (group_by_locale all) = true ->
   printable_names (merged files all android_locale) = true ->
   writable (merged files all android_locale) = true ->
   (exists elems,
      dict_get android_locale (fst (save_translations T files all))
      = Some (Resources elems "") /\
      forall e, In e elems -> elem_markup e = "") /\
   forall key, nonempty key = true ->
     dict_get key
       (persisted (fst (save_translations T files all)) android_locale)
     = match dict_get key (new_values all android_locale) with
       | Some value => Some (stored_text (escape_android_string value))
       | None => option_map stored_text
                   (dict_get key (persisted files android_locale))
       end) /\
  (forall text, single_line text = true -> stored_text text = text).
Proof.
  split; [apply unsaved_file|]. split; [|apply stored_text_single_line].
  intros Ht Hin Hp Hw. split.
  - eexists. split; [now apply saved_file|].
    intros e He. apply in_map_iff in He. now destruct He as (k & <- & _).
  - intros key Hk. now apply persisted_after_save.
Qed.

Lemma save_merges_and_escapes_once_witness :
  metadata_typed (tr_metadata plain_translator) = true /\
  dict_in "fr" (group_by_locale new_translations) = true /\
  printable_names (merged old_files new_translations "fr") = true /\
  writable (merged old_files new_translations "fr") = true /\
  dict_get "X" (persisted
                  (fst (save_translations plain_translator old_files
                                          new_translations)) "fr")
  = Some "old" /\
  dict_get "Y" (persisted
                  (fst (save_translations plain_translator old_files
                                          new_translations)) "fr")
  = Some (String "i" (String "t" (String backslash "'s new"))) /\
  writable (merged old_files control_translations "fr") = false /\
  dict_get "fr" (fst (save_translations plain_translator old_files
                                        control_translations))
  = dict_get "fr" old_files.
Proof.
  split; [reflexivity|]. split; [reflexivity|]. split; [reflexivity|].
  split; [reflexivity|].
  destruct (save_merges_and_escapes_once plain_translator old_files
              new_translations "fr") as (_ & H & _).
  destruct (H eq_refl eq_refl eq_refl eq_refl) as [_ Hget].
  split; [exact (Hget "X" eq_refl)|]. split; [exact (Hget "Y" eq_refl)|].
  split; [reflexivity|].
  destruct (save_merges_and_escapes_once plain_translator old_files
              control_translations "fr") as (Hkeep & _).
  apply Hkeep. now right.
Defined.

(** C2 as stated fails.  An old entry whose text has an empty line
    inside does not keep its value when the file is written anew, and
    loses its [<b>] child, as the file loses its [<plurals>]; a new
    value with a control character is not stored at all, nor is any
    other value of the session for that locale. *)
Lemma save_changes_old_values :
  dict_get "X" (persisted verse_files "fr")
  = Some (String "a" (String LF (String LF "b"))) /\
  dict_get "X" (new_values verse_translations "fr") = None /\
  dict_get "X" (persisted (fst (save_translations plain_translator verse_files
                                                  verse_translations)) "fr")
  = Some (String "a" (String LF "b")) /\
  dict_get "fr" (fst (save_translations plain_translator verse_files
                                        verse_translations))
  = Some (Resources [mkElem "X" (String "a" (String LF "b")) None;
                     mkElem "Y" "new" None] "") /\
  dict_get "Y" (new_values control_translations "fr")
  = Some (String "a" (String "011" "b")) /\
  dict_get "Y" (persisted (fst (save_translations plain_translator old_files
                                                  control_translations)) "fr")
  = None.
Proof. repeat split; reflexivity. Qed.

(* ================================================================== *)
(** ** A run and the run after it *)
(* ================================================================== *)









Lemma In_dict_set {V} k (v : V) d k' v' :
  In (k', v') (dict_set k v d) -> (k' = k /\ v' = v) \/ In (k', v') d.
Proof.
  induction d as [|[k0 v0] d IH]; simpl.
  - intros [[= <- <-]|[]]. now left.
  - destruct (String.eqb k k0) eqn:E; simpl.
    + intros [[= <- <-]|H]; [eqb_hyps; subst; now left | now right; right].
    + intros [H|H]; [now right; left|].
      destruct (IH H) as [H'|H']; [now left | now right; right].
Qed.



(** What the resume scan records comes from an element of the locale's
    file with a name and a text. *)
Lemma record_elems_from api_locale elems K l : forall tbs,
  has_locale (record_elems api_locale elems tbs) K l = true ->
  has_locale tbs K l = true \/
  (l = api_locale /\
   exists e, In e elems /\ elem_name e = K /\ nonempty (elem_text e) = true).
Proof.
  unfold record_elems.
  induction elems as [|e elems IH]; intros tbs H; [now left|].
  cbn [fold_left] in H. destruct (IH _ H) as [H'|(-> & e' & Hin & He')].
  - destruct (andb (nonempty (elem_name e)) (nonempty (elem_text e))) eqn:Eb;
      [|now left].
    apply andb_true_iff in Eb. destruct Eb as [En Et].
    unfold has_locale, dict_get_default in H'. rewrite dict_get_set in H'.
    eqb_keep K (elem_name e).
    + rewrite str_in_iff, dict_keys_set in H'.
      destruct H' as [H'|H'].
      * right. split; [exact H'|]. exists e. split; [now left|]. now split.
      * left. unfold has_locale.
        destruct (dict_get (elem_name e) tbs) as [present|] eqn:Ep.
        -- subst K. rewrite Ep. now apply str_in_iff.
        -- destruct H'.
    + now left.
  - right. split; [reflexivity|]. exists e'. split; [now right | exact He'].
Qed.

Lemma scan_locales_from files languages K l : forall tbs,
  has_locale (fst (scan_locales files languages tbs)) K l = true ->
  has_locale tbs K l = true \/
  exists elems rest e,
    dict_get (android_locale_of l) files = Some (Resources elems rest) /\
    In e elems /\ elem_name e = K /\ nonempty (elem_text e) = true.
Proof.
  induction languages as [|a ls IH]; intros tbs H; [now left|].
  cbn [scan_locales] in H.
  destruct (dict_get (android_locale_of a) files) as [[|elems rest]|] eqn:Ef.
  - apply IH. now destruct (scan_locales files ls tbs).
  - destruct (IH _ H) as [H'|H']; [|now right].
    destruct (record_elems_from _ _ _ _ _ H') as [H2|(-> & e & He)];
      [now left|].
    right. exists elems, rest, e. now split.
  - now apply IH.
Qed.



(** The files a first run with [--output] leaves. *)
Lemma translate_main_files build_multilang_prompt openai T files :
  configured openai = true ->
  target_languages T <> [] ->
  fst (translate_main build_multilang_prompt openai T files None true false
                      false)
  = fst (save_translations T files
           (all_translations
              (tally_all (translations_for build_multilang_prompt openai T
                                           false)
                         (selected_keys T files false false)
                         (mkTally [] [] [])))).
Proof.
  intros Hc Hne. unfold translate_main.
  destruct (target_languages T) as [|l0 ls] eqn:Et; [congruence|].
  destruct (translate_all_done build_multilang_prompt openai T files false
              false Hc) as (t & -> & _).
  cbn [all_translations].
  destruct (all_translations _) as [|kt all]; [reflexivity|].
  cbn [negb andb].
  now destruct (save_translations T files (kt :: all)).
Qed.












(* ================================================================== *)
(** ** The [formatted] attribute *)
(* ================================================================== *)

(** [%\w+%] matches somewhere in [s] exactly when [s] holds a [%], a
    non-empty run of word characters and a [%] in a row. *)
Lemma word_run_sound s : forall seen,
  word_run_then_percent seen s = true ->
  exists name post,
    s = String.append name (String "%" post) /\ all_word name = true /\
    (seen = false -> name <> EmptyString).
Proof.
  induction s as [|c r IH]; intros seen; simpl; [discriminate|].
  destruct (is_word c) eqn:Ew.
  - intros H. destruct (IH true H) as (name & post & -> & Hall & _).
    exists (String c name), post. simpl. rewrite Ew, Hall.
    repeat split; discriminate.
  - intros H. apply andb_true_iff in H. destruct H as [-> H].
    apply Ascii.eqb_eq in H. subst c.
    exists EmptyString, r. repeat split. discriminate.
Qed.

Lemma word_run_complete name post : forall seen,
  all_word name = true ->
  (seen = true \/ name <> EmptyString) ->
  word_run_then_percent seen (String.append name (String "%" post)) = true.
Proof.
  induction name as [|c name IH]; intros seen Hall Hs; simpl.
  - destruct Hs as [->|Hs]; [reflexivity | congruence].
  - simpl in Hall. apply andb_true_iff in Hall. destruct Hall as [-> Hall].
    apply IH; auto.
Qed.

Lemma custom_placeholder_iff s :
  re_search_custom_placeholder s = true <->
  exists pre name post,
    s = String.append pre (String "%" (String.append name (String "%" post)))
    /\ name <> EmptyString /\ all_word name = true.
Proof.
  split.
  - induction s as [|c r IH]; simpl; [discriminate|].
    intros H. apply orb_true_iff in H. destruct H as [H|H].
    + destruct (Ascii.eqb c "%") eqn:Ec; [|discriminate].
      apply Ascii.eqb_eq in Ec. subst c.
      destruct (word_run_sound r false H) as (name & post & -> & Hall & Hne).
      exists EmptyString, name, post. repeat split; auto.
    + destruct (IH H) as (pre & name & post & -> & Hne & Hall).
      exists (String c pre), name, post. repeat split; auto.
  - intros (pre & name & post & -> & Hne & Hall).
    induction pre as [|c pre IH]; simpl.
    + rewrite word_run_complete; auto.
    + rewrite IH. apply orb_true_r.
Qed.

(** *** The flags of a text as it is stored

    The attribute is decided on the text handed to the writer, and the
    file holds the text as it is stored.  The two patterns match inside
    a line and across no white space, so both texts have the same
    matches. *)

Lemma is_space_facts c :
  is_space c = true ->
  is_word c = false /\ Ascii.eqb c "%" = false /\
  is_android_conversion c = false.
Proof.
  destruct c as [[] [] [] [] [] [] [] []]; intros H; vm_compute in H;
    try discriminate H; repeat split; reflexivity.
Qed.

Lemma search_cons c r :
  re_search_custom_placeholder (String c r)
  = (if Ascii.eqb c "%" then word_run_then_percent false r else false)
    || re_search_custom_placeholder r.
Proof. reflexivity. Qed.

Lemma findall_cons c r :
  re_findall_android_specs (String c r)
  = if Ascii.eqb c "%" then
      match r with
      | EmptyString => []
      | String c2 r2 =>
          if is_android_conversion c2
          then String c (String c2 EmptyString) :: re_findall_android_specs r2
          else re_findall_android_specs r
      end
    else re_findall_android_specs r.
Proof. reflexivity. Qed.

Lemma normalize_cons c s :
  normalize_newlines (String c s)
  = if Ascii.eqb c CR then
      String LF
        match s with
        | String c2 r2 =>
            if Ascii.eqb c2 LF then normalize_newlines r2
            else normalize_newlines s
        | EmptyString => EmptyString
        end
    else String c (normalize_newlines s).
Proof. reflexivity. Qed.

Lemma word_run_space seen c r :
  is_space c = true -> word_run_then_percent seen (String c r) = false.
Proof.
  intros H. destruct (is_space_facts c H) as (Hw & Hp & _).
  cbn [word_run_then_percent]. rewrite Hw, Hp. apply andb_false_r.
Qed.

Lemma search_space c r :
  is_space c = true ->
  re_search_custom_placeholder (String c r) = re_search_custom_placeholder r.
Proof.
  intros H. destruct (is_space_facts c H) as (_ & Hp & _).
  rewrite search_cons. now rewrite Hp.
Qed.

Lemma findall_space c r :
  is_space c = true ->
  re_findall_android_specs (String c r) = re_findall_android_specs r.
Proof.
  intros H. destruct (is_space_facts c H) as (_ & Hp & _).
  rewrite findall_cons. now rewrite Hp.
Qed.

Lemma search_blank b X :
  blank b = true ->
  re_search_custom_placeholder (String.append b X)
  = re_search_custom_placeholder X.
Proof.
  induction b as [|c b IH]; [reflexivity|]. cbn [blank String.append].
  intros H. apply andb_true_iff in H. destruct H as [Hc Hb].
  now rewrite search_space, IH.
Qed.

Lemma findall_blank b X :
  blank b = true ->
  re_findall_android_specs (String.append b X) = re_findall_android_specs X.
Proof.
  induction b as [|c b IH]; [reflexivity|]. cbn [blank String.append].
  intros H. apply andb_true_iff in H. destruct H as [Hc Hb].
  now rewrite findall_space, IH.
Qed.

Lemma word_run_prefix p : forall seen c X Y,
  is_space c = true ->
  word_run_then_percent seen (String.append p (String c X))
  = word_run_then_percent seen (String.append p (String c Y)).
Proof.
  induction p as [|a p IH]; intros seen c X Y Hc; cbn [String.append].
  - now rewrite !word_run_space.
  - cbn [word_run_then_percent]. destruct (is_word a); [now apply IH|].
    reflexivity.
Qed.

(** A blank run after a white space character can go. *)
Lemma search_skip p : forall c b X,
  is_space c = true -> blank b = true ->
  re_search_custom_placeholder (String.append p (String c (String.append b X)))
  = re_search_custom_placeholder (String.append p (String c X)).
Proof.
  induction p as [|a p IH]; intros c b X Hc Hb; cbn [String.append].
  - now rewrite !search_space, search_blank.
  - rewrite !search_cons, IH by assumption.
    now rewrite (word_run_prefix p false c (String.append b X) X).
Qed.

Lemma findall_skip_both p : forall c b X,
  is_space c = true -> blank b = true ->
  re_findall_android_specs (String.append p (String c (String.append b X)))
  = re_findall_android_specs (String.append p (String c X)) /\
  forall a,
    re_findall_android_specs
      (String a (String.append p (String c (String.append b X))))
    = re_findall_android_specs (String a (String.append p (String c X))).
Proof.
  induction p as [|d p IH]; intros c b X Hc Hb; cbn [String.append].
  - assert (H1 : re_findall_android_specs (String c (String.append b X))
                 = re_findall_android_specs (String c X)).
    { now rewrite !findall_space, findall_blank. }
    split; [exact H1|]. intros a.
    rewrite (findall_cons a (String c (String.append b X))).
    rewrite (findall_cons a (String c X)).
    destruct (is_space_facts c Hc) as (_ & _ & Hconv). rewrite Hconv.
    now rewrite H1.
  - destruct (IH c b X Hc Hb) as [H1 H2]. split; [apply H2|]. intros a.
    rewrite (findall_cons a (String d _)).
    rewrite (findall_cons a (String d (String.append p (String c X)))).
    now rewrite H1, H2.
Qed.

Lemma findall_skip p c b X :
  is_space c = true -> blank b = true ->
  re_findall_android_specs (String.append p (String c (String.append b X)))
  = re_findall_android_specs (String.append p (String c X)).
Proof. intros Hc Hb. now apply findall_skip_both. Qed.

Lemma word_run_normalize s : forall seen,
  word_run_then_percent seen (normalize_newlines s)
  = word_run_then_percent seen s.
Proof.
  induction s as [|c r IH]; intros seen; [reflexivity|].
  rewrite normalize_cons. destruct (Ascii.eqb c CR) eqn:E.
  - apply Ascii.eqb_eq in E. subst c. now rewrite !word_run_space.
  - cbn [word_run_then_percent]. destruct (is_word c); [apply IH|].
    reflexivity.
Qed.

Lemma search_normalize_cons s : forall c,
  re_search_custom_placeholder (normalize_newlines (String c s))
  = re_search_custom_placeholder (String c s).
Proof.
  induction s as [|d r IH]; intros c.
  - rewrite normalize_cons. destruct (Ascii.eqb c CR) eqn:E; [|reflexivity].
    apply Ascii.eqb_eq in E. now subst c.
  - assert (Hr : re_search_custom_placeholder (normalize_newlines r)
                 = re_search_custom_placeholder r).
    { pose proof (IH " "%char) as Hr.
      change (normalize_newlines (String " " r))
        with (String " "%char (normalize_newlines r)) in Hr.
      now rewrite !search_space in Hr. }
    rewrite normalize_cons. destruct (Ascii.eqb c CR) eqn:E.
    + apply Ascii.eqb_eq in E. subst c.
      rewrite !search_space by reflexivity.
      destruct (Ascii.eqb d LF) eqn:Ed; [|apply IH].
      apply Ascii.eqb_eq in Ed. subst d.
      now rewrite search_space.
    + rewrite (search_cons c (normalize_newlines (String d r))).
      rewrite (search_cons c (String d r)).
      now rewrite word_run_normalize, IH.
Qed.

Lemma search_normalize s :
  re_search_custom_placeholder (normalize_newlines s)
  = re_search_custom_placeholder s.
Proof. destruct s; [reflexivity | apply search_normalize_cons]. Qed.

Lemma findall_normalize_cons s : forall c,
  re_findall_android_specs (normalize_newlines (String c s))
  = re_findall_android_specs (String c s).
Proof.
  induction s as [|d r IH]; intros c.
  - rewrite normalize_cons. destruct (Ascii.eqb c CR) eqn:E; [|reflexivity].
    apply Ascii.eqb_eq in E. now subst c.
  - assert (Hr : re_findall_android_specs (normalize_newlines r)
                 = re_findall_android_specs r).
    { pose proof (IH " "%char) as Hr.
      change (normalize_newlines (String " " r))
        with (String " "%char (normalize_newlines r)) in Hr.
      now rewrite !findall_space in Hr. }
    rewrite normalize_cons. destruct (Ascii.eqb c CR) eqn:E.
    + apply Ascii.eqb_eq in E. subst c.
      rewrite !findall_space by reflexivity.
      destruct (Ascii.eqb d LF) eqn:Ed; [|apply IH].
      apply Ascii.eqb_eq in Ed. subst d.
      now rewrite findall_space.
    + rewrite (findall_cons c (normalize_newlines (String d r))).
      rewrite (findall_cons c (String d r)).
      destruct (Ascii.eqb c "%"); [|apply IH].
      pose proof (IH d) as Hd. rewrite normalize_cons in Hd |- *.
      destruct (Ascii.eqb d CR) eqn:Ed.
      * apply Ascii.eqb_eq in Ed. subst d.
        change (is_android_conversion LF) with false.
        change (is_android_conversion CR) with false. cbv iota.
        exact Hd.
      * destruct (is_android_conversion d); [now rewrite Hr | exact Hd].
Qed.

Lemma findall_normalize s :
  re_findall_android_specs (normalize_newlines s) = re_findall_android_specs s.
Proof. destruct s; [reflexivity | apply findall_normalize_cons]. Qed.

Lemma append_assoc_string (s1 s2 s3 : string) :
  String.append (String.append s1 s2) s3
  = String.append s1 (String.append s2 s3).
Proof. induction s1; simpl; congruence. Qed.

Lemma blank_append a b :
  blank (String.append a b) = andb (blank a) (blank b).
Proof.
  induction a as [|c a IH]; [reflexivity|]. cbn [String.append blank].
  now rewrite IH, andb_assoc.
Qed.

Section DropBlank.

Variable A : Type.
Variable G : string -> A.
Hypothesis G_skip : forall p b X,
  blank b = true ->
  G (String.append p (String LF (String.append b X)))
  = G (String.append p (String LF X)).

Lemma join_filter_blank inner line : forall p,
  G (String.append p
       (String LF (join_lines (filter (fun l => negb (blank l)) inner
                               ++ [line]))))
  = G (String.append p (String LF (join_lines (inner ++ [line])))).
Proof.
  induction inner as [|m inner IH]; intros p; [reflexivity|].
  cbn [filter app].
  rewrite (join_lines_cons m (inner ++ [line])) by (now destruct inner).
  destruct (blank m) eqn:Eb; cbn [negb].
  - rewrite IH.
    rewrite <- (G_skip p (String.append m (String LF EmptyString))
                       (join_lines (inner ++ [line]))).
    + now rewrite append_assoc_string.
    + now rewrite blank_append, Eb.
  - cbn [app]. rewrite join_lines_cons by (now destruct (filter _ inner)).
    assert (Ha : forall X,
              String.append p (String LF (String.append m (String LF X)))
              = String.append (String.append p (String LF m)) (String LF X)).
    { intros X. now rewrite append_assoc_string. }
    rewrite !Ha. apply IH.
Qed.

Lemma drop_blank_lines_keeps s : G (drop_blank_lines s) = G s.
Proof.
  unfold drop_blank_lines. pose proof (join_split_lines s) as Hs.
  destruct (split_lines s) as [|first [|l ls]]; try reflexivity.
  rewrite <- Hs. clear Hs.
  assert (Hne : l :: ls <> []) by discriminate.
  destruct (exists_last Hne) as (inner & line & ->).
  rewrite removelast_last, last_last.
  rewrite !join_lines_cons; [|now destruct inner | now destruct (filter _ _)].
  apply join_filter_blank.
Qed.

End DropBlank.

(** The text as it is stored has the placeholders and the specifiers of
    the text handed to the writer. *)
Lemma custom_placeholders_stored text :
  has_custom_placeholders (stored_text text) = has_custom_placeholders text.
Proof.
  unfold has_custom_placeholders. rewrite stored_text_nonempty.
  unfold stored_text.
  rewrite (drop_blank_lines_keeps _ re_search_custom_placeholder).
  - now rewrite search_normalize.
  - intros p b X Hb. now apply search_skip.
Qed.

Lemma android_specs_stored text :
  has_multiple_android_specs (stored_text text)
  = has_multiple_android_specs text.
Proof.
  unfold has_multiple_android_specs. rewrite stored_text_nonempty.
  unfold stored_text.
  rewrite (drop_blank_lines_keeps _ re_findall_android_specs).
  - now rewrite findall_normalize.
  - intros p b X Hb. now apply findall_skip.
Qed.

(** C7, amended: the [formatted="false"] attribute.  In a locale file
    that [save_translations] writes, an entry carries the attribute
    exactly when its key's metadata marks format specifiers, or its
    value holds a custom [%name%] placeholder, or its value holds two or
    more specifiers of the plain form, a [%] directly followed by one of
    [s d i f g e o x X].  The file is written when the metadata is typed
    as the data model has it and the names and texts of the merged
    mapping hold only characters XML allows; the names are taken to be
    of printable characters, so that the file gives them back as they
    are. *)
Theorem formatted_false_attribute (T : Translator) (files : LocaleFiles)
    (all : dict (dict string)) (android_locale : string) :
  metadata_typed (tr_metadata T) = true ->
  dict_in android_locale (group_by_locale all) = true ->
  printable_names (merged files all android_locale) = true ->
  writable (merged files all android_locale) = true ->
  exists elems,
    dict_get android_locale (fst (save_translations T files all))
    = Some (Resources elems "") /\
    forall e, In e elems ->
      (elem_formatted e = Some "false" <->
       orb (metadata_flags (tr_metadata T) (elem_name e))
           (orb (has_custom_placeholders (elem_text e))
                (has_multiple_android_specs (elem_text e))) = true) /\
      (has_custom_placeholders (elem_text e) = true ->
       elem_formatted e = Some "false") /\
      (has_multiple_android_specs (elem_text e) = true ->
       elem_formatted e = Some "false").
Proof.
  intros Ht Hin Hp Hw. eexists. split; [now apply saved_file|].
  intros e He. apply in_map_iff in He. destruct He as (key & <- & Hk).
  apply (proj1 (sorted_In _ _)) in Hk.
  rewrite stored_built_name by (now apply (printable_names_In _ _ Hp)).
  unfold stored_built, stored_elem, built_elem.
  cbn [elem_formatted elem_name elem_text].
  rewrite custom_placeholders_stored, android_specs_stored.
  destruct (metadata_flags (tr_metadata T) key);
    destruct (has_custom_placeholders _);
    destruct (has_multiple_android_specs _); cbn;
    repeat split; intros; congruence.
Qed.

Lemma formatted_false_attribute_witness :
  metadata_typed (tr_metadata plain_translator) = true /\
  dict_in "fr" (group_by_locale placeholder_translations) = true /\
  printable_names (merged [] placeholder_translations "fr") = true /\
  writable (merged [] placeholder_translations "fr") = true /\
  dict_get "fr" (fst (save_translations plain_translator []
                                        placeholder_translations))
  = Some (Resources [mkElem "counts" "%d sur %d" (Some "false");
                     mkElem "greeting" "Bonjour %name%" (Some "false");
                     mkElem "plain" "Bonjour" None] "").
Proof.
  split; [reflexivity|]. split; [reflexivity|]. split; [reflexivity|].
  split; [reflexivity|].
  destruct (formatted_false_attribute plain_translator []
              placeholder_translations "fr" eq_refl eq_refl eq_refl eq_refl)
    as (elems & E & _).
  rewrite E. vm_compute in E. injection E as <-. reflexivity.
Defined.

(** C7 as stated fails: a value with the two positional specifiers
    [%1$d] and [%2$d], under a key whose metadata marks no format
    specifiers, is written without the attribute. *)
Lemma positional_specifiers_not_flagged :
  count_positional_specifiers "Envoi %1$d sur %2$d" = 2 /\
  fst (save_translations progress_translator [] progress_translations)
  = [("fr", Resources [mkElem "progress" "Envoi %1$d sur %2$d" None] "")].
Proof. split; reflexivity. Qed.

(* ################################################################## *)
(** * Further properties of the code *)
(* ################################################################## *)

(* ================================================================== *)
(** ** Sorting and lookups *)
(* ================================================================== *)

Lemma insert_sorted_ascending {A} (key : A -> string) x l :
  ascending key l = true -> ascending key (insert_sorted key x l) = true.
Proof.
  induction l as [|y r IH]; intros Hl; [reflexivity|].
  cbn [insert_sorted]. destruct (String.leb (key x) (key y)) eqn:E.
  - cbn [ascending] in *. now rewrite E.
  - cbn [ascending] in Hl. apply andb_true_iff in Hl. destruct Hl as [Hh Hr].
    specialize (IH Hr). cbn [ascending]. rewrite IH, andb_true_r.
    destruct r as [|z r']; cbn [insert_sorted].
    + destruct (String.leb_total (key x) (key y)); congruence.
    + destruct (String.leb (key x) (key z)); [|exact Hh].
      destruct (String.leb_total (key x) (key y)); congruence.
Qed.

Lemma sort_on_ascending {A} (key : A -> string) l :
  ascending key (sort_on key l) = true.
Proof.
  induction l as [|x l IH]; [reflexivity|].
  cbn [sort_on fold_right]. now apply insert_sorted_ascending.
Qed.

(** Sorting a sorted list changes nothing. *)
Lemma sort_on_fixed {A} (key : A -> string) l :
  ascending key l = true -> sort_on key l = l.
Proof.
  induction l as [|x l IH]; intros Hl; [reflexivity|].
  cbn [ascending] in Hl. apply andb_true_iff in Hl. destruct Hl as [Hh Hr].
  cbn [sort_on fold_right]. fold (sort_on key l). rewrite (IH Hr).
  destruct l as [|y r]; [reflexivity|].
  cbn [insert_sorted]. now rewrite Hh.
Qed.

Lemma dict_get_perm {V} k (d d' : dict V) :
  NoDup (dict_keys d) -> Permutation d d' -> dict_get k d = dict_get k d'.
Proof.
  intros Hnd Hp.
  assert (Hnd' : NoDup (dict_keys d')).
  { eapply Permutation_NoDup; [apply Permutation_map; exact Hp | exact Hnd]. }
  destruct (dict_get k d) as [v|] eqn:E.
  - apply dict_get_In in E. symmetry. apply In_dict_get; [exact Hnd'|].
    eapply Permutation_in; eauto.
  - destruct (dict_get k d') as [v|] eqn:E'; [|reflexivity].
    apply dict_get_In in E'. apply Permutation_sym in Hp.
    eapply Permutation_in in E'; [|exact Hp].
    apply In_dict_get in E'; [congruence | exact Hnd].
Qed.

Lemma dict_get_sort_on {V} k (d : dict V) :
  NoDup (dict_keys d) -> dict_get k (sort_on fst d) = dict_get k d.
Proof.
  intros Hnd. symmetry. apply dict_get_perm; [exact Hnd|].
  apply Permutation_sym, sort_on_perm.
Qed.

(** An entry of a shard is read back with the fields of its record in
    sorted order. *)
Lemma yaml_dump_get k (data : Shard) :
  unique_keys data = true ->
  dict_get k (yaml_dump data) = option_map yaml_record (dict_get k data).
Proof.
  intros Hu. apply unique_keys_NoDup in Hu. unfold yaml_dump.
  rewrite dict_get_sort_on by (now rewrite dict_keys_map).
  apply dict_get_map.
Qed.

Lemma yaml_record_get f (r : Metadata) :
  unique_keys r = true ->
  dict_get f (yaml_record r) = option_map yaml_sort_keys (dict_get f r).
Proof.
  intros Hu. apply unique_keys_NoDup in Hu. unfold yaml_record.
  rewrite dict_get_sort_on by (now rewrite dict_keys_map).
  apply dict_get_map.
Qed.

(* ================================================================== *)
(** ** metadata_io.py: saving, then reading *)
(* ================================================================== *)

(** X1: what [save_category] and [save_index] write is what the next
    read returns, whatever the caches held: the shard comes back with
    its keys sorted and every entry under its key, the index with the
    date of the save; the shards of the other categories, the index
    (after [save_category]) and the defaults read as before. *)
Theorem saved_files_are_read_back (category today : string) (data : Shard)
    (index_data : Index) (io : MetadataIO) :
  (exists io2,
     _load_category_file category (snd (save_category category data io))
     = (Ok (yaml_dump data), io2)) /\
  (forall c, c <> category ->
     shard_view (snd (save_category category data io)) c = shard_view io c) /\
  index_view (snd (save_category category data io)) = index_view io /\
  defaults_view (snd (save_category category data io)) = defaults_view io /\
  (unique_keys data = true ->
   ascending fst (yaml_dump data) = true /\
   forall k, dict_get k (yaml_dump data)
             = option_map yaml_record (dict_get k data)) /\
  (forall r, unique_keys r = true ->
     forall f, dict_get f (yaml_record r)
               = option_map yaml_sort_keys (dict_get f r)) /\
  (exists io2,
     _load_index (snd (save_index today index_data io))
     = (Ok (stamped today index_data), io2)) /\
  (forall c, shard_view (snd (save_index today index_data io)) c
             = shard_view io c) /\
  defaults_view (snd (save_index today index_data io)) = defaults_view io.
Proof.
  split.
  { unfold save_category, _load_category_file. cbn [snd _category_cache disk
      category_yaml]. rewrite dict_get_del, String.eqb_refl, dict_get_set_eq.
    eexists. reflexivity. }
  split.
  { intros c Hc. unfold shard_view, save_category.
    cbn [snd _category_cache disk category_yaml].
    rewrite dict_get_del, dict_get_set.
    apply String.eqb_neq in Hc. now rewrite Hc. }
  split; [reflexivity|]. split; [reflexivity|].
  split.
  { intros Hu. split; [apply sort_on_ascending|].
    intros k. now apply yaml_dump_get. }
  split; [intros r Hu f; now apply yaml_record_get|].
  split; [eexists; reflexivity|].
  split; [reflexivity|reflexivity].
Qed.

(** X2: [save_defaults] writes its argument as the whole file, and the
    next read takes the member [defaults] of it: the merge after a save
    uses that member, and after saving an object without such a member
    the merge adds nothing to a record. *)
Theorem saved_defaults_are_read_unwrapped (defaults_data : dict PyVal)
    (io : MetadataIO) (r : Metadata) :
  (exists io2,
     _merge_with_defaults r (snd (save_defaults defaults_data io))
     = (merge (dict_get_default "defaults" (PDict []) defaults_data) r, io2)) /\
  (dict_in "defaults" defaults_data = false ->
   exists merged io2,
     _merge_with_defaults r (snd (save_defaults defaults_data io))
     = (Ok merged, io2) /\
     forall f, dict_get f merged = dict_get f r) /\
  index_view (snd (save_defaults defaults_data io)) = index_view io /\
  (forall c, shard_view (snd (save_defaults defaults_data io)) c
             = shard_view io c).
Proof.
  assert (Hrun : exists io2,
     _merge_with_defaults r (snd (save_defaults defaults_data io))
     = (merge (dict_get_default "defaults" (PDict []) defaults_data) r, io2)).
  { destruct (returns_run _ _ _
                (returns_merge (snd (save_defaults defaults_data io)) r))
      as (io2 & H & _).
    exists io2. exact H. }
  split; [exact Hrun|]. split; [|split; reflexivity].
  intros Hno. destruct Hrun as (io2 & H).
  unfold dict_in in Hno. unfold dict_get_default in H.
  destruct (dict_get "defaults" defaults_data); [discriminate|].
  destruct (merge_empty_defaults r) as (merged & Hm & Hget & _).
  exists merged, io2. rewrite H, Hm. now split.
Qed.

(* ================================================================== *)
(** ** metadata_io.py: keys that are not there, files that are not there *)
(* ================================================================== *)

Lemma set_update_spec keys : forall s,
  NoDup s ->
  NoDup (set_update s keys) /\
  forall k, In k (set_update s keys) <-> In k s \/ In k keys.
Proof.
  unfold set_update.
  induction keys as [|x keys IH]; intros s Hs; cbn [fold_left].
  - split; [exact Hs|]. intros k. simpl. tauto.
  - destruct (str_in x s) eqn:E.
    + destruct (IH s Hs) as [Hnd Hin]. split; [exact Hnd|].
      intros k. rewrite Hin. apply str_in_iff in E. simpl.
      intuition (subst; auto).
    + apply str_in_false_iff in E.
      assert (Hs' : NoDup (s ++ [x])).
      { apply NoDup_app; [exact Hs | repeat constructor; simpl; tauto |].
        intros y Hy [<-|[]]. contradiction. }
      destruct (IH _ Hs') as [Hnd Hin]. split; [exact Hnd|].
      intros k. rewrite Hin, in_app_iff. simpl. tauto.
Qed.

Lemma set_updates_spec (lists : list (list string)) : forall s,
  NoDup s ->
  NoDup (fold_left set_update lists s) /\
  forall k, In k (fold_left set_update lists s) <->
            In k s \/ exists keys, In keys lists /\ In k keys.
Proof.
  induction lists as [|keys lists IH]; intros s Hs; cbn [fold_left].
  - split; [exact Hs|]. intros k. split; [auto|].
    intros [H|(keys & [] & _)]. exact H.
  - destruct (set_update_spec keys s Hs) as [Hnd Hin].
    destruct (IH _ Hnd) as [Hnd' Hin']. split; [exact Hnd'|].
    intros k. rewrite Hin', Hin. split.
    + intros [[H|H]|(ks & Hks & H)]; auto.
      * right. exists keys. split; [now left | exact H].
      * right. exists ks. split; [now right | exact H].
    + intros [H|(ks & [->|Hks] & H)]; auto.
      right. exists ks. now split.
Qed.

Lemma find_category_None k cats :
  find_category k cats = None <->
  forall c keys, In (c, keys) cats -> ~ In k keys.
Proof.
  induction cats as [|[c0 ks] cats IH]; cbn [find_category].
  - split; [intros _ c keys [] | reflexivity].
  - destruct (str_in k ks) eqn:E.
    + split; [discriminate|]. intros H. exfalso.
      apply (H c0 ks); [now left | now apply str_in_iff].
    + rewrite IH. apply str_in_false_iff in E. split.
      * intros H c keys [[= <- <-]|Hin]; [exact E | now apply (H c)].
      * intros H c keys Hin. apply (H c). now right.
Qed.

(** X3: the keys of [get_all_string_keys] are the keys some category
    of the index lists, each once; a key that is not among them is not
    found by [get_string_metadata], which then reads no shard and
    writes nothing, whatever the shards hold. *)
Theorem unlisted_key_is_not_found (io : MetadataIO) (index : Index) :
  index_view io = Some index ->
  exists ks io1,
    get_all_string_keys io = (Ok ks, io1) /\
    NoDup ks /\
    (forall K, In K ks <->
               exists c keys, In (c, keys) (categories index) /\ In K keys) /\
    (forall K, ~ In K ks ->
       exists io2,
         get_string_metadata K io = (Ok None, io2) /\
         _category_cache io2 = _category_cache io /\
         disk io2 = disk io).
Proof.
  intros Hview.
  destruct (set_updates_spec (dict_values (categories index)) [] (NoDup_nil _))
    as [Hnd Hin].
  assert (Hkeys : forall K,
    In K (fold_left set_update (dict_values (categories index)) []) <->
    exists c keys, In (c, keys) (categories index) /\ In K keys).
  { intros K. rewrite Hin. split.
    - intros [[]|(keys & Hk & HK)]. unfold dict_values in Hk.
      apply in_map_iff in Hk. destruct Hk as ([c ks] & <- & Hc).
      exists c, ks. now split.
    - intros (c & keys & Hc & HK). right. exists keys. split; [|exact HK].
      unfold dict_values. apply in_map_iff. exists (c, keys). now split. }
  assert (Hload : exists io1, _load_index io = (Ok index, io1) /\
                              _category_cache io1 = _category_cache io /\
                              disk io1 = disk io).
  { unfold index_view in Hview. unfold _load_index.
    destruct (_index io) as [i|].
    - injection Hview as ->. now exists io.
    - rewrite Hview. eexists. repeat split. }
  destruct Hload as (io1 & Hload & Hcache & Hdisk).
  exists (fold_left set_update (dict_values (categories index)) []), io1.
  split.
  { unfold get_all_string_keys, bind, ret. now rewrite Hload. }
  split; [exact Hnd|]. split; [exact Hkeys|].
  intros K HK. exists io1.
  unfold get_string_metadata, bind, ret. rewrite Hload.
  assert (Hnone : find_category K (categories index) = None).
  { apply find_category_None. intros c keys Hc Hin'. apply HK.
    apply Hkeys. exists c, keys. now split. }
  rewrite Hnone. now repeat split.
Qed.

Lemma unlisted_key_is_not_found_witness :
  index_view dangling_io
  = Some (mkIndex [("a", ["k"]); ("b", ["j"])] [] 2 2 "2025-01-01" []) /\
  fst (get_all_string_keys dangling_io) = Ok ["k"; "j"] /\
  fst (get_string_metadata "other" dangling_io) = Ok None.
Proof.
  split; [reflexivity|]. split; [reflexivity|].
  destruct (unlisted_key_is_not_found dangling_io _ eq_refl)
    as (ks & io1 & Hks & _ & _ & Hnone).
  injection Hks as <- _.
  destruct (Hnone "other") as (io2 & H & _).
  - simpl. intuition discriminate.
  - now rewrite H.
Defined.

Lemma merge_defaults_loop_raises r ds : forall acc e,
  merge_defaults_loop r ds acc = Raise e ->
  e = TypeError "object is not a mapping".
Proof.
  induction ds as [|[f dv] ds IH]; intros acc e; cbn [merge_defaults_loop];
    [discriminate|].
  destruct (merge_default_field r acc (f, dv)) as [m|e'] eqn:E.
  - apply IH.
  - intros [= <-]. unfold merge_default_field in E.
    destruct dv; try discriminate.
    destruct (dict_get_default f (PDict []) r); try discriminate;
      now injection E as <-.
Qed.

(** The merge raises for a value that is no mapping, never for a file. *)
Lemma merge_raises defaults r e :
  merge defaults r = Raise e ->
  e = TypeError "object is not a mapping" \/ e = AttributeError "items".
Proof.
  unfold merge. destruct defaults; try (intros [= <-]; now right).
  destruct (merge_defaults_loop r d []) as [m|e'] eqn:E; [discriminate|].
  intros [= <-]. left. eapply merge_defaults_loop_raises; eauto.
Qed.

Lemma get_string_metadata_result io K :
  fst (get_string_metadata K io) = string_metadata_of io K.
Proof.
  destruct (returns_run _ _ _ (returns_get_string_metadata io K))
    as (io' & H & _).
  now rewrite H.
Qed.

Lemma get_all_metadata_result io :
  fst (get_all_metadata io) = all_metadata_of io.
Proof.
  destruct (returns_run _ _ _ (returns_get_all_metadata io)) as (io' & H & _).
  now rewrite H.
Qed.

(** X4: [get_string_metadata] raises [FileNotFoundError] in two cases
    only: there is no index to read, or the category that lists the
    key has no shard to read; the path of the exception tells which. *)
Theorem single_read_file_not_found (io : MetadataIO) (K path : string) :
  fst (get_string_metadata K io) = Raise (FileNotFoundError path) <->
  (index_view io = None /\ path = "index.json") \/
  (exists index c,
     index_view io = Some index /\
     find_category K (categories index) = Some c /\
     shard_view io c = None /\ path = (c ++ ".yaml")%string).
Proof.
  rewrite get_string_metadata_result. unfold string_metadata_of.
  destruct (index_view io) as [index|].
  - destruct (find_category K (categories index)) as [c|] eqn:Ec.
    + destruct (shard_view io c) as [data|] eqn:Es.
      * split.
        -- destruct (dict_get K data) as [sm|]; [|discriminate].
           destruct (merge (defaults_view io) sm) as [m|e] eqn:Em;
             [discriminate|].
           intros [= ->]. destruct (merge_raises _ _ _ Em); discriminate.
        -- intros [[H _]|(i & c' & [= <-] & Hc & Hs & _)]; [discriminate|].
           rewrite Ec in Hc. injection Hc as <-. congruence.
      * split.
        -- intros [= <-]. right. exists index, c. auto.
        -- intros [[H _]|(i & c' & [= <-] & Hc & Hs & ->)]; [discriminate|].
           rewrite Ec in Hc. now injection Hc as <-.
    + split; [discriminate|].
      intros [[H _]|(i & c' & [= <-] & Hc & _)]; [discriminate|]. congruence.
  - split.
    + intros [= <-]. now left.
    + intros [[_ ->]|(i & c & H & _)]; [reflexivity | discriminate].
Qed.

(* ================================================================== *)
(** ** metadata_io.py: reads do not write, and can be repeated *)
(* ================================================================== *)

Lemma load_index_keeps_disk io : disk (snd (_load_index io)) = disk io.
Proof.
  unfold _load_index. destruct (_index io); [reflexivity|].
  now destruct (index_json (disk io)).
Qed.

Lemma load_defaults_keeps_disk io : disk (snd (_load_defaults io)) = disk io.
Proof. unfold _load_defaults. now destruct (_defaults io). Qed.

Lemma load_category_keeps_disk c io :
  disk (snd (_load_category_file c io)) = disk io.
Proof.
  unfold _load_category_file. destruct (dict_get c (_category_cache io));
    [reflexivity|].
  now destruct (dict_get c (category_yaml (disk io))).
Qed.

Lemma bind_keeps_disk {A B} (m : M A) (f : A -> M B) :
  (forall io, disk (snd (m io)) = disk io) ->
  (forall a io, disk (snd (f a io)) = disk io) ->
  forall io, disk (snd (bind m f io)) = disk io.
Proof.
  intros Hm Hf io. unfold bind. specialize (Hm io).
  destruct (m io) as [[a|e] io']; cbn [snd] in *; [|exact Hm].
  now rewrite Hf.
Qed.

Lemma for_each_keeps_disk {A B} (body : B -> A -> M B) xs :
  (forall acc x io, disk (snd (body acc x io)) = disk io) ->
  forall acc io, disk (snd (for_each xs body acc io)) = disk io.
Proof.
  intros Hb. induction xs as [|x xs IH]; intros acc io; [reflexivity|].
  cbn [for_each]. apply bind_keeps_disk; [apply Hb | intros a io'; apply IH].
Qed.

Lemma merge_with_defaults_keeps_disk r io :
  disk (snd (_merge_with_defaults r io)) = disk io.
Proof.
  unfold _merge_with_defaults.
  apply bind_keeps_disk; [apply load_defaults_keeps_disk | reflexivity].
Qed.

Lemma get_string_metadata_keeps_disk K io :
  disk (snd (get_string_metadata K io)) = disk io.
Proof.
  unfold get_string_metadata.
  apply bind_keeps_disk; [apply load_index_keeps_disk|].
  intros index io1. destruct (find_category K (categories index));
    [|reflexivity].
  apply bind_keeps_disk; [apply load_category_keeps_disk|].
  intros data io2. destruct (dict_get K data); [|reflexivity].
  apply bind_keeps_disk; [apply merge_with_defaults_keeps_disk | reflexivity].
Qed.

Lemma get_category_metadata_keeps_disk c io :
  disk (snd (get_category_metadata c io)) = disk io.
Proof.
  unfold get_category_metadata.
  apply bind_keeps_disk; [apply load_category_keeps_disk|].
  intros data io1. apply for_each_keeps_disk. intros acc x io2.
  apply bind_keeps_disk; [apply merge_with_defaults_keeps_disk | reflexivity].
Qed.

Lemma get_all_metadata_keeps_disk io :
  disk (snd (get_all_metadata io)) = disk io.
Proof.
  unfold get_all_metadata.
  apply bind_keeps_disk; [apply load_index_keeps_disk|].
  intros index io1. apply for_each_keeps_disk. intros acc x io2.
  apply bind_keeps_disk; [apply get_category_metadata_keeps_disk | reflexivity].
Qed.

(** X5: the read methods write no file, and the caches they fill do
    not change what is read: a bulk read or a single read gives the
    same result, value or exception, before and after another read. *)
Theorem reads_are_repeatable (io : MetadataIO) (K K' : string) :
  disk (snd (get_all_metadata io)) = disk io /\
  disk (snd (get_string_metadata K io)) = disk io /\
  fst (get_all_metadata (snd (get_all_metadata io)))
  = fst (get_all_metadata io) /\
  fst (get_string_metadata K (snd (get_all_metadata io)))
  = fst (get_string_metadata K io) /\
  fst (get_all_metadata (snd (get_string_metadata K io)))
  = fst (get_all_metadata io) /\
  fst (get_string_metadata K' (snd (get_string_metadata K io)))
  = fst (get_string_metadata K' io).
Proof.
  split; [apply get_all_metadata_keeps_disk|].
  split; [apply get_string_metadata_keeps_disk|].
  destruct (returns_run _ _ _ (returns_get_all_metadata io))
    as (ioa & Ha & Hva).
  destruct (returns_run _ _ _ (returns_get_string_metadata io K))
    as (ios & Hs & Hvs).
  rewrite Ha, Hs. cbn [fst snd].
  destruct (returns_get_all_metadata io ioa Hva) as (io1 & H1 & _).
  destruct (returns_get_string_metadata io K ioa Hva) as (io2 & H2 & _).
  destruct (returns_get_all_metadata io ios Hvs) as (io3 & H3 & _).
  destruct (returns_get_string_metadata io K' ios Hvs) as (io4 & H4 & _).
  destruct (returns_run _ _ _ (returns_get_string_metadata io K'))
    as (io5 & H5 & _).
  rewrite H1, H2, H3, H4, H5. now repeat split.
Qed.

(* ================================================================== *)
(** ** translate_with_context.py: [escape_android_string] *)
(* ================================================================== *)

Lemma replace_char_append c by_ s1 s2 :
  replace_char c by_ (String.append s1 s2)
  = String.append (replace_char c by_ s1) (replace_char c by_ s2).
Proof.
  induction s1 as [|a s1 IH]; cbn [String.append replace_char]; [reflexivity|].
  rewrite IH. destruct (Ascii.eqb a c); [|reflexivity].
  now rewrite append_assoc_string.
Qed.

(** The three replacements, one after the other, escape each character
    of the text on its own. *)
Lemma three_replacements text :
  replace_char quote (String backslash (String quote ""))
    (replace_char apostrophe (String backslash (String apostrophe ""))
       (replace_char backslash (String backslash (String backslash "")) text))
  = escape_chars text.
Proof.
  induction text as [|a r IH]; [reflexivity|].
  cbn [replace_char escape_chars]. unfold escaped_char, is_special.
  destruct (Ascii.eqb a backslash) eqn:Eb.
  - apply Ascii.eqb_eq in Eb. subst a. cbn [orb String.append].
    change (String backslash (String backslash ?x))
      with (String.append (String backslash (String backslash "")) x).
    rewrite !replace_char_append, IH. reflexivity.
  - cbn [orb replace_char]. destruct (Ascii.eqb a apostrophe) eqn:Ea.
    + apply Ascii.eqb_eq in Ea. subst a. cbn [orb String.append].
      change (String backslash (String apostrophe ?x))
        with (String.append (String backslash (String apostrophe "")) x).
      rewrite replace_char_append, IH. reflexivity.
    + cbn [orb replace_char]. rewrite IH.
      destruct (Ascii.eqb a quote) eqn:Eq; [|reflexivity].
      apply Ascii.eqb_eq in Eq. now subst a.
Qed.

Lemma escape_android_string_eq text :
  escape_android_string text
  = if String.eqb text "" then text
    else if orb (startswith "@" (escape_chars text))
                (startswith "?" (escape_chars text))
         then String backslash (escape_chars text)
         else escape_chars text.
Proof.
  unfold escape_android_string. rewrite three_replacements.
  destruct (String.eqb text ""); [reflexivity|].
  now destruct (startswith "@" (escape_chars text)),
               (startswith "?" (escape_chars text)).
Qed.

Lemma startswith_escape_chars c text :
  is_special c = false ->
  startswith c (escape_chars text) = startswith c text.
Proof.
  intros Hc. destruct text as [|a r]; [reflexivity|].
  cbn [escape_chars]. unfold escaped_char.
  destruct (is_special a) eqn:Ea; cbn [String.append startswith];
    [|reflexivity].
  destruct (Ascii.eqb a c) eqn:E.
  - apply Ascii.eqb_eq in E. congruence.
  - destruct (Ascii.eqb backslash c) eqn:E'; [|reflexivity].
    apply Ascii.eqb_eq in E'. subst c. discriminate.
Qed.

Lemma escape_chars_plain text :
  has_special text = false -> escape_chars text = text.
Proof.
  induction text as [|a r IH]; [reflexivity|].
  cbn [has_special escape_chars]. intros H. apply orb_false_iff in H.
  destruct H as [Ha Hr]. unfold escaped_char. rewrite Ha, (IH Hr). reflexivity.
Qed.

Lemma escape_chars_length text :
  has_special text = true ->
  String.length text < String.length (escape_chars text).
Proof.
  assert (Hle : forall t, String.length t <= String.length (escape_chars t)).
  { induction t as [|a r IH]; [auto|]. cbn [escape_chars]. unfold escaped_char.
    destruct (is_special a); cbn [String.append String.length]; lia. }
  induction text as [|a r IH]; [discriminate|].
  cbn [has_special escape_chars]. unfold escaped_char.
  destruct (is_special a); cbn [orb String.append String.length].
  - intros _. specialize (Hle r). lia.
  - intros H. specialize (IH H). lia.
Qed.

Lemma escape_chars_has_special text :
  has_special text = true -> has_special (escape_chars text) = true.
Proof.
  induction text as [|a r IH]; [discriminate|].
  cbn [has_special escape_chars]. unfold escaped_char.
  destruct (is_special a) eqn:Ea; cbn [orb String.append has_special].
  - reflexivity.
  - intros H. now rewrite Ea, (IH H).
Qed.

Lemma escape_longer text :
  needs_escape text = true ->
  String.length text < String.length (escape_android_string text).
Proof.
  rewrite escape_android_string_eq. unfold needs_escape.
  destruct text as [|a r]; [discriminate|].
  change (String.eqb (String a r) "") with false. cbv iota.
  destruct (has_special (String a r)) eqn:Hs.
  - intros _. pose proof (escape_chars_length _ Hs).
    destruct (orb _ _); cbn [String.length] in *; lia.
  - cbn [orb]. intros H. rewrite !startswith_escape_chars by reflexivity.
    rewrite H, (escape_chars_plain _ Hs). cbn [String.length]. lia.
Qed.

Lemma escape_fixed_iff text :
  escape_android_string text = text <-> needs_escape text = false.
Proof.
  split.
  - intros Heq. destruct (needs_escape text) eqn:En; [|reflexivity].
    pose proof (escape_longer _ En) as Hlong. rewrite Heq in Hlong. lia.
  - intros Hn. rewrite escape_android_string_eq. unfold needs_escape in Hn.
    apply orb_false_iff in Hn. destruct Hn as [Hs Hst].
    rewrite !startswith_escape_chars by reflexivity.
    rewrite Hst, (escape_chars_plain _ Hs). now destruct (String.eqb text "").
Qed.

(** X6: the texts [escape_android_string] returns unchanged are the
    texts without a backslash, an apostrophe or a quote that do not
    start with [@] or [?]; every other text comes back longer. *)
Theorem escape_leaves_plain_text_only (text : string) :
  (escape_android_string text = text <-> needs_escape text = false) /\
  (needs_escape text = true ->
   String.length text < String.length (escape_android_string text)).
Proof.
  split; [apply escape_fixed_iff | apply escape_longer].
Qed.

Lemma escape_has_special text :
  needs_escape text = true ->
  has_special (escape_android_string text) = true.
Proof.
  rewrite escape_android_string_eq. unfold needs_escape.
  destruct text as [|a r]; [discriminate|].
  change (String.eqb (String a r) "") with false. cbv iota.
  destruct (has_special (String a r)) eqn:Hs.
  - intros _. pose proof (escape_chars_has_special _ Hs) as H.
    destruct (orb _ _); [|exact H]. cbn [has_special]. now rewrite H, orb_true_r.
  - cbn [orb]. intros H. rewrite !startswith_escape_chars by reflexivity.
    now rewrite H.
Qed.

(** X7: escaping an escaped text again returns it unchanged exactly
    when the first escaping changed nothing; a text the first escaping
    changed is changed again by the second. *)
Theorem second_escape_changes_escaped_text (text : string) :
  escape_android_string (escape_android_string text)
  = escape_android_string text
  <-> escape_android_string text = text.
Proof.
  split.
  - intros H. apply escape_fixed_iff in H.
    destruct (needs_escape text) eqn:En.
    + apply escape_has_special in En. unfold needs_escape in H.
      rewrite En in H. discriminate.
    + now apply escape_fixed_iff.
  - intros H. now rewrite !H.
Qed.

Lemma escape_chars_pairs text : escape_pairs false (escape_chars text) = true.
Proof.
  induction text as [|a r IH]; [reflexivity|].
  cbn [escape_chars]. unfold escaped_char.
  destruct (is_special a) eqn:Ea; cbn [String.append escape_pairs].
  - rewrite Ascii.eqb_refl. cbn [escape_pairs]. now rewrite Ea, IH.
  - destruct (Ascii.eqb a backslash) eqn:Eb.
    + unfold is_special in Ea. now rewrite Eb in Ea.
    + now rewrite Ea, IH.
Qed.

(** In the escaped characters, what follows a backslash is a backslash,
    an apostrophe or a quote. *)
Lemma escape_chars_second text c r :
  escape_chars text = String backslash (String c r) -> is_special c = true.
Proof.
  destruct text as [|a t]; [discriminate|].
  cbn [escape_chars]. unfold escaped_char.
  destruct (is_special a) eqn:Ea; cbn [String.append].
  - now intros [= <- _].
  - intros [= -> _]. discriminate.
Qed.

Lemma escape_chars_quoted text : forall pre c post,
  escape_chars text = String.append pre (String c post) ->
  c = apostrophe \/ c = quote ->
  exists pre', pre = String.append pre' (String backslash "").
Proof.
  induction text as [|a t IH]; intros pre c post Heq Hc.
  - destruct pre; discriminate.
  - cbn [escape_chars] in Heq. unfold escaped_char in Heq.
    destruct (is_special a) eqn:Ea; cbn [String.append] in Heq.
    + destruct pre as [|p1 pre]; cbn [String.append] in Heq.
      * injection Heq as <- _. destruct Hc; discriminate.
      * injection Heq as <- Heq.
        destruct pre as [|p2 pre]; cbn [String.append] in Heq.
        -- now exists "".
        -- injection Heq as <- Heq.
           destruct (IH _ _ _ Heq Hc) as (pre' & ->).
           now exists (String backslash (String a pre')).
    + destruct pre as [|p1 pre]; cbn [String.append] in Heq.
      * injection Heq as <- _. destruct Hc; subst a; discriminate.
      * injection Heq as <- Heq.
        destruct (IH _ _ _ Heq Hc) as (pre' & ->).
        now exists (String a pre').
Qed.

(** X8: the text [escape_android_string] returns never starts with a
    bare [@] or [?]; after the [\@] or [\?] it may start with, it is
    made of characters that need no escape and of pairs of a backslash
    and a backslash, an apostrophe or a quote; so every apostrophe and
    every quote of it comes right after a backslash. *)
Theorem escaped_text_is_android_safe (text : string) :
  startswith "@" (escape_android_string text) = false /\
  startswith "?" (escape_android_string text) = false /\
  escape_pairs false (after_leading_escape (escape_android_string text))
  = true /\
  (forall pre c post,
     escape_android_string text = String.append pre (String c post) ->
     c = apostrophe \/ c = quote ->
     exists pre', pre = String.append pre' (String backslash "")).
Proof.
  rewrite escape_android_string_eq.
  destruct text as [|a t]; [repeat split; try reflexivity;
                            intros [|] ? ? ?; discriminate|].
  change (String.eqb (String a t) "") with false. cbv iota.
  destruct (orb (startswith "@" (escape_chars (String a t)))
                (startswith "?" (escape_chars (String a t)))) eqn:Est.
  - split; [reflexivity|]. split; [reflexivity|]. split.
    + destruct (escape_chars (String a t)) as [|c r] eqn:Ee; [discriminate|].
      cbn [startswith] in Est. cbn [after_leading_escape].
      rewrite Ascii.eqb_refl, Est. cbn [andb].
      pose proof (escape_chars_pairs (String a t)) as Hp. rewrite Ee in Hp.
      cbn [escape_pairs] in Hp.
      destruct (Ascii.eqb c backslash) eqn:Eb.
      * apply Ascii.eqb_eq in Eb. subst c. discriminate.
      * apply andb_true_iff in Hp. apply Hp.
    + intros pre c post Heq Hc.
      destruct pre as [|p pre]; cbn [String.append] in Heq.
      * injection Heq as <- _. destruct Hc; discriminate.
      * injection Heq as <- Heq.
        destruct (escape_chars_quoted (String a t) _ _ _ Heq Hc)
          as (pre' & ->).
        now exists (String backslash pre').
  - apply orb_false_iff in Est. destruct Est as [E1 E2].
    split; [exact E1|]. split; [exact E2|]. split.
    + pose proof (escape_chars_pairs (String a t)) as Hp.
      destruct (escape_chars (String a t)) as [|b [|c r]] eqn:Ee;
        [exact Hp | exact Hp |].
      cbn [after_leading_escape].
      destruct (Ascii.eqb b backslash) eqn:Eb; [|exact Hp].
      apply Ascii.eqb_eq in Eb. subst b.
      apply escape_chars_second in Ee as Hs.
      destruct (orb (Ascii.eqb c "@") (Ascii.eqb c "?")) eqn:Ec; [|exact Hp].
      apply orb_true_iff in Ec.
      destruct Ec as [Ec|Ec]; apply Ascii.eqb_eq in Ec; subst c; discriminate.
    + apply escape_chars_quoted.
Qed.

Lemma escaped_char_nonempty a : escaped_char a <> EmptyString.
Proof. unfold escaped_char. now destruct (is_special a). Qed.

Lemma escape_chars_injective t1 : forall t2,
  escape_chars t1 = escape_chars t2 -> t1 = t2.
Proof.
  induction t1 as [|a r1 IH]; intros [|b r2]; cbn [escape_chars];
    unfold escaped_char.
  - reflexivity.
  - destruct (is_special b); discriminate.
  - destruct (is_special a); discriminate.
  - destruct (is_special a) eqn:Ea, (is_special b) eqn:Eb;
      cbn [String.append].
    + intros [= -> H]. f_equal. now apply IH.
    + intros [= <- _]. discriminate.
    + intros [= -> _]. discriminate.
    + intros [= -> H]. f_equal. now apply IH.
Qed.

Lemma escape_chars_nonempty a t : escape_chars (String a t) <> EmptyString.
Proof.
  cbn [escape_chars]. unfold escaped_char. now destruct (is_special a).
Qed.

Lemma escape_injective (text1 text2 : string) :
  escape_android_string text1 = escape_android_string text2 ->
  text1 = text2.
Proof.
  rewrite !escape_android_string_eq.
  destruct text1 as [|a1 t1], text2 as [|a2 t2]; [reflexivity| | |].
  - change (String.eqb (String a2 t2) "") with false.
    change (String.eqb "" "") with true. cbv iota.
    pose proof (escape_chars_nonempty a2 t2).
    destruct (orb _ _); [discriminate|]. intros H'. now symmetry in H'.
  - change (String.eqb (String a1 t1) "") with false.
    change (String.eqb "" "") with true. cbv iota.
    pose proof (escape_chars_nonempty a1 t1).
    destruct (orb _ _); [discriminate | congruence].
  - change (String.eqb (String a1 t1) "") with false.
    change (String.eqb (String a2 t2) "") with false. cbv iota.
    destruct (orb (startswith "@" (escape_chars (String a1 t1)))
                  (startswith "?" (escape_chars (String a1 t1)))) eqn:E1,
             (orb (startswith "@" (escape_chars (String a2 t2)))
                  (startswith "?" (escape_chars (String a2 t2)))) eqn:E2.
    + intros [= H]. now apply escape_chars_injective.
    + intros H. exfalso. symmetry in H.
      destruct (escape_chars (String a1 t1)) as [|c r]; [discriminate|].
      apply escape_chars_second in H. cbn [startswith] in E1.
      apply orb_true_iff in E1.
      destruct E1 as [E|E]; apply Ascii.eqb_eq in E; subst c; discriminate.
    + intros H. exfalso.
      destruct (escape_chars (String a2 t2)) as [|c r]; [discriminate|].
      apply escape_chars_second in H. cbn [startswith] in E2.
      apply orb_true_iff in E2.
      destruct E2 as [E|E]; apply Ascii.eqb_eq in E; subst c; discriminate.
    + apply escape_chars_injective.
Qed.

(** X9: [escape_android_string] maps different texts to different
    texts: no translation is lost or merged with another by escaping. *)
Theorem escape_is_injective (text1 text2 : string) :
  escape_android_string text1 = escape_android_string text2 <->
  text1 = text2.
Proof.
  split; [apply escape_injective | now intros ->].
Qed.

(* ================================================================== *)
(** ** translate_with_context.py: which keys reach the provider *)
(* ================================================================== *)

Lemma and_then_outcome {A B} (m : Run A) (f : A -> Run B) :
  fst (and_then m f)
  = match fst m with
    | Done a => fst (f a)
    | SystemExit c => SystemExit c
    end.
Proof.
  destruct m as [[a|c] t]; cbn [and_then fst]; [|reflexivity].
  now destruct (f a).
Qed.

Lemma and_then_sent {A B} (m : Run A) (f : A -> Run B) :
  dispatched (snd (and_then m f))
  = dispatched (snd m)
    ++ match fst m with
       | Done a => dispatched (snd (f a))
       | SystemExit _ => []
       end.
Proof.
  destruct m as [[a|c] t]; cbn [and_then fst snd].
  - destruct (f a) as [r t']. cbn [snd]. apply dispatched_app.
  - now rewrite app_nil_r.
Qed.

Section Sending.

Variable build_multilang_prompt : string -> string -> Metadata -> option string.
Variable openai : Provider.
Variable T : Translator.

(** [translate_string] for a key that cannot be dispatched: no
    translations, no call, whatever the provider. *)
Lemma translate_string_not_dispatchable string_key dry_run :
  dispatchable build_multilang_prompt T string_key = false ->
  fst (translate_string build_multilang_prompt openai T string_key dry_run)
  = Done [] /\
  dispatched
    (snd (translate_string build_multilang_prompt openai T string_key dry_run))
  = [].
Proof.
  unfold dispatchable, translate_string.
  destruct (dict_get string_key (tr_metadata T)) as [m|]; [|now split].
  destruct (nonempty (dict_get_default string_key "" (tr_strings T)));
    cbn [andb negb]; [|now split].
  destruct (build_multilang_prompt string_key
              (dict_get_default string_key "" (tr_strings T)) m);
    [discriminate | now split].
Qed.

(** A dry run of [translate_string]: translations or none, no call. *)
Lemma translate_string_dry string_key :
  (exists translations,
     fst (translate_string build_multilang_prompt openai T string_key true)
     = Done translations) /\
  dispatched
    (snd (translate_string build_multilang_prompt openai T string_key true))
  = [].
Proof.
  unfold translate_string.
  destruct (dict_get string_key (tr_metadata T)) as [m|];
    [|split; [now eexists | reflexivity]].
  destruct (nonempty (dict_get_default string_key "" (tr_strings T)));
    cbn [negb]; [|split; [now eexists | reflexivity]].
  destruct (build_multilang_prompt string_key
              (dict_get_default string_key "" (tr_strings T)) m);
    (split; [now eexists | reflexivity]).
Qed.

(** With the provider configured, a dispatchable key costs one call. *)
Lemma translate_string_sends string_key :
  configured openai = true ->
  dispatchable build_multilang_prompt T string_key = true ->
  (exists translations,
     fst (translate_string build_multilang_prompt openai T string_key false)
     = Done translations) /\
  dispatched
    (snd (translate_string build_multilang_prompt openai T string_key false))
  = [string_key].
Proof.
  unfold configured, dispatchable, translate_string,
    translate_with_openai_structured.
  intros Hc Hd. apply andb_true_iff in Hc. destruct Hc as [H1 H2].
  destruct (dict_get string_key (tr_metadata T)) as [m|]; [|discriminate].
  destruct (nonempty (dict_get_default string_key "" (tr_strings T)));
    cbn [andb negb] in *; [|discriminate].
  destruct (build_multilang_prompt string_key
              (dict_get_default string_key "" (tr_strings T)) m) as [prompt|];
    [|discriminate].
  rewrite H1, H2. cbn [negb].
  destruct (chat openai string_key prompt) as [[|kv tr]| |].
  - destruct (filter _ (target_languages T));
      (split; [now eexists | reflexivity]).
  - destruct (filter _ (target_languages T));
      (split; [now eexists | reflexivity]).
  - split; [now eexists | reflexivity].
  - split; [now eexists | reflexivity].
Qed.

(** Without the package or the API key, a dispatchable key ends the
    run before any call. *)
Lemma translate_string_exits string_key :
  configured openai = false ->
  dispatchable build_multilang_prompt T string_key = true ->
  fst (translate_string build_multilang_prompt openai T string_key false)
  = SystemExit 1 /\
  dispatched
    (snd (translate_string build_multilang_prompt openai T string_key false))
  = [].
Proof.
  unfold configured, dispatchable, translate_string,
    translate_with_openai_structured.
  intros Hc Hd.
  destruct (dict_get string_key (tr_metadata T)) as [m|]; [|discriminate].
  destruct (nonempty (dict_get_default string_key "" (tr_strings T)));
    cbn [andb negb] in *; [|discriminate].
  destruct (build_multilang_prompt string_key
              (dict_get_default string_key "" (tr_strings T)) m) as [prompt|];
    [|discriminate].
  destruct (openai_installed openai); cbn [negb andb] in *.
  - rewrite Hc. now split.
  - now split.
Qed.

(** A call for a key means the key is dispatchable, the run is not dry
    and the provider is configured. *)
Lemma translate_string_sent string_key dry_run k :
  In k (dispatched
          (snd (translate_string build_multilang_prompt openai T string_key
                                 dry_run))) ->
  k = string_key /\ dry_run = false /\ configured openai = true /\
  dispatchable build_multilang_prompt T string_key = true.
Proof.
  intros Hin.
  destruct (translate_string_dispatched build_multilang_prompt openai T
              string_key dry_run k Hin) as [-> ->].
  split; [reflexivity|]. split; [reflexivity|].
  destruct (dispatchable build_multilang_prompt T string_key) eqn:Ed.
  - destruct (configured openai) eqn:Ec; [now split|].
    destruct (translate_string_exits string_key Ec Ed) as [_ H].
    rewrite H in Hin. destruct Hin.
  - destruct (translate_string_not_dispatchable string_key false Ed) as [_ H].
    rewrite H in Hin. destruct Hin.
Qed.

Lemma translate_keys_sent dry_run keys : forall i n st k,
  In k (dispatched
          (snd (translate_keys build_multilang_prompt openai T dry_run
                               keys i n st))) ->
  In k keys /\ dry_run = false /\ configured openai = true /\
  dispatchable build_multilang_prompt T k = true.
Proof.
  induction keys as [|key r IH]; intros i n st k Hin; [destruct Hin|].
  cbn [translate_keys] in Hin. rewrite !and_then_sent in Hin.
  cbn [log emit fst snd dispatched flat_map app] in Hin.
  apply in_app_or in Hin. destruct Hin as [Hin|Hin].
  - destruct (translate_string_sent _ _ _ Hin) as (-> & H).
    split; [now left | exact H].
  - destruct (fst (translate_string build_multilang_prompt openai T key
                                    dry_run)); [|destruct Hin].
    destruct (IH _ _ _ _ Hin) as [H1 H2]. split; [now right | exact H2].
Qed.

(** With the provider configured, the loop calls it once for every
    dispatchable key, in order. *)
Lemma translate_keys_sends keys : forall i n st,
  configured openai = true ->
  dispatched
    (snd (translate_keys build_multilang_prompt openai T false keys i n st))
  = filter (dispatchable build_multilang_prompt T) keys.
Proof.
  induction keys as [|key r IH]; intros i n st Hc; [reflexivity|].
  cbn [translate_keys filter]. rewrite !and_then_sent.
  cbn [log emit fst snd dispatched flat_map app].
  destruct (dispatchable build_multilang_prompt T key) eqn:Ed.
  - destruct (translate_string_sends key Hc Ed) as [(tr & Hf) Hs].
    rewrite Hf, Hs. cbn [app]. f_equal. now apply IH.
  - destruct (translate_string_not_dispatchable key false Ed) as [Hf Hs].
    rewrite Hf, Hs. cbn [app]. now apply IH.
Qed.

(** Without the package or the API key, the loop ends the run at the
    first dispatchable key; if there is none, it fails every key. *)
Lemma translate_keys_unconfigured keys : forall i n st,
  configured openai = false ->
  fst (translate_keys build_multilang_prompt openai T false keys i n st)
  = (if existsb (dispatchable build_multilang_prompt T) keys
     then SystemExit 1
     else Done (mkTally (all_translations st) (failed_keys st ++ keys)
                        (skipped_keys st))).
Proof.
  induction keys as [|key r IH]; intros i n st Hc.
  - cbn. rewrite app_nil_r. now destruct st.
  - cbn [translate_keys existsb]. rewrite !and_then_outcome.
    cbn [log emit fst].
    destruct (dispatchable build_multilang_prompt T key) eqn:Ed.
    + destruct (translate_string_exits key Hc Ed) as [Hf _]. now rewrite Hf.
    + destruct (translate_string_not_dispatchable key false Ed) as [Hf _].
      rewrite Hf. cbn [orb]. rewrite IH by exact Hc.
      destruct (existsb _ r); [reflexivity|].
      cbn [tally_one all_translations failed_keys skipped_keys].
      now rewrite <- app_assoc.
Qed.

End Sending.

Lemma report_run T st :
  fst (report T st) = Done tt /\ dispatched (snd (report T st)) = [].
Proof.
  destruct (report_done T st) as (t & H & _ & _ & Hd). now rewrite H.
Qed.

Lemma translate_all_outcome build_multilang_prompt openai T files
    specific_key dry_run force :
  fst (translate_all build_multilang_prompt openai T files specific_key
                     dry_run force)
  = match given specific_key with
    | Some key =>
        match fst (translate_string build_multilang_prompt openai T key
                                    dry_run) with
        | Done translations =>
            Done (tally_one key translations (mkTally [] [] []))
        | SystemExit c => SystemExit c
        end
    | None =>
        match fst (translate_keys build_multilang_prompt openai T dry_run
                     (selected_keys T files dry_run force) 1
                     (List.length (selected_keys T files dry_run force))
                     (mkTally [] [] [])) with
        | Done st =>
            Done (mkTally (all_translations st) (failed_keys st)
                    (if andb (negb force) (negb dry_run)
                     then complete_strings_of T files else []))
        | SystemExit c => SystemExit c
        end
    end.
Proof.
  unfold translate_all. rewrite and_then_outcome.
  destruct (given specific_key) as [key|].
  - rewrite and_then_outcome.
    destruct (fst (translate_string build_multilang_prompt openai T key
                                    dry_run)); [|reflexivity].
    cbn [done fst]. rewrite and_then_outcome.
    now rewrite (proj1 (report_run T _)).
  - destruct (keys_to_translate_done T files dry_run force) as (t0 & -> & _).
    rewrite and_then_outcome. cbn [fst snd]. rewrite and_then_outcome.
    destruct (fst (translate_keys _ _ _ _ _ _ _ _)); [|reflexivity].
    cbn [done fst]. rewrite and_then_outcome.
    now rewrite (proj1 (report_run T _)).
Qed.

Lemma translate_all_sent build_multilang_prompt openai T files
    specific_key dry_run force :
  dispatched
    (snd (translate_all build_multilang_prompt openai T files specific_key
                        dry_run force))
  = match given specific_key with
    | Some key =>
        dispatched
          (snd (translate_string build_multilang_prompt openai T key dry_run))
    | None =>
        dispatched
          (snd (translate_keys build_multilang_prompt openai T dry_run
                  (selected_keys T files dry_run force) 1
                  (List.length (selected_keys T files dry_run force))
                  (mkTally [] [] [])))
    end.
Proof.
  unfold translate_all. rewrite and_then_sent.
  assert (Hrep : forall st,
    dispatched (snd (report T st >> done st)) = []).
  { intros st. rewrite and_then_sent, (proj2 (report_run T st)).
    now destruct (fst (report T st)). }
  destruct (given specific_key) as [key|].
  - rewrite and_then_outcome, and_then_sent.
    destruct (fst (translate_string build_multilang_prompt openai T key
                                    dry_run)).
    + cbn [done fst snd dispatched flat_map]. rewrite Hrep.
      now rewrite !app_nil_r.
    + now rewrite !app_nil_r.
  - destruct (keys_to_translate_done T files dry_run force) as (t0 & -> & Ht0).
    rewrite and_then_outcome, and_then_sent. cbn [fst snd]. rewrite Ht0.
    rewrite and_then_outcome, and_then_sent. cbn [app].
    destruct (fst (translate_keys _ _ _ _ _ _ _ _)).
    + cbn [done fst snd dispatched flat_map]. rewrite Hrep.
      now rewrite !app_nil_r.
    + now rewrite !app_nil_r.
Qed.

Lemma translate_main_sent build_multilang_prompt openai T files
    specific_key save_output dry_run force :
  session_dispatches
    (translate_main build_multilang_prompt openai T files specific_key
                    save_output dry_run force)
  = match target_languages T with
    | [] => []
    | _ => dispatched
             (snd (translate_all build_multilang_prompt openai T files
                                 specific_key dry_run force))
    end.
Proof.
  unfold session_dispatches, translate_main.
  destruct (target_languages T) as [|l ls]; [reflexivity|].
  destruct (translate_all build_multilang_prompt openai T files specific_key
                          dry_run force) as [[st|c] t]; [|reflexivity].
  destruct (all_translations st) as [|kt all].
  - cbn [snd]. rewrite dispatched_app. cbn. now rewrite app_nil_r.
  - destruct (andb (negb dry_run) save_output).
    + pose proof (save_translations_logs T files (kt :: all)) as Hs.
      destruct (save_translations T files (kt :: all)) as [files' t'].
      cbn [snd] in *. rewrite !dispatched_app, Hs. cbn.
      now rewrite app_nil_r.
    + cbn [snd]. rewrite dispatched_app. cbn. now rewrite app_nil_r.
Qed.

Lemma translate_main_outcome build_multilang_prompt openai T files
    specific_key save_output dry_run force :
  session_outcome
    (translate_main build_multilang_prompt openai T files specific_key
                    save_output dry_run force)
  = match target_languages T with
    | [] => Done tt
    | _ => match fst (translate_all build_multilang_prompt openai T files
                                    specific_key dry_run force) with
           | Done _ => Done tt
           | SystemExit c => SystemExit c
           end
    end.
Proof.
  unfold session_outcome, translate_main.
  destruct (target_languages T) as [|l ls]; [reflexivity|].
  destruct (translate_all build_multilang_prompt openai T files specific_key
                          dry_run force) as [[st|c] t]; [|reflexivity].
  destruct (all_translations st) as [|kt all]; [reflexivity|].
  destruct (andb (negb dry_run) save_output); [|reflexivity].
  now destruct (save_translations T files (kt :: all)).
Qed.

(** The files are written only by a run that is not dry, has
    [--output], does not end in [sys.exit] and has translations. *)
Lemma translate_main_writes build_multilang_prompt openai T files
    specific_key save_output dry_run force :
  fst (translate_main build_multilang_prompt openai T files specific_key
                      save_output dry_run force) <> files ->
  dry_run = false /\ save_output = true /\
  exists st, fst (translate_all build_multilang_prompt openai T files
                                specific_key dry_run force) = Done st /\
             all_translations st <> [].
Proof.
  unfold translate_main.
  destruct (target_languages T) as [|l ls]; [now intros H|].
  destruct (translate_all build_multilang_prompt openai T files specific_key
                          dry_run force) as [[st|c] t]; [|now intros H].
  destruct (all_translations st) as [|kt all] eqn:Ea; [now intros H|].
  destruct dry_run, save_output; cbn [negb andb]; try (now intros H).
  intros _. split; [reflexivity|]. split; [reflexivity|].
  exists st. split; [reflexivity | now rewrite Ea].
Qed.

(** X10: with the provider configured, a run that is not dry calls it
    once for every key it goes through that has metadata, a source text
    and a prompt, in order, and for no other key. *)
Theorem session_sends_dispatchable_keys
    (build_multilang_prompt : string -> string -> Metadata -> option string)
    (openai : Provider) (T : Translator) (files : LocaleFiles)
    (specific_key : option string) (save_output force : bool) :
  configured openai = true ->
  target_languages T <> [] ->
  session_dispatches
    (translate_main build_multilang_prompt openai T files specific_key
                    save_output false force)
  = filter (dispatchable build_multilang_prompt T)
           (session_keys T files specific_key false force).
Proof.
  intros Hc Hne. rewrite translate_main_sent.
  destruct (target_languages T) as [|l ls]; [congruence|].
  rewrite translate_all_sent. unfold session_keys.
  destruct (given specific_key) as [key|].
  - cbn [filter].
    destruct (dispatchable build_multilang_prompt T key) eqn:Ed.
    + now destruct (translate_string_sends build_multilang_prompt openai T
                      key Hc Ed) as [_ ->].
    + now destruct (translate_string_not_dispatchable build_multilang_prompt
                      openai T key false Ed) as [_ ->].
  - now apply translate_keys_sends.
Qed.

Lemma session_sends_dispatchable_keys_witness :
  configured example_provider = true /\
  target_languages example_translator <> [] /\
  session_dispatches
    (translate_main example_prompt example_provider example_translator
                    example_files None true false false)
  = filter (dispatchable example_prompt example_translator)
           (session_keys example_translator example_files None false false) /\
  session_keys example_translator example_files None false false = ["bye"].
Proof.
  split; [reflexivity|]. split; [discriminate|].
  split; [|reflexivity].
  apply session_sends_dispatchable_keys; [reflexivity | discriminate].
Defined.

(** X11: [--force] and a specific key do not look at what the locale
    files hold: with [--force] every documented key with a source text
    and a prompt is sent, and with a specific key exactly that key is
    sent, also when it is complete in the files. *)
Theorem force_and_specific_key_ignore_existing
    (build_multilang_prompt : string -> string -> Metadata -> option string)
    (openai : Provider) (T : Translator) (files : LocaleFiles)
    (save_output force : bool) (K : string) :
  configured openai = true ->
  target_languages T <> [] ->
  dispatchable build_multilang_prompt T K = true ->
  In K (session_dispatches
          (translate_main build_multilang_prompt openai T files None
                          save_output false true)) /\
  (nonempty K = true ->
   session_dispatches
     (translate_main build_multilang_prompt openai T files (Some K)
                     save_output false force) = [K]).
Proof.
  intros Hc Hne Hd. rewrite !translate_main_sent.
  destruct (target_languages T) as [|l ls]; [congruence|].
  rewrite !translate_all_sent. split.
  - cbn [given]. rewrite translate_keys_sends by exact Hc.
    apply filter_In. split; [|exact Hd].
    unfold selected_keys. apply dict_in_iff. unfold dispatchable in Hd.
    unfold dict_in. now destruct (dict_get K (tr_metadata T)).
  - intros HK. cbn [given]. rewrite HK.
    now destruct (translate_string_sends build_multilang_prompt openai T
                    K Hc Hd) as [_ ->].
Qed.

Lemma force_and_specific_key_ignore_existing_witness :
  configured example_provider = true /\
  target_languages example_translator <> [] /\
  dispatchable example_prompt example_translator "hello" = true /\
  complete_in example_translator complete_files "hello" = true /\
  In "hello"
     (session_dispatches
        (translate_main example_prompt example_provider example_translator
                        complete_files None true false true)) /\
  session_dispatches
    (translate_main example_prompt example_provider example_translator
                    complete_files (Some "hello") true false false)
  = ["hello"].
Proof.
  split; [reflexivity|]. split; [discriminate|]. split; [reflexivity|].
  split; [reflexivity|].
  destruct (force_and_specific_key_ignore_existing example_prompt
              example_provider example_translator complete_files true false
              "hello" eq_refl) as [H1 H2]; [discriminate | reflexivity|].
  split; [exact H1 | now apply H2].
Defined.

Lemma session_sent_inv
    (build_multilang_prompt : string -> string -> Metadata -> option string)
    (openai : Provider) (T : Translator) (files : LocaleFiles)
    (specific_key : option string) (save_output dry_run force : bool)
    (k : string) :
  In k (session_dispatches
          (translate_main build_multilang_prompt openai T files specific_key
                          save_output dry_run force)) ->
  In k (session_keys T files specific_key dry_run force) /\
  dispatchable build_multilang_prompt T k = true /\
  dry_run = false /\ configured openai = true /\ target_languages T <> [].
Proof.
  rewrite translate_main_sent.
  destruct (target_languages T) as [|l ls]; [intros []|].
  rewrite translate_all_sent. unfold session_keys.
  destruct (given specific_key) as [key|]; intros Hin.
  - destruct (translate_string_sent _ _ _ _ _ _ Hin) as (-> & H1 & H2 & H3).
    repeat split; auto; [now left | discriminate].
  - destruct (translate_keys_sent _ _ _ _ _ _ _ _ _ Hin) as (H0 & H1 & H2 & H3).
    repeat split; auto. discriminate.
Qed.

(** X12: a call reaches the provider only for a key the session goes
    through that has metadata, a source text and a prompt, and only in
    a run that is not dry, with the package installed and the API key
    set, and with a target language. *)
Theorem nothing_else_is_sent
    (build_multilang_prompt : string -> string -> Metadata -> option string)
    (openai : Provider) (T : Translator) (files : LocaleFiles)
    (specific_key : option string) (save_output dry_run force : bool)
    (k : string) :
  In k (session_dispatches
          (translate_main build_multilang_prompt openai T files specific_key
                          save_output dry_run force)) ->
  In k (session_keys T files specific_key dry_run force) /\
  dispatchable build_multilang_prompt T k = true /\
  dry_run = false /\ configured openai = true /\ target_languages T <> [].
Proof.
  apply session_sent_inv.
Qed.

Lemma nothing_else_is_sent_witness :
  In "bye"
     (session_dispatches
        (translate_main example_prompt example_provider example_translator
                        example_files None true false false)) /\
  dispatchable example_prompt example_translator "bye" = true /\
  configured example_provider = true.
Proof.
  assert (H : In "bye"
     (session_dispatches
        (translate_main example_prompt example_provider example_translator
                        example_files None true false false)))
    by (now left).
  split; [exact H|].
  destruct (nothing_else_is_sent _ _ _ _ _ _ _ _ _ H) as (_ & H1 & _ & H2 & _).
  now split.
Defined.

Lemma session_sends_nothing
    (build_multilang_prompt : string -> string -> Metadata -> option string)
    (openai : Provider) (T : Translator) (files : LocaleFiles)
    (specific_key : option string) (save_output dry_run force : bool) :
  dry_run = true \/ configured openai = false ->
  session_dispatches
    (translate_main build_multilang_prompt openai T files specific_key
                    save_output dry_run force) = [].
Proof.
  intros H.
  destruct (session_dispatches _) as [|k t] eqn:E; [reflexivity|].
  exfalso.
  destruct (session_sent_inv build_multilang_prompt openai T files
              specific_key save_output dry_run force k)
    as (_ & _ & Hdry & Hc & _); [rewrite E; now left|].
  destruct H; congruence.
Qed.

Lemma translate_main_keeps build_multilang_prompt openai T files
    specific_key save_output dry_run force :
  (forall st,
     fst (translate_all build_multilang_prompt openai T files specific_key
                        dry_run force) = Done st ->
     dry_run = true \/ all_translations st = []) ->
  fst (translate_main build_multilang_prompt openai T files specific_key
                      save_output dry_run force) = files.
Proof.
  intros H. unfold translate_main.
  destruct (target_languages T) as [|l ls]; [reflexivity|].
  destruct (translate_all build_multilang_prompt openai T files specific_key
                          dry_run force) as [[st|c] t]; [|reflexivity].
  destruct (H st eq_refl) as [-> | ->]; [|reflexivity].
  now destruct (all_translations st).
Qed.

(** X13: a dry run calls no provider, writes no locale file and never
    ends in [sys.exit], whatever the other options are and whether or
    not the package and the API key are there. *)
Theorem dry_run_calls_and_writes_nothing
    (build_multilang_prompt : string -> string -> Metadata -> option string)
    (openai : Provider) (T : Translator) (files : LocaleFiles)
    (specific_key : option string) (save_output force : bool) :
  fst (translate_main build_multilang_prompt openai T files specific_key
                      save_output true force) = files /\
  session_dispatches
    (translate_main build_multilang_prompt openai T files specific_key
                    save_output true force) = [] /\
  session_outcome
    (translate_main build_multilang_prompt openai T files specific_key
                    save_output true force) = Done tt.
Proof.
  split; [apply translate_main_keeps; now left|].
  split; [apply session_sends_nothing; now left|].
  rewrite translate_main_outcome, translate_all_outcome.
  destruct (target_languages T) as [|l ls]; [reflexivity|].
  destruct (given specific_key) as [key|].
  - destruct (translate_string_dry build_multilang_prompt openai T key)
      as [(tr & Htr) _]. now rewrite Htr.
  - destruct (translate_keys_done build_multilang_prompt openai T true
                eq_refl (selected_keys T files true force) 1
                (List.length (selected_keys T files true force))
                (mkTally [] [] [])) as (t & Ht & _).
    now rewrite Ht.
Qed.

(** X14: without the package or the API key, a run that is not dry
    calls no provider and writes no locale file; it ends in
    [sys.exit(1)] when one of its keys has metadata, a source text and
    a prompt, and goes to its end otherwise. *)
Theorem unconfigured_session_exits_before_any_call
    (build_multilang_prompt : string -> string -> Metadata -> option string)
    (openai : Provider) (T : Translator) (files : LocaleFiles)
    (specific_key : option string) (save_output force : bool) :
  configured openai = false ->
  target_languages T <> [] ->
  fst (translate_main build_multilang_prompt openai T files specific_key
                      save_output false force) = files /\
  session_dispatches
    (translate_main build_multilang_prompt openai T files specific_key
                    save_output false force) = [] /\
  session_outcome
    (translate_main build_multilang_prompt openai T files specific_key
                    save_output false force)
  = (if existsb (dispatchable build_multilang_prompt T)
                (session_keys T files specific_key false force)
     then SystemExit 1 else Done tt).
Proof.
  intros Hc Hne.
  assert (Hall :
    fst (translate_all build_multilang_prompt openai T files specific_key
                       false force)
    = (if existsb (dispatchable build_multilang_prompt T)
                  (session_keys T files specific_key false force)
       then SystemExit 1
       else Done (mkTally []
                    (session_keys T files specific_key false force)
                    (match given specific_key with
                     | Some _ => []
                     | None => if andb (negb force) (negb false)
                               then complete_strings_of T files else []
                     end)))).
  { rewrite translate_all_outcome. unfold session_keys.
    destruct (given specific_key) as [key|].
    - cbn [existsb].
      destruct (dispatchable build_multilang_prompt T key) eqn:Ed.
      + now destruct (translate_string_exits build_multilang_prompt openai T
                        key Hc Ed) as [-> _].
      + now destruct (translate_string_not_dispatchable build_multilang_prompt
                        openai T key false Ed) as [-> _].
    - rewrite translate_keys_unconfigured by exact Hc.
      now destruct (existsb _ _). }
  split.
  { apply translate_main_keeps. intros st Hst. right. rewrite Hall in Hst.
    destruct (existsb _ _); [discriminate|]. now injection Hst as <-. }
  split; [apply session_sends_nothing; now right|].
  rewrite translate_main_outcome, Hall.
  destruct (target_languages T) as [|l ls]; [congruence|].
  now destruct (existsb _ _).
Qed.

Lemma unconfigured_session_exits_before_any_call_witness :
  configured keyless_provider = false /\
  target_languages example_translator <> [] /\
  existsb (dispatchable example_prompt example_translator)
          (session_keys example_translator example_files None false false)
  = true /\
  session_outcome
    (translate_main example_prompt keyless_provider example_translator
                    example_files None true false false) = SystemExit 1 /\
  fst (translate_main example_prompt keyless_provider example_translator
                      example_files None true false false) = example_files.
Proof.
  split; [reflexivity|]. split; [discriminate|]. split; [reflexivity|].
  destruct (unconfigured_session_exits_before_any_call example_prompt
              keyless_provider example_translator example_files None true
              false eq_refl) as (H1 & _ & H3); [discriminate|].
  split; [exact H3 | exact H1].
Defined.

(* ================================================================== *)
(** ** translate_with_context.py: a locale whose write failed *)
(* ================================================================== *)

Lemma read_elems_has elems e :
  In e elems -> nonempty (elem_name e) = true ->
  dict_in (elem_name e) (read_elems elems) = true.
Proof.
  induction elems as [|e0 elems IH] using rev_ind; intros Hin Hn;
    [destruct Hin|].
  rewrite read_elems_snoc. apply in_app_or in Hin.
  destruct Hin as [Hin|[->|[]]].
  - specialize (IH Hin Hn). destruct (nonempty (elem_name e0)); [|exact IH].
    unfold dict_in in *. rewrite dict_get_set.
    now destruct (String.eqb (elem_name e) (elem_name e0)).
  - rewrite Hn. unfold dict_in. now rewrite dict_get_set_eq.
Qed.

(** A key without a value in the file of a target locale is sent to the
    provider, when it can be sent at all. *)
Lemma incomplete_key_is_sent
    (build_multilang_prompt : string -> string -> Metadata -> option string)
    (openai : Provider) (T : Translator) (files : LocaleFiles)
    (K l : string) :
  configured openai = true ->
  In l (target_languages T) ->
  dispatchable build_multilang_prompt T K = true ->
  nonempty K = true ->
  stored_value files l K = None ->
  In K (session_dispatches
          (translate_main build_multilang_prompt openai T files None true
                          false false)).
Proof.
  intros Hc Hl Hd Hn Hv. rewrite translate_main_sent.
  destruct (target_languages T) as [|l0 ls] eqn:Et; [destruct Hl|].
  rewrite translate_all_sent. cbn [given].
  rewrite translate_keys_sends by exact Hc.
  apply filter_In. split; [|exact Hd].
  unfold selected_keys. cbn [negb andb]. apply filter_In. split.
  - apply dict_in_iff. unfold dict_in. unfold dispatchable in Hd.
    now destruct (dict_get K (tr_metadata T)).
  - apply negb_true_iff, str_in_false_iff. intros Hin.
    unfold complete_strings_of in Hin. apply filter_In in Hin.
    destruct Hin as [_ Hcov].
    destruct (dict_get K (fst (scan_locales files (target_languages T) [])))
      as [present|] eqn:Ep; [|discriminate].
    unfold covers_targets in Hcov. rewrite forallb_forall in Hcov.
    rewrite <- Et in Hl. specialize (Hcov l Hl).
    assert (Hhas : has_locale
                     (fst (scan_locales files (target_languages T) []))
                     K l = true).
    { unfold has_locale. now rewrite Ep. }
    destruct (scan_locales_from _ _ _ _ _ Hhas)
      as [H|(elems & rest & e & Hf & He & Hk & _)]; [discriminate|].
    unfold stored_value in Hv. rewrite Hf in Hv. cbn [load_existing] in Hv.
    subst K. pose proof (read_elems_has elems e He Hn) as Hin.
    unfold dict_in in Hin. now rewrite Hv in Hin.
Qed.

(** X29: a locale whose write failed is tried again.  When the file of
    a target locale has no entry for a key that can be sent, and a name
    or a text of the mapping the first run builds for that locale holds
    a character XML forbids, the first run calls the provider for the
    key and leaves the file of the locale as it was, and the same
    session run over the files it left calls the provider for the key
    again. *)
Theorem failed_locale_is_tried_again
    (build_multilang_prompt : string -> string -> Metadata -> option string)
    (openai : Provider) (T : Translator) (files : LocaleFiles)
    (K l : string) :
  configured openai = true ->
  In l (target_languages T) ->
  dispatchable build_multilang_prompt T K = true ->
  nonempty K = true ->
  stored_value files l K = None ->
  writable (merged files
              (first_run_translations build_multilang_prompt openai T files)
              (android_locale_of l)) = false ->
  let first := translate_main build_multilang_prompt openai T files None true
                              false false in
  In K (session_dispatches first) /\
  dict_get (android_locale_of l) (fst first)
  = dict_get (android_locale_of l) files /\
  In K (session_dispatches
          (translate_main build_multilang_prompt openai T (fst first) None
                          true false false)).
Proof.
  intros Hc Hl Hd Hn Hv Hw first.
  assert (Hkeep : dict_get (android_locale_of l) (fst first)
                  = dict_get (android_locale_of l) files).
  { unfold first. rewrite translate_main_files.
    - apply unsaved_file. right. exact Hw.
    - exact Hc.
    - intros E. now rewrite E in Hl. }
  split; [now apply (incomplete_key_is_sent _ _ _ _ K l)|].
  split; [exact Hkeep|].
  apply (incomplete_key_is_sent _ _ _ _ K l); auto.
  unfold stored_value. now rewrite Hkeep.
Qed.

Lemma failed_locale_is_tried_again_witness :
  configured control_provider = true /\
  In "fr" (target_languages example_translator) /\
  dispatchable example_prompt example_translator "bye" = true /\
  stored_value example_files "fr" "bye" = None /\
  writable (merged example_files
              (first_run_translations example_prompt control_provider
                                      example_translator example_files)
              "fr") = false /\
  session_dispatches
    (translate_main example_prompt control_provider example_translator
                    example_files None true false false) = ["bye"] /\
  In "bye"
     (session_dispatches
        (translate_main example_prompt control_provider example_translator
           (fst (translate_main example_prompt control_provider
                                example_translator example_files None true
                                false false))
           None true false false)).
Proof.
  split; [reflexivity|]. split; [now left|]. split; [reflexivity|].
  split; [reflexivity|]. split; [reflexivity|]. split; [reflexivity|].
  exact (proj2 (proj2 (failed_locale_is_tried_again example_prompt
                         control_provider example_translator example_files
                         "bye" "fr" eq_refl (or_introl eq_refl) eq_refl
                         eq_refl eq_refl eq_refl))).
Defined.

(* ================================================================== *)
(** ** translate_with_context.py: the locale files [save_translations] writes *)
(* ================================================================== *)


Lemma sorted_NoDup l : NoDup l -> NoDup (sorted l).
Proof.
  intros H. eapply Permutation_NoDup; [|exact H].
  apply Permutation_sym, sort_on_perm.
Qed.



(* ================================================================== *)
(** ** cleanup_orphaned_metadata.py: after the cleanup *)
(* ================================================================== *)

Lemma remove_from_index_NoDup o : forall cats,
  NoDup (dict_keys cats) -> NoDup (dict_keys (remove_from_index o cats)).
Proof.
  unfold remove_from_index.
  induction o as [|[c ks] o IH]; intros cats Hnd; [exact Hnd|].
  cbn [fold_left fst snd]. apply IH.
  destruct (dict_get c cats) as [keys|]; [|exact Hnd].
  destruct (filter _ keys);
    [now apply dict_del_NoDup | now apply dict_set_NoDup].
Qed.

(** The directory an [--execute] run leaves. *)
Lemma cleanup_exec_disk mtime argv d xml index o :
  index_json d = Some index ->
  is_ok (touch_index_metadata mtime (other_fields index)) = true ->
  str_in "--execute" argv = true ->
  fst (find_orphaned_metadata d xml) = Ok o ->
  NoDup (dict_keys o) ->
  exists index2,
    fst (fst (cleanup_main mtime argv d xml)) = Ok tt /\
    index_json (snd (fst (cleanup_main mtime argv d xml))) = Some index2 /\
    categories index2 = remove_from_index o (categories index) /\
    forall c k,
      in_shard (snd (fst (cleanup_main mtime argv d xml))) c k
      = andb (in_shard d c k) (negb (listed o c k)).
Proof.
  intros Hi Htouch Hexec Hfind Ho. unfold cleanup_main. rewrite Hexec.
  cbn [negb]. destruct (find_orphaned_metadata d xml) as [r out0].
  cbn [fst] in Hfind. subst r. destruct o as [|co o'] eqn:Eo.
  - exists index. cbn [fst snd]. split; [reflexivity|].
    split; [exact Hi|]. split; [reflexivity|].
    intros c k. unfold listed. cbn. now rewrite andb_true_r.
  - rewrite <- Eo in *.
    pose proof (remove_from_shards_exec o (category_yaml d) 0 [] Ho) as Hy.
    unfold remove_orphaned_metadata. cbn [negb].
    destruct (remove_from_shards false o (category_yaml d) 0 [])
      as [[yaml' total] out'] eqn:Erun.
    cbn [fst] in Hy. rewrite Hi.
    destruct (touch_index_metadata mtime (other_fields index)) as [other|e];
      [|discriminate].
    rewrite Eo. cbn [fst snd]. eexists. split; [reflexivity|].
    split; [reflexivity|]. cbn [categories]. rewrite <- Eo.
    split; [reflexivity|].
    intros c k. unfold in_shard. cbn [category_yaml]. apply Hy.
Qed.

(** The lists [find_orphaned_metadata] returns are not empty. *)
Lemma find_orphaned_lists xs cats : forall acc,
  (forall c ks, In (c, ks) acc -> ks <> []) ->
  forall c ks,
    In (c, ks)
       (fold_left
          (fun (orphaned_by_category : dict (list string)) cks =>
             match orphaned_in xs (snd cks) with
             | [] => orphaned_by_category
             | orphaned => dict_set (fst cks) orphaned orphaned_by_category
             end)
          cats acc) ->
    ks <> [].
Proof.
  induction cats as [|[c0 keys] cats IH]; intros acc Hacc c ks; [apply Hacc|].
  cbn [fold_left fst snd]. apply IH.
  destruct (orphaned_in xs keys) as [|k0 r] eqn:E; [exact Hacc|].
  intros c' ks' Hin. apply In_dict_set in Hin.
  destruct Hin as [[_ ->]|Hin]; [discriminate | now apply (Hacc c')].
Qed.

Lemma listed_nowhere o :
  (forall c ks, In (c, ks) o -> ks <> []) ->
  (forall c k, listed o c k = false) ->
  o = [].
Proof.
  intros Hne Hl. destruct o as [|[c ks] o]; [reflexivity|]. exfalso.
  destruct ks as [|k ks]; [apply (Hne c []); [now left | reflexivity]|].
  specialize (Hl c k). unfold listed in Hl. cbn [dict_get] in Hl.
  rewrite String.eqb_refl in Hl. cbn [str_in existsb] in Hl.
  now rewrite String.eqb_refl in Hl.
Qed.

Lemma find_orphaned_nothing d xml index :
  index_json d = Some index ->
  unique_keys (categories index) = true ->
  (forall c k, in_index d c k = true ->
               str_in k (fst (get_strings_from_xml xml)) = true) ->
  fst (find_orphaned_metadata d xml) = Ok [].
Proof.
  intros Hi Hu Hall.
  destruct (find_orphaned_ok d xml index Hi Hu) as (o & Hfind & Ho & Hl).
  rewrite Hfind. f_equal. apply listed_nowhere.
  - unfold find_orphaned_metadata in Hfind. rewrite Hi in Hfind.
    destruct (get_strings_from_xml xml) as [xs out0]. cbn [fst] in Hfind.
    injection Hfind as <-. apply find_orphaned_lists. intros c ks [].
  - intros c k. rewrite Hl. destruct (in_index d c k) eqn:E; [|reflexivity].
    now rewrite (Hall c k E).
Qed.

(** X16: after a run with [--execute], a second scan of the same
    directory against the same [strings.xml] finds no orphaned entry: a
    second run, dry or not, reports none and leaves the directory as it
    is. *)
Theorem cleanup_leaves_no_orphan (mtime : string) (argv : list string)
    (d : Disk) (xml : option (list StringElem)) (index : Index) :
  index_json d = Some index ->
  unique_keys (categories index) = true ->
  is_ok (touch_index_metadata mtime (other_fields index)) = true ->
  str_in "--execute" argv = true ->
  fst (fst (cleanup_main mtime argv d xml)) = Ok tt /\
  fst (find_orphaned_metadata (snd (fst (cleanup_main mtime argv d xml))) xml)
  = Ok [] /\
  forall mtime' argv',
    snd (fst (cleanup_main mtime' argv'
                           (snd (fst (cleanup_main mtime argv d xml))) xml))
    = snd (fst (cleanup_main mtime argv d xml)) /\
    In NoOrphanedFound
       (snd (cleanup_main mtime' argv'
                          (snd (fst (cleanup_main mtime argv d xml))) xml)).
Proof.
  intros Hi Hu Htouch Hexec.
  destruct (find_orphaned_ok d xml index Hi Hu) as (o & Hfind & Ho & Hl).
  destruct (cleanup_exec_disk mtime argv d xml index o Hi Htouch Hexec Hfind Ho)
    as (index2 & Hok & Hi2 & Hc2 & _).
  set (d2 := snd (fst (cleanup_main mtime argv d xml))) in *.
  assert (Hnone : fst (find_orphaned_metadata d2 xml) = Ok []).
  { apply (find_orphaned_nothing d2 xml index2 Hi2).
    - apply unique_keys_NoDup. rewrite Hc2. apply remove_from_index_NoDup.
      now apply unique_keys_NoDup.
    - intros c k. rewrite (in_index_listed d2 index2 c k Hi2), Hc2.
      rewrite remove_from_index_listed by exact Ho.
      rewrite Hl, (in_index_listed d index c k Hi).
      destruct (listed (categories index) c k),
               (str_in k (fst (get_strings_from_xml xml))); auto. }
  split; [exact Hok|]. split; [exact Hnone|].
  intros mtime' argv'. unfold cleanup_main.
  destruct (find_orphaned_metadata d2 xml) as [r out0]. cbn [fst] in Hnone.
  subst r. cbn [fst snd]. split; [reflexivity|].
  apply in_or_app. right. apply in_or_app. right. now left.
Qed.

Lemma cleanup_leaves_no_orphan_witness :
  index_json orphan_disk
  = Some (mkIndex [("auth", ["gone"; "sign_in"])] [] 2 2 "2025-01-01" []) /\
  str_in "--execute" ["--execute"] = true /\
  fst (find_orphaned_metadata orphan_disk orphan_xml)
  = Ok [("auth", ["gone"])] /\
  fst (find_orphaned_metadata
         (snd (fst (cleanup_main "0" ["--execute"] orphan_disk orphan_xml)))
         orphan_xml) = Ok [].
Proof.
  split; [reflexivity|]. split; [reflexivity|]. split; [reflexivity|].
  exact (proj1 (proj2 (cleanup_leaves_no_orphan "0" ["--execute"] orphan_disk
                         orphan_xml _ eq_refl eq_refl eq_refl eq_refl))).
Defined.

(** X17: when [strings.xml] is not there, every key of the index counts
    as orphaned: the scan reports the missing file and lists all the
    keys the index lists, and a run with [--execute] leaves no key in
    the index and takes the entry of every listed key out of its
    category's shard. *)
Theorem missing_strings_file_orphans_every_key (mtime : string)
    (argv : list string) (d : Disk) (index : Index) :
  index_json d = Some index ->
  unique_keys (categories index) = true ->
  is_ok (touch_index_metadata mtime (other_fields index)) = true ->
  exists o,
    find_orphaned_metadata d None = (Ok o, [StringsFileNotFound]) /\
    (forall c k, listed o c k = in_index d c k) /\
    (str_in "--execute" argv = true ->
     fst (fst (cleanup_main mtime argv d None)) = Ok tt /\
     forall c k,
       in_index (snd (fst (cleanup_main mtime argv d None))) c k = false /\
       in_shard (snd (fst (cleanup_main mtime argv d None))) c k
       = andb (in_shard d c k) (negb (in_index d c k))).
Proof.
  intros Hi Hu Htouch.
  destruct (find_orphaned_ok d None index Hi Hu) as (o & Hfind & Ho & Hl).
  exists o.
  assert (Hlist : forall c k, listed o c k = in_index d c k).
  { intros c k. rewrite Hl. cbn. now rewrite andb_true_r. }
  split.
  { unfold find_orphaned_metadata in *. cbn [get_strings_from_xml] in *.
    rewrite Hi in *. cbn [fst] in Hfind. now rewrite Hfind. }
  split; [exact Hlist|].
  intros Hexec.
  destruct (cleanup_exec_disk mtime argv d None index o Hi Htouch Hexec Hfind Ho)
    as (index2 & Hok & Hi2 & Hc2 & Hs).
  split; [exact Hok|]. intros c k. split.
  - rewrite (in_index_listed _ index2 c k Hi2), Hc2.
    rewrite remove_from_index_listed by exact Ho.
    rewrite Hlist, (in_index_listed d index c k Hi).
    now destruct (listed (categories index) c k).
  - now rewrite Hs, Hlist.
Qed.

Lemma missing_strings_file_orphans_every_key_witness :
  index_json orphan_disk
  = Some (mkIndex [("auth", ["gone"; "sign_in"])] [] 2 2 "2025-01-01" []) /\
  fst (find_orphaned_metadata orphan_disk None)
  = Ok [("auth", ["gone"; "sign_in"])] /\
  in_index (snd (fst (cleanup_main "0" ["--execute"] orphan_disk None)))
           "auth" "sign_in" = false /\
  in_shard (snd (fst (cleanup_main "0" ["--execute"] orphan_disk None)))
           "auth" "sign_in" = false.
Proof.
  split; [reflexivity|]. split; [reflexivity|].
  destruct (missing_strings_file_orphans_every_key "0" ["--execute"]
              orphan_disk _ eq_refl eq_refl eq_refl) as (o & _ & _ & H).
  destruct (H eq_refl) as [_ H2]. destruct (H2 "auth" "sign_in") as [H3 H4].
  split; [exact H3|]. rewrite H4. reflexivity.
Defined.

(* ================================================================== *)
(** ** update_index.py *)
(* ================================================================== *)

Lemma Z_len_sorted_keys (data : Shard) :
  Z_len (sorted (dict_keys data)) = Z_len data.
Proof.
  unfold Z_len, sorted, dict_keys.
  rewrite (Permutation_length (sort_on_perm (fun s : string => s) _)).
  now rewrite length_map.
Qed.

(** The loop over the files, when no two files have the same name. *)
Lemma scan_closed l : forall s,
  NoDup (dict_keys l) ->
  (forall c, In c (dict_keys l) ->
             ~ In c (dict_keys (scan_categories s)) /\
             ~ In c (dict_keys (scan_files s))) ->
  fold_left scan_file l s
  = mkScan
      (scan_categories s
       ++ map (fun cs => (fst cs, sorted (dict_keys (snd cs)))) l)
      (scan_files s
       ++ map (fun cs => (fst cs,
                 ("metadata_divesms/" ++ fst cs ++ ".yaml")%string)) l)
      (scan_total s + shard_sizes l)
      (scan_out s
       ++ map (fun cs => CategoryStrings (fst cs)
                 (List.length (sorted (dict_keys (snd cs))))) l).
Proof.
  induction l as [|[c data] l IH]; intros s Hnd Hfresh.
  - cbn. rewrite !app_nil_r, Z.add_0_r. now destruct s.
  - cbn [fold_left]. cbn [dict_keys map fst] in Hnd. inversion Hnd as [|? ? Hc Hl].
    subst. destruct (Hfresh c (or_introl eq_refl)) as [Hf1 Hf2].
    rewrite IH.
    + unfold scan_file. cbn [scan_categories scan_files scan_total scan_out
                               fst snd map shard_sizes fold_right].
      rewrite (dict_set_fresh _ _ _ Hf1), (dict_set_fresh _ _ _ Hf2).
      rewrite <- !app_assoc. cbn [app]. rewrite Z_len_sorted_keys.
      f_equal. fold (shard_sizes l). lia.
    + exact Hl.
    + intros c' Hc'. unfold scan_file.
      cbn [scan_categories scan_files fst snd].
      rewrite (dict_set_fresh _ _ _ Hf1), (dict_set_fresh _ _ _ Hf2).
      unfold dict_keys. rewrite !map_app, !in_app_iff. cbn [map fst In].
      destruct (Hfresh c' (or_intror Hc')) as [H1 H2].
      assert (Hne : c <> c') by (intros ->; contradiction).
      split; intros [H|[H|[]]]; auto.
Qed.

Lemma shard_sizes_perm l l' :
  Permutation l l' -> shard_sizes l = shard_sizes l'.
Proof.
  unfold shard_sizes. induction 1; cbn [fold_right]; lia.
Qed.

Lemma yaml_files_perm d : Permutation (yaml_files d) (category_yaml d).
Proof. apply sort_on_perm. Qed.

Lemma yaml_files_NoDup d :
  unique_keys (category_yaml d) = true -> NoDup (dict_keys (yaml_files d)).
Proof.
  intros Hu. apply unique_keys_NoDup in Hu.
  eapply Permutation_NoDup; [|exact Hu].
  apply Permutation_map, Permutation_sym, yaml_files_perm.
Qed.

Lemma yaml_files_get d c :
  unique_keys (category_yaml d) = true ->
  dict_get c (yaml_files d) = dict_get c (category_yaml d).
Proof.
  intros Hu. apply dict_get_perm; [now apply yaml_files_NoDup|].
  apply yaml_files_perm.
Qed.

(** The directory [update_index] leaves. *)
Lemma update_index_disk today d :
  unique_keys (category_yaml d) = true ->
  fst (update_index_main today d)
  = mkDisk
      (Some (mkIndex
               (map (fun cs => (fst cs, sorted (dict_keys (snd cs))))
                    (yaml_files d))
               (map (fun cs => (fst cs,
                       ("metadata_divesms/" ++ fst cs ++ ".yaml")%string))
                    (yaml_files d))
               (shard_sizes (category_yaml d))
               (shard_sizes (category_yaml d))
               today
               (other_fields (match index_json d with
                              | Some index => index
                              | None => new_index
                              end))))
      (defaults_json d) (category_yaml d).
Proof.
  intros Hu. unfold update_index_main. cbn [fst].
  rewrite scan_closed.
  - cbn [scan_categories scan_files scan_total app].
    now rewrite (shard_sizes_perm _ _ (yaml_files_perm d)).
  - now apply yaml_files_NoDup.
  - intros c _. cbn. tauto.
Qed.

Lemma str_in_sorted_keys {V} k (data : dict V) :
  str_in k (sorted (dict_keys data)) = dict_in k data.
Proof.
  apply bool_ext. now rewrite str_in_iff, sorted_In, dict_in_iff.
Qed.

Lemma ascending_map_fst {V W} (key : string -> string) (f : V -> W)
    (l : dict V) :
  ascending (fun cs => key (fst cs)) (map (fun cs => (fst cs, f (snd cs))) l)
  = ascending (fun cs => key (fst cs)) l.
Proof.
  induction l as [|[c v] l IH]; [reflexivity|].
  cbn [map ascending fst snd]. rewrite IH. now destruct l as [|[c' v'] l'].
Qed.

(** X18: [update_index] rebuilds the index from the shard files and
    touches nothing else: afterwards the index lists a key under a
    category exactly when the category's shard has an entry for it,
    has a category for every shard file in the order of the file names
    with the keys sorted, names each file, counts the entries of all
    shards in both totals and carries the date; the other members of
    an index that was there are kept; a second run the same day
    changes nothing. *)
Theorem update_index_lists_the_shards (today : string) (d : Disk) :
  unique_keys (category_yaml d) = true ->
  exists index',
    index_json (fst (update_index_main today d)) = Some index' /\
    category_yaml (fst (update_index_main today d)) = category_yaml d /\
    defaults_json (fst (update_index_main today d)) = defaults_json d /\
    (forall c k, in_index (fst (update_index_main today d)) c k
                 = in_shard d c k) /\
    (forall c, index_has_category (fst (update_index_main today d)) c
               = dict_in c (category_yaml d)) /\
    (forall c, dict_in c (category_yaml d) = true ->
               dict_get c (files index')
               = Some ("metadata_divesms/" ++ c ++ ".yaml")%string) /\
    total_strings index' = shard_sizes (category_yaml d) /\
    documented_strings index' = shard_sizes (category_yaml d) /\
    last_updated index' = today /\
    (forall index, index_json d = Some index ->
                   other_fields index' = other_fields index) /\
    ascending (fun cks => (fst cks ++ ".yaml")%string) (categories index')
    = true /\
    (forall c keys, In (c, keys) (categories index') ->
                    ascending (fun s : string => s) keys = true) /\
    fst (update_index_main today (fst (update_index_main today d)))
    = fst (update_index_main today d).
Proof.
  intros Hu. rewrite (update_index_disk today d Hu).
  eexists. split; [reflexivity|]. cbn [category_yaml defaults_json].
  split; [reflexivity|]. split; [reflexivity|].
  split.
  { intros c k. unfold in_index, in_shard. cbn [index_json categories].
    rewrite (dict_get_map (fun data : Shard => sorted (dict_keys data))),
      (yaml_files_get d c Hu).
    destruct (dict_get c (category_yaml d)) as [data|]; cbn [option_map];
      [apply str_in_sorted_keys | reflexivity]. }
  split.
  { intros c. unfold index_has_category, dict_in. cbn [index_json categories].
    rewrite (dict_get_map (fun data : Shard => sorted (dict_keys data))),
      (yaml_files_get d c Hu).
    now destruct (dict_get c (category_yaml d)). }
  split.
  { intros c Hc. cbn [files].
    assert (Hin : In c (dict_keys (yaml_files d))).
    { apply dict_in_iff. unfold dict_in in *.
      now rewrite (yaml_files_get d c Hu). }
    pose proof (yaml_files_NoDup d Hu) as Hnd.
    induction (yaml_files d) as [|[c0 v0] l IH]; [destruct Hin|].
    cbn [map dict_get fst snd]. eqb_keep c c0; [now subst c0|].
    cbn [dict_keys map fst] in Hin, Hnd. inversion Hnd; subst.
    destruct Hin as [Hin|Hin]; [congruence|]. now apply IH. }
  cbn [total_strings documented_strings last_updated other_fields categories].
  split; [reflexivity|]. split; [reflexivity|]. split; [reflexivity|].
  split; [now intros index ->|].
  split.
  { rewrite (ascending_map_fst (fun c => (c ++ ".yaml")%string)
                (fun data : Shard => sorted (dict_keys data))).
    apply sort_on_ascending. }
  split.
  { intros c keys Hin. apply in_map_iff in Hin.
    destruct Hin as ([c0 data] & [= <- <-] & _). apply sort_on_ascending. }
  rewrite update_index_disk by exact Hu. reflexivity.
Qed.

Lemma update_index_lists_the_shards_witness :
  unique_keys (category_yaml unindexed_disk) = true /\
  index_json (fst (update_index_main "2025-06-01" unindexed_disk))
  = Some (mkIndex [("a", ["k"]); ("b", ["j"; "k"])]
                  [("a", "metadata_divesms/a.yaml");
                   ("b", "metadata_divesms/b.yaml")]
                  3 3 "2025-06-01" (other_fields new_index)) /\
  forall c k, in_index (fst (update_index_main "2025-06-01" unindexed_disk)) c k
              = in_shard unindexed_disk c k.
Proof.
  split; [reflexivity|]. split; [reflexivity|].
  destruct (update_index_lists_the_shards "2025-06-01" unindexed_disk eq_refl)
    as (index' & _ & _ & _ & H & _).
  exact H.
Defined.

Lemma find_category_first K cats c keys :
  In (c, keys) cats -> In K keys ->
  exists c' keys',
    find_category K cats = Some c' /\ In (c', keys') cats /\ In K keys'.
Proof.
  induction cats as [|[c0 ks0] cats IH]; intros Hin HK; [destruct Hin|].
  cbn [find_category]. destruct (str_in K ks0) eqn:E.
  - exists c0, ks0. apply str_in_iff in E. repeat split; auto. now left.
  - destruct Hin as [[= -> ->]|Hin].
    + apply str_in_false_iff in E. contradiction.
    + destruct (IH Hin HK) as (c' & keys' & Hf & Hin' & HK').
      exists c', keys'. repeat split; auto. now right.
Qed.

(** X19: after [update_index], an object opened on the directory finds
    every key that has an entry in some shard: [get_string_metadata]
    reads the entry of a shard that has one (of the only such shard,
    when there is only one) and merges it with the defaults. *)
Theorem update_index_makes_entries_reachable (today : string) (d : Disk)
    (c K : string) :
  unique_keys (category_yaml d) = true ->
  in_shard d c K = true ->
  exists c' data r,
    dict_get c' (category_yaml d) = Some data /\
    dict_get K data = Some r /\
    ((forall c2, in_shard d c2 K = true -> c2 = c) -> c' = c) /\
    fst (get_string_metadata K
           (mkIO (fst (update_index_main today d)) None PNone []))
    = match merge (defaults_on_disk d) r with
      | Ok merged => Ok (Some merged)
      | Raise e => Raise e
      end.
Proof.
  intros Hu Hin. rewrite get_string_metadata_result.
  rewrite (update_index_disk today d Hu). unfold string_metadata_of.
  cbn [index_view _index disk index_json categories].
  unfold in_shard in Hin.
  destruct (dict_get c (category_yaml d)) as [data0|] eqn:Ec; [|discriminate].
  assert (H0 : In (c, sorted (dict_keys data0))
                  (map (fun cs : string * Shard =>
                          (fst cs, sorted (dict_keys (snd cs))))
                       (yaml_files d))).
  { apply in_map_iff. exists (c, data0). split; [reflexivity|].
    apply dict_get_In. now rewrite (yaml_files_get d c Hu). }
  destruct (find_category_first K _ c _ H0) as (c' & keys' & Hf & Hin' & HK').
  { apply sorted_In, dict_in_iff. exact Hin. }
  unfold Shard in *. rewrite Hf. apply in_map_iff in Hin'.
  destruct Hin' as ([c1 data] & [= <- <-] & Hy). cbn [fst snd] in *.
  assert (Hget : dict_get c1 (category_yaml d) = Some data).
  { rewrite <- (yaml_files_get d c1 Hu). apply In_dict_get; [|exact Hy].
    now apply yaml_files_NoDup. }
  apply sorted_In, dict_in_iff in HK'. unfold dict_in in HK'.
  destruct (dict_get K data) as [r|] eqn:Er; [|discriminate].
  exists c1, data, r. split; [exact Hget|]. split; [exact Er|].
  split.
  { intros Honly. apply Honly. unfold in_shard, dict_in. now rewrite Hget, Er. }
  unfold shard_view. cbn [_category_cache dict_get disk category_yaml].
  rewrite Hget, Er. reflexivity.
Qed.

Lemma update_index_makes_entries_reachable_witness :
  unique_keys (category_yaml unindexed_disk) = true /\
  in_shard unindexed_disk "b" "j" = true /\
  fst (get_string_metadata "j" (mkIO unindexed_disk None PNone []))
  = Raise (FileNotFoundError "index.json") /\
  fst (get_string_metadata "j"
         (mkIO (fst (update_index_main "2025-06-01" unindexed_disk))
               None PNone []))
  = Ok (Some [("purpose", PStr "j")]) /\
  exists c' data r,
    dict_get c' (category_yaml unindexed_disk) = Some data /\
    dict_get "j" data = Some r /\
    ((forall c2, in_shard unindexed_disk c2 "j" = true -> c2 = "b") ->
     c' = "b") /\
    fst (get_string_metadata "j"
           (mkIO (fst (update_index_main "2025-06-01" unindexed_disk))
                 None PNone []))
    = match merge (defaults_on_disk unindexed_disk) r with
      | Ok merged => Ok (Some merged)
      | Raise e => Raise e
      end.
Proof.
  split; [reflexivity|]. split; [reflexivity|]. split; [reflexivity|].
  split; [reflexivity|].
  exact (update_index_makes_entries_reachable "2025-06-01" unindexed_disk
           "b" "j" eq_refl eq_refl).
Defined.

(* ================================================================== *)
(** ** generate_metadata_from_xml.py: [get_category] *)
(* ================================================================== *)

Lemma lower_char_idem c : lower_char (lower_char c) = lower_char c.
Proof. destruct c as [[] [] [] [] [] [] [] []]; reflexivity. Qed.

Lemma lower_idem s : lower (lower s) = lower s.
Proof.
  induction s as [|c r IH]; [reflexivity|].
  cbn [lower]. now rewrite lower_char_idem, IH.
Qed.

Lemma prefix_trans p : forall q s,
  String.prefix p q = true -> String.prefix q s = true ->
  String.prefix p s = true.
Proof.
  induction p as [|a p IH]; intros q s Hpq Hqs; [now destruct s|].
  destruct q as [|b q]; [discriminate|]. destruct s as [|c s]; [discriminate|].
  cbn [String.prefix] in *.
  destruct (ascii_dec a b) as [->|]; [|discriminate].
  destruct (ascii_dec b c) as [->|]; [|discriminate].
  destruct (ascii_dec c c); [|congruence]. now apply (IH q s).
Qed.

(** Where a pattern occurs, so does each of its prefixes. *)
Lemma contains_prefix p q s :
  String.prefix p q = true -> contains q s = true -> contains p s = true.
Proof.
  intros Hpq. induction s as [|c r IH]; cbn [contains]; intros H;
    apply orb_true_iff in H; apply orb_true_iff.
  - destruct H as [H|H]; [|discriminate]. left. now apply (prefix_trans p q).
  - destruct H as [H|H]; [left; now apply (prefix_trans p q) | right; auto].
Qed.

Lemma first_category_none patterns s :
  first_category patterns s = None <->
  forall c pats p, In (c, pats) patterns -> In p pats -> contains p s = false.
Proof.
  induction patterns as [|[c0 pats0] l IH]; cbn [first_category].
  - split; [intros _ c pats p [] | reflexivity].
  - destruct (existsb (fun pattern => contains pattern s) pats0) eqn:E.
    + split; [discriminate|]. intros H. exfalso.
      apply existsb_exists in E. destruct E as (p & Hp & Hc).
      rewrite (H c0 pats0 p) in Hc; [discriminate | now left | exact Hp].
    + rewrite IH. split.
      * intros H c pats p [[= <- <-]|Hin] Hp; [|now apply (H c pats)].
        destruct (contains p s) eqn:Ec; [|reflexivity].
        assert (existsb (fun pattern => contains pattern s) pats0 = true)
          by (apply existsb_exists; now exists p).
        congruence.
      * intros H c pats p Hin. apply (H c). now right.
Qed.

Lemma first_category_some patterns s c :
  first_category patterns s = Some c ->
  exists before pats after p,
    patterns = before ++ (c, pats) :: after /\
    In p pats /\ contains p s = true /\
    forall c' pats' p', In (c', pats') before -> In p' pats' ->
                        contains p' s = false.
Proof.
  induction patterns as [|[c0 pats0] l IH]; cbn [first_category];
    [discriminate|].
  destruct (existsb (fun pattern => contains pattern s) pats0) eqn:E.
  - intros [= <-]. apply existsb_exists in E. destruct E as (p & Hp & Hc).
    exists [], pats0, l, p. repeat split; auto. intros c' pats' p' [].
  - intros H. destruct (IH H) as (before & pats & after & p & -> & Hp & Hc & Hb).
    exists ((c0, pats0) :: before), pats, after, p. repeat split; auto.
    intros c' pats' p' [[= <- <-]|Hin] Hp'; [|now apply (Hb c' pats')].
    destruct (contains p' s) eqn:Ec; [|reflexivity].
    assert (existsb (fun pattern => contains pattern s) pats0 = true)
      by (apply existsb_exists; now exists p').
    congruence.
Qed.

Lemma first_category_key patterns s c :
  first_category patterns s = Some c -> In c (dict_keys patterns).
Proof.
  intros H. destruct (first_category_some _ _ _ H)
    as (before & pats & after & p & -> & _).
  unfold dict_keys. rewrite map_app. apply in_or_app. right. now left.
Qed.

(** X20: [get_category] takes the first category of the table, in the
    order of the table, one of whose patterns occurs anywhere in the
    lowercased key: the answer is [other] exactly when no pattern of
    the table occurs; otherwise a pattern of the category returned
    occurs and no pattern of a category before it does.  Capitals in
    the key make no difference. *)
Theorem get_category_takes_first_match (K : string) :
  (get_category K = "other" <->
   forall c pats p, In (c, pats) CATEGORY_PATTERNS -> In p pats ->
                    contains p (lower K) = false) /\
  (get_category K <> "other" ->
   exists before pats after p,
     CATEGORY_PATTERNS = before ++ (get_category K, pats) :: after /\
     In p pats /\ contains p (lower K) = true /\
     forall c' pats' p', In (c', pats') before -> In p' pats' ->
                         contains p' (lower K) = false) /\
  get_category (lower K) = get_category K.
Proof.
  unfold get_category. rewrite lower_idem.
  destruct (first_category CATEGORY_PATTERNS (lower K)) as [c|] eqn:E.
  - split; [|split; [intros _; now apply first_category_some | reflexivity]].
    split.
    + intros ->. apply first_category_key in E. exfalso. cbn in E.
      repeat (destruct E as [E|E]; [discriminate|]). exact E.
    + intros H. apply first_category_none in H. congruence.
  - split; [|split; [congruence | reflexivity]].
    split; [intros _; now apply first_category_none | reflexivity].
Qed.

(** X21: the pattern [rate_us] of [cross_promotion] never decides: a
    key in which it occurs also holds [rate_], a pattern of [buttons],
    which comes first; so a key gets [cross_promotion] only when
    [install_browser] occurs in it. *)
Theorem rate_us_pattern_never_decides (K : string) :
  (contains "rate_us" (lower K) = true ->
   get_category K <> "cross_promotion" /\ get_category K <> "other") /\
  (get_category K = "cross_promotion" ->
   contains "install_browser" (lower K) = true).
Proof.
  assert (Hrate : contains "rate_us" (lower K) = true ->
                  contains "rate_" (lower K) = true).
  { apply contains_prefix. reflexivity. }
  unfold get_category, CATEGORY_PATTERNS. set (s := lower K) in *.
  cbn [first_category existsb]. split.
  - intros H. apply Hrate in H. clear Hrate.
    repeat match goal with
           | |- context [contains ?p s] =>
               let E := fresh "E" in
               destruct (contains p s) eqn:E; cbn [orb];
               try (split; discriminate); try congruence
           end.
  - repeat match goal with
           | |- context [contains ?p s] =>
               let E := fresh "E" in
               destruct (contains p s) eqn:E; cbn [orb];
               try discriminate; try reflexivity
           end.
    intros _. specialize (Hrate eq_refl). congruence.
Qed.

(* ================================================================== *)
(** ** generate_metadata_from_xml.py: [has_format_specifiers], [has_html] *)
(* ================================================================== *)

Lemma conversion_not_percent c :
  is_android_conversion c = true -> Ascii.eqb c "%" = false.
Proof.
  intros H. destruct (Ascii.eqb c "%") eqn:E; [|reflexivity].
  apply Ascii.eqb_eq in E. subst c. discriminate.
Qed.

Lemma digit_not_percent c : is_digit c = true -> Ascii.eqb c "%" = false.
Proof.
  intros H. destruct (Ascii.eqb c "%") eqn:E; [|reflexivity].
  apply Ascii.eqb_eq in E. subst c. discriminate.
Qed.

Lemma digit_not_conversion c :
  is_digit c = true -> is_android_conversion c = false.
Proof.
  destruct c as [[] [] [] [] [] [] [] []]; try reflexivity; discriminate.
Qed.

(** The positional form matches where the digits, the [$] and the
    letter are. *)
Lemma digits_then_matches r : forall n,
  match digits_then n r with Some _ => true | None => false end
  = digits_dollar_conversion (Nat.ltb 0 n) r.
Proof.
  induction r as [|c r IH]; intros n; [reflexivity|].
  cbn [digits_then digits_dollar_conversion].
  destruct (is_digit c); [now rewrite IH|].
  destruct (Nat.ltb 0 n); cbn [andb]; [|reflexivity].
  destruct (Ascii.eqb c "$"); cbn [andb]; [|reflexivity].
  destruct r as [|c2 r2]; [reflexivity|]. now destruct (is_android_conversion c2).
Qed.

Lemma digits_then_percent_free r : forall n m,
  digits_then n r = Some m -> n <= m /\ percent_free (m - n) r = true.
Proof.
  induction r as [|c r IH]; intros n m; [discriminate|].
  cbn [digits_then]. destruct (is_digit c) eqn:Ed.
  - intros H. destruct (IH _ _ H) as [Hle Hp]. split; [lia|].
    replace (m - n) with (S (m - S n)) by lia.
    cbn [percent_free]. now rewrite (digit_not_percent _ Ed), Hp.
  - destruct (andb (Nat.ltb 0 n) (Ascii.eqb c "$")) eqn:E; [|discriminate].
    apply andb_true_iff in E. destruct E as [_ E]. apply Ascii.eqb_eq in E.
    subst c. destruct r as [|c2 r2]; [discriminate|].
    destruct (is_android_conversion c2) eqn:Ec; [|discriminate].
    intros [= <-]. split; [lia|].
    replace (n + 2 - n) with 2 by lia.
    cbn [percent_free]. now rewrite (conversion_not_percent _ Ec).
Qed.

Lemma specifier_length_percent_free r m :
  specifier_length r = Some m -> percent_free m r = true.
Proof.
  unfold specifier_length. destruct r as [|c r]; [discriminate|].
  destruct (is_android_conversion c) eqn:Ec.
  - intros [= <-]. cbn [percent_free].
    now rewrite (conversion_not_percent _ Ec).
  - intros H. apply digits_then_percent_free in H.
    now rewrite Nat.sub_0_r in H.
Qed.

(** Characters without a [%] hold no match, passed or scanned. *)
Lemma finditer_skip s : forall n,
  percent_free n s = true ->
  List.length (finditer_specifiers n s)
  = List.length (finditer_specifiers 0 s).
Proof.
  induction s as [|c r IH]; intros n; [now destruct n|].
  destruct n as [|k]; [reflexivity|].
  cbn [percent_free finditer_specifiers]. intros H.
  apply andb_true_iff in H. destruct H as [Hc Hk].
  apply negb_true_iff in Hc. rewrite Hc. now apply IH.
Qed.

Lemma finditer_step c r :
  List.length (finditer_specifiers 0 (String c r))
  = (if andb (Ascii.eqb c "%")
             (match specifier_length r with Some _ => true | None => false end)
     then 1 else 0)
    + List.length (finditer_specifiers 0 r).
Proof.
  cbn [finditer_specifiers]. destruct (Ascii.eqb c "%"); [|reflexivity].
  destruct (specifier_length r) as [m|] eqn:E; [|reflexivity].
  cbn [andb List.length].
  rewrite (finditer_skip r m (specifier_length_percent_free r m E)).
  reflexivity.
Qed.

Lemma findall_step c r :
  List.length (re_findall_android_specs (String c r))
  = (if andb (Ascii.eqb c "%")
             (match r with
              | String c2 _ => is_android_conversion c2
              | EmptyString => false
              end)
     then 1 else 0)
    + List.length (re_findall_android_specs r).
Proof.
  cbn [re_findall_android_specs]. destruct (Ascii.eqb c "%"); [|reflexivity].
  destruct r as [|c2 r2]; [reflexivity|].
  destruct (is_android_conversion c2) eqn:Ec; [|reflexivity].
  cbn [andb List.length]. cbn [re_findall_android_specs].
  now rewrite (conversion_not_percent _ Ec).
Qed.

Lemma finditer_count text :
  List.length (finditer_specifiers 0 text)
  = List.length (re_findall_android_specs text)
    + count_positional_specifiers text.
Proof.
  induction text as [|c r IH]; [reflexivity|].
  rewrite finditer_step, findall_step, IH.
  cbn [count_positional_specifiers].
  destruct (Ascii.eqb c "%"); cbn [andb]; [|lia].
  unfold specifier_length. destruct r as [|c2 r2]; [cbn; lia|].
  destruct (is_android_conversion c2) eqn:Ec.
  - cbn [digits_dollar_conversion].
    destruct (is_digit c2) eqn:Ed;
      [apply digit_not_conversion in Ed; congruence|].
    cbn [andb]. lia.
  - pose proof (digits_then_matches (String c2 r2) 0) as Hd.
    change (Nat.ltb 0 0) with false in Hd. rewrite <- Hd.
    destruct (digits_then 0 (String c2 r2)); lia.
Qed.

(** X22: the specifiers [has_format_specifiers] returns are the plain
    ones, a [%] and a conversion letter, which [save_translations]
    counts, and the positional ones such as [%1$d], which it does not
    count; their positions run from 1 in order, and the flag tells
    whether there is one.  So a text [save_translations] finds two
    plain specifiers in is a text the generator marks. *)
Theorem generator_finds_plain_and_positional_specifiers (text : string) :
  List.length (snd (has_format_specifiers text))
  = List.length (re_findall_android_specs text)
    + count_positional_specifiers text /\
  map snd (snd (has_format_specifiers text))
  = seq 1 (List.length (snd (has_format_specifiers text))) /\
  fst (has_format_specifiers text)
  = Nat.ltb 0 (List.length (snd (has_format_specifiers text))) /\
  (has_multiple_android_specs text = true ->
   fst (has_format_specifiers text) = true).
Proof.
  assert (Hlen : List.length (snd (has_format_specifiers text))
                 = List.length (finditer_specifiers 0 text)).
  { unfold has_format_specifiers. destruct text as [|c r]; [reflexivity|].
    change (String.eqb (String c r) "") with false. cbv iota zeta.
    cbn [snd]. rewrite length_combine, length_seq. lia. }
  split; [rewrite Hlen; apply finditer_count|].
  split.
  { unfold has_format_specifiers. destruct text as [|c r]; [reflexivity|].
    change (String.eqb (String c r) "") with false. cbv iota zeta.
    cbn [snd]. rewrite length_combine, length_seq, Nat.min_id.
    set (l := finditer_specifiers 0 (String c r)).
    generalize 1. induction l as [|x l IH]; intros n; [reflexivity|].
    cbn [List.length seq combine map snd]. now rewrite IH. }
  split.
  { unfold has_format_specifiers. now destruct (String.eqb text ""). }
  intros Hm. unfold has_multiple_android_specs in Hm.
  apply Nat.leb_le in Hm.
  assert (Hfst : fst (has_format_specifiers text)
                 = Nat.ltb 0 (List.length (snd (has_format_specifiers text)))).
  { unfold has_format_specifiers. now destruct (String.eqb text ""). }
  rewrite Hfst, Hlen, finditer_count. apply Nat.ltb_lt.
  destruct (nonempty text); cbn [List.length] in Hm; lia.
Qed.

Lemma tag_body_sound s : forall seen,
  tag_body_then_close seen s = true ->
  exists body post,
    s = String.append body (String ">" post) /\ no_close body = true /\
    (seen = false -> body <> EmptyString).
Proof.
  induction s as [|c r IH]; intros seen; cbn [tag_body_then_close];
    [discriminate|].
  destruct (Ascii.eqb c ">") eqn:Ec.
  - intros ->. apply Ascii.eqb_eq in Ec. subst c.
    exists EmptyString, r. repeat split. discriminate.
  - intros H. destruct (IH true H) as (body & post & -> & Hn & _).
    exists (String c body), post. cbn [String.append no_close].
    rewrite Ec, Hn. repeat split. discriminate.
Qed.

Lemma tag_body_complete body post : forall seen,
  no_close body = true ->
  seen = true \/ body <> EmptyString ->
  tag_body_then_close seen (String.append body (String ">" post)) = true.
Proof.
  induction body as [|c r IH]; intros seen Hn Hs.
  - cbn. destruct Hs as [->|Hs]; [reflexivity | congruence].
  - cbn [no_close] in Hn. apply andb_true_iff in Hn. destruct Hn as [Hc Hr].
    apply negb_true_iff in Hc. cbn [String.append tag_body_then_close].
    rewrite Hc. apply IH; [exact Hr | now left].
Qed.

(** X23: [has_html] tells whether the text holds a [<], then one or
    more characters none of which is a [>], then a [>]. *)
Theorem has_html_iff (text : string) :
  has_html text = true <->
  exists pre body post,
    text = String.append pre
             (String "<" (String.append body (String ">" post))) /\
    body <> EmptyString /\ no_close body = true.
Proof.
  assert (Hsearch : forall s,
    re_search_tag s = true <->
    exists pre body post,
      s = String.append pre
            (String "<" (String.append body (String ">" post))) /\
      body <> EmptyString /\ no_close body = true).
  { induction s as [|c r IH].
    - split; [discriminate|]. intros (pre & body & post & H & _).
      destruct pre; discriminate.
    - cbn [re_search_tag]. rewrite orb_true_iff, IH. split.
      + intros [H|(pre & body & post & -> & Hb)].
        * destruct (Ascii.eqb c "<") eqn:Ec; [|discriminate].
          apply Ascii.eqb_eq in Ec. subst c.
          destruct (tag_body_sound _ _ H) as (body & post & -> & Hn & Hb).
          exists EmptyString, body, post. repeat split; auto.
        * exists (String c pre), body, post. now split.
      + intros (pre & body & post & H & Hb & Hn).
        destruct pre as [|p pre]; cbn [String.append] in H.
        * injection H as -> ->. left. cbn.
          apply tag_body_complete; [exact Hn | now right].
        * injection H as -> ->. right. exists pre, body, post. now split. }
  unfold has_html. destruct text as [|c r].
  - split; [discriminate|]. intros (pre & body & post & H & _).
    destruct pre; discriminate.
  - change (String.eqb (String c r) "") with false. cbv iota. apply Hsearch.
Qed.

(* ================================================================== *)
(** ** manage_string_metadata.py: records and the working set *)
(* ================================================================== *)

(** X24: a [StringMetadata] keeps eight fields and nothing else: built
    from the dictionary of a record it gives the record back, and the
    dictionary of a record built from [data] has the eight fields in a
    fixed order, each with the value [data] has for it or its default,
    and no other field of [data]. *)
Theorem string_metadata_keeps_eight_fields (data : Metadata)
    (m : StringMetadata) :
  string_metadata_init (to_dict m) = Some m /\
  (string_metadata_init data = Some m ->
   dict_keys (to_dict m)
   = ["category"; "ui"; "context"; "purpose"; "constraints";
      "translation_guidance"; "references"; "technical"] /\
   (forall f v, In f (dict_keys (to_dict m)) ->
                dict_get f data = Some v -> dict_get f (to_dict m) = Some v) /\
   (forall f, ~ In f (dict_keys (to_dict m)) ->
              dict_get f (to_dict m) = None) /\
   (dict_in "category" data = false ->
    dict_get "category" (to_dict m) = Some (PStr "")) /\
   (forall f, In f ["ui"; "context"; "constraints"; "translation_guidance";
                    "references"; "technical"] ->
              dict_in f data = false ->
              dict_get f (to_dict m) = Some (PDict [])) /\
   (dict_in "purpose" data = false ->
    dict_get "purpose" (to_dict m) = Some (PStr ""))).
Proof.
  split; [now destruct m|].
  unfold string_metadata_init.
  destruct (dict_get_default "category" (PStr "") data) as [| | |cat| |] eqn:Ec;
    try discriminate.
  intros [= <-]. split; [reflexivity|]. split.
  { intros f v Hin Hv. cbn in Hin.
    repeat (destruct Hin as [<-|Hin];
            [cbn; unfold dict_get_default in *; rewrite Hv in *;
             congruence|]).
    destruct Hin. }
  split.
  { intros f Hf. apply dict_get_None_iff. exact Hf. }
  unfold dict_in, dict_get_default in *.
  split.
  { cbn. destruct (dict_get "category" data); [discriminate|].
    intros _. congruence. }
  split.
  { clear Ec. intros f Hin H.
    repeat (destruct Hin as [<-|Hin];
            [cbn; revert H; now destruct (dict_get _ data)|]).
    destruct Hin. }
  cbn. now destruct (dict_get "purpose" data).
Qed.

Lemma string_metadata_keeps_eight_fields_witness :
  string_metadata_init
    [("category", PStr "auth"); ("note", PStr "dropped");
     ("purpose", PStr "Sign in")]
  = Some (mkStringMetadata "auth" (PDict []) (PDict []) (PStr "Sign in")
            (PDict []) (PDict []) (PDict []) (PDict [])) /\
  dict_get "note"
    (to_dict (mkStringMetadata "auth" (PDict []) (PDict []) (PStr "Sign in")
                (PDict []) (PDict []) (PDict []) (PDict []))) = None.
Proof.
  split; [reflexivity|].
  destruct (string_metadata_keeps_eight_fields
              [("category", PStr "auth"); ("note", PStr "dropped");
               ("purpose", PStr "Sign in")]
              (mkStringMetadata "auth" (PDict []) (PDict []) (PStr "Sign in")
                 (PDict []) (PDict []) (PDict []) (PDict [])))
    as [_ H].
  destruct (H eq_refl) as (_ & _ & Hnone & _).
  apply Hnone. cbn. intuition discriminate.
Defined.

(** X25: the working set of the manager: a removed key is no longer
    found and the other keys keep their records; removing a key that is
    not there changes nothing; an added record is found under its key
    and the other keys keep theirs; [list_all] gives the documented
    keys, each once, in sorted order. *)
Theorem working_set_operations (mgr : MetadataManager) (key : string) :
  get_metadata (remove_metadata mgr key) key = None /\
  (forall k, k <> key ->
             get_metadata (remove_metadata mgr key) k = get_metadata mgr k) /\
  (get_metadata mgr key = None -> remove_metadata mgr key = mgr) /\
  (forall data mgr',
     add_metadata mgr key data = Some mgr' ->
     get_metadata mgr' key = string_metadata_init data /\
     forall k, k <> key -> get_metadata mgr' k = get_metadata mgr k) /\
  ascending (fun s : string => s) (list_all mgr) = true /\
  (forall k, In k (list_all mgr) <-> get_metadata mgr k <> None) /\
  (unique_keys (metadata mgr) = true -> NoDup (list_all mgr)).
Proof.
  unfold get_metadata, remove_metadata, add_metadata, list_all.
  split.
  { unfold dict_in. destruct (dict_get key (metadata mgr)) eqn:E.
    - cbn [with_metadata metadata]. now rewrite dict_get_del, String.eqb_refl.
    - exact E. }
  split.
  { intros k Hk. destruct (dict_in key (metadata mgr)); [|reflexivity].
    cbn [with_metadata metadata]. rewrite dict_get_del.
    apply String.eqb_neq in Hk. now rewrite Hk. }
  split.
  { intros H. unfold dict_in. now rewrite H. }
  split.
  { intros data mgr'. destruct (string_metadata_init data) as [m|];
      [|discriminate].
    intros [= <-]. cbn [with_metadata metadata]. split.
    - now rewrite dict_get_set_eq.
    - intros k Hk. now apply dict_get_set_ne. }
  split; [apply sort_on_ascending|].
  split.
  { intros k. rewrite sorted_In, <- dict_in_iff. unfold dict_in.
    destruct (dict_get k (metadata mgr)); split; congruence. }
  intros Hu. apply sorted_NoDup. now apply unique_keys_NoDup.
Qed.

Lemma working_set_operations_witness :
  get_metadata example_manager "sign_in" = Some (plain "auth") /\
  get_metadata (remove_metadata example_manager "sign_in") "sign_in" = None /\
  remove_metadata example_manager "other" = example_manager /\
  list_all example_manager = ["sign_in"].
Proof.
  split; [reflexivity|].
  destruct (working_set_operations example_manager "sign_in") as (H1 & _).
  destruct (working_set_operations example_manager "other") as (_ & _ & H3 & _).
  split; [exact H1|]. split; [now apply H3 | reflexivity].
Defined.

(* ================================================================== *)
(** ** manage_string_metadata.py: [validate_consistency], [get_statistics] *)
(* ================================================================== *)

Lemma In_firstn {A} (x : A) : forall n l, In x (firstn n l) -> In x l.
Proof.
  induction n as [|n IH]; intros [|a l]; cbn [firstn]; try now intros [].
  intros [->|H]; [now left | right; now apply IH].
Qed.

Section Issues.

Variable listing : list string -> list string.
Variable xml_strings : dict string.
Variables missing orphaned : list string.

Local Abbreviation missing_block :=
  (match missing with
  | [] => []
  | _ =>
      [StringsWithoutMetadata (List.length missing)]
      ++ map (fun key =>
                MissingMetadata key
                  (substring 0 50 (dict_get_default key "" xml_strings)))
             (sorted (firstn 10 (listing missing)))
      ++ (if Nat.ltb 10 (List.length missing)
          then [AndMoreMissing (List.length missing - 10)]
          else [])
  end).

Local Abbreviation orphaned_block :=
  (match orphaned with
  | [] => []
  | _ =>
      MetadataWithoutStrings (List.length orphaned)
      :: map OrphanedMetadata (sorted (listing orphaned))
  end).

Local Abbreviation issues :=
  (match missing_block ++ orphaned_block with
  | [] => [AllInSync]
  | _ => missing_block ++ orphaned_block
  end).

Lemma issues_in_sync :
  issues = [AllInSync] <-> missing = [] /\ orphaned = [].
Proof.
  destruct missing; [destruct orphaned|]; cbn.
  - now split.
  - split; [discriminate | intros [_ H]; discriminate].
  - split; [discriminate | intros [H _]; discriminate].
Qed.

Lemma issues_in x :
  In x issues <->
  (x = AllInSync /\ missing = [] /\ orphaned = [])
  \/ In x missing_block \/ In x orphaned_block.
Proof.
  destruct (missing_block ++ orphaned_block) as [|i r] eqn:E.
  - apply app_eq_nil in E. destruct E as [E1 E2]. rewrite E1, E2.
    assert (Hm : missing = []).
    { revert E1. now destruct missing. }
    assert (Ho : orphaned = []).
    { revert E2. now destruct orphaned. }
    cbn. split.
    + intros [<-|[]]. now left.
    + intros [(-> & _)|[[]|[]]]. now left.
  - rewrite <- E, in_app_iff. split; [now right|].
    intros [(_ & Hm & Ho)|H]; [|exact H]. exfalso.
    revert E. now rewrite Hm, Ho.
Qed.

Lemma missing_block_in x :
  In x missing_block ->
  x = StringsWithoutMetadata (List.length missing)
  \/ (exists key, In key (firstn 10 (listing missing)) /\
                  x = MissingMetadata key
                        (substring 0 50
                           (dict_get_default key "" xml_strings)))
  \/ x = AndMoreMissing (List.length missing - 10).
Proof.
  destruct missing as [|m0 mr] eqn:E; [intros []|].
  rewrite <- E. rewrite !in_app_iff. intros [[<-|[]]|[H|H]].
  - now left.
  - right. left. apply in_map_iff in H. destruct H as (key & <- & Hk).
    exists key. split; [|reflexivity]. exact (proj1 (sorted_In _ _) Hk).
  - right. right. destruct (Nat.ltb 10 (List.length missing)); [|destruct H].
    now destruct H as [<-|[]].
Qed.

Lemma orphaned_block_in x :
  In x orphaned_block <->
  orphaned <> [] /\
  (x = MetadataWithoutStrings (List.length orphaned)
   \/ exists key, In key (listing orphaned) /\ x = OrphanedMetadata key).
Proof.
  destruct orphaned as [|o0 r] eqn:E.
  - split; [intros [] | now intros [H _]].
  - rewrite <- E. cbn [In]. rewrite in_map_iff. split.
    + intros [<-|(key & <- & Hk)]; (split; [now rewrite E|]).
      * now left.
      * right. exists key. split; [|reflexivity]. exact (proj1 (sorted_In _ _) Hk).
    + intros [_ [->|(key & Hk & ->)]]; [now left|]. right.
      exists key. split; [reflexivity|]. exact (proj2 (sorted_In _ _) Hk).
Qed.

End Issues.

(** X26: [validate_consistency] answers with the one line [in sync]
    exactly when [strings.xml] and the working set have the same keys;
    otherwise every documented key that is not in [strings.xml] has its
    line, and no other key has one, while a line for a string without
    metadata names a key of [strings.xml] that is not documented, with
    the first fifty characters of its text.  The manager notes the
    number of strings and keeps its working set. *)
Theorem validate_reports_the_differences (listing : list string -> list string)
    (mgr : MetadataManager) (xml : option (list StringElem)) :
  (forall l, Permutation (listing l) l) ->
  let xml_strings := fst (manager_strings_from_xml xml) in
  let result := validate_consistency listing mgr xml in
  (snd (fst result) = [AllInSync] <->
   forall k, In k (dict_keys xml_strings) <-> In k (dict_keys (metadata mgr))) /\
  (forall k, In (OrphanedMetadata k) (snd (fst result)) <->
             In k (dict_keys (metadata mgr)) /\
             ~ In k (dict_keys xml_strings)) /\
  (forall k text, In (MissingMetadata k text) (snd (fst result)) ->
                  In k (dict_keys xml_strings) /\
                  ~ In k (dict_keys (metadata mgr)) /\
                  text = substring 0 50 (dict_get_default k "" xml_strings)) /\
  file_data_total_strings (fst (fst result))
  = Z_len (dict_keys xml_strings) /\
  metadata (fst (fst result)) = metadata mgr.
Proof.
  intros Hperm xml_strings result. subst result xml_strings.
  unfold validate_consistency.
  destruct (manager_strings_from_xml xml) as [xs out].
  cbn [fst snd].
  set (missing := filter (fun k => negb (str_in k (dict_keys (metadata mgr))))
                         (dict_keys xs)).
  set (orphaned := filter (fun k => negb (str_in k (dict_keys xs)))
                          (dict_keys (metadata mgr))).
  assert (Hmiss : forall k, In k missing <->
                            In k (dict_keys xs) /\
                            ~ In k (dict_keys (metadata mgr))).
  { intros k. unfold missing. rewrite filter_In, negb_true_iff.
    now rewrite str_in_false_iff. }
  assert (Horph : forall k, In k orphaned <->
                            In k (dict_keys (metadata mgr)) /\
                            ~ In k (dict_keys xs)).
  { intros k. unfold orphaned. rewrite filter_In, negb_true_iff.
    now rewrite str_in_false_iff. }
  clearbody missing orphaned.
  assert (Hsame : (missing = [] /\ orphaned = []) <->
                  forall k, In k (dict_keys xs) <->
                            In k (dict_keys (metadata mgr))).
  { split.
    - intros [Hm Ho] k. split; intros Hk.
      + destruct (in_dec string_dec k (dict_keys (metadata mgr))) as [H|H];
          [exact H|].
        assert (Hin : In k missing) by (now apply Hmiss).
        rewrite Hm in Hin. destruct Hin.
      + destruct (in_dec string_dec k (dict_keys xs)) as [H|H]; [exact H|].
        assert (Hin : In k orphaned) by (now apply Horph).
        rewrite Ho in Hin. destruct Hin.
    - intros H. split.
      + destruct missing as [|k r]; [reflexivity|]. exfalso.
        destruct (proj1 (Hmiss k) (or_introl eq_refl)) as [H1 H2].
        now apply H2, H.
      + destruct orphaned as [|k r]; [reflexivity|]. exfalso.
        destruct (proj1 (Horph k) (or_introl eq_refl)) as [H1 H2].
        now apply H2, H. }
  split.
  { rewrite <- Hsame. apply issues_in_sync. }
  split.
  { intros k. rewrite <- Horph.
    rewrite (issues_in listing xs missing orphaned). split.
    - intros [[H _]|[H|H]]; [discriminate| |].
      + apply missing_block_in in H.
        destruct H as [H|[(key & _ & H)|H]]; discriminate.
      + apply orphaned_block_in in H.
        destruct H as [_ [H|(key & Hk & [= ->])]]; [discriminate|].
        eapply Permutation_in; [apply Hperm | exact Hk].
    - intros Hk. right. right. apply orphaned_block_in. split.
      + intros E. rewrite E in Hk. destruct Hk.
      + right. exists k. split; [|reflexivity].
        eapply Permutation_in; [apply Permutation_sym, Hperm | exact Hk]. }
  split.
  { intros k text Hin.
    apply (issues_in listing xs missing orphaned) in Hin.
    destruct Hin as [[H _]|[H|H]]; [discriminate| |].
    - apply missing_block_in in H.
      destruct H as [H|[(key & Hk & [= -> ->])|H]]; try discriminate.
      apply In_firstn in Hk.
      apply (Permutation_in _ (Hperm missing)), Hmiss in Hk.
      destruct Hk as [H1 H2]. now repeat split.
    - apply orphaned_block_in in H.
      destruct H as [_ [H|(key & _ & H)]]; discriminate. }
  split; reflexivity.
Qed.

Lemma validate_reports_the_differences_witness :
  (forall l : list string, Permutation ((fun l => l) l) l) /\
  snd (fst (validate_consistency (fun l => l) example_manager
              (Some [mkElem "sign_in" "Sign in" None])))
  = [AllInSync] /\
  snd (fst (validate_consistency (fun l => l) example_manager
              (Some [mkElem "sign_up" "Sign up" None])))
  = [StringsWithoutMetadata 1; MissingMetadata "sign_up" "Sign up";
     MetadataWithoutStrings 1; OrphanedMetadata "sign_in"] /\
  In (OrphanedMetadata "sign_in")
     (snd (fst (validate_consistency (fun l => l) example_manager
                  (Some [mkElem "sign_up" "Sign up" None])))).
Proof.
  split; [intros l; apply Permutation_refl|].
  split; [reflexivity|]. split; [reflexivity|].
  destruct (validate_reports_the_differences (fun l => l) example_manager
              (Some [mkElem "sign_up" "Sign up" None])
              (fun l => Permutation_refl l)) as (_ & H & _).
  apply H. cbn. intuition discriminate.
Defined.

Lemma sum_counts_set k v (d : dict Z) :
  sum_counts (dict_set k v d)
  = (sum_counts d - dict_get_default k 0%Z d + v)%Z.
Proof.
  unfold sum_counts, dict_get_default.
  induction d as [|[k0 v0] d IH]; cbn [dict_set dict_get fold_right snd].
  - lia.
  - destruct (String.eqb k k0); cbn [fold_right snd]; [lia|].
    rewrite IH. lia.
Qed.

Lemma count_categories_sum working : forall acc,
  sum_counts
    (fold_left
       (fun (categories : dict Z) m =>
          dict_set (sm_category m)
            (@dict_get_default Z (sm_category m) 0%Z categories + 1)%Z
            categories)
       working acc)
  = (sum_counts acc + Z_len working)%Z.
Proof.
  unfold Z_len.
  induction working as [|m r IH]; intros acc; cbn [fold_left List.length].
  - cbn. lia.
  - rewrite IH, sum_counts_set. lia.
Qed.

Lemma count_flag_bounds name working n :
  count_flag name working = Ok n -> (0 <= n <= Z_len working)%Z.
Proof.
  unfold Z_len. revert n.
  induction working as [|m r IH]; intros n; cbn [count_flag List.length].
  - intros [= <-]. lia.
  - destruct (technical_flag name m) as [b|e]; [|discriminate].
    destruct (count_flag name r) as [n'|e]; [|discriminate].
    intros [= <-]. specialize (IH n' eq_refl). destruct b; lia.
Qed.

Lemma count_flag_ok name working :
  is_ok (count_flag name working)
  = forallb (fun m => is_dict (sm_technical m)) working.
Proof.
  induction working as [|m r IH]; [reflexivity|].
  cbn [count_flag forallb]. unfold technical_flag.
  destruct (sm_technical m); cbn [is_dict andb is_ok]; try reflexivity.
  rewrite <- IH. now destruct (count_flag name r).
Qed.

(** X27: the numbers of [get_statistics] add up: the counts by
    category sum to the number of documented strings, undocumented and
    documented sum to the total, and each count of a technical feature
    lies between 0 and the number of documented strings.  The method
    raises exactly when the [technical] of some record is no mapping. *)
Theorem statistics_add_up (mgr : MetadataManager)
    (xml : option (list StringElem)) :
  (forall stats,
     fst (get_statistics mgr xml) = Ok stats ->
     sum_counts (stat_categories stats) = stat_documented_strings stats /\
     stat_documented_strings stats = Z_len (metadata mgr) /\
     (stat_undocumented_strings stats + stat_documented_strings stats)%Z
     = stat_total_strings stats /\
     (0 <= stat_format_specifiers stats <= stat_documented_strings stats)%Z /\
     (0 <= stat_emoji stats <= stat_documented_strings stats)%Z /\
     (0 <= stat_html stats <= stat_documented_strings stats)%Z) /\
  is_ok (fst (get_statistics mgr xml))
  = forallb (fun m => is_dict (sm_technical m)) (dict_values (metadata mgr)).
Proof.
  unfold get_statistics.
  destruct (manager_strings_from_xml xml) as [xs out]. cbn [fst].
  assert (Hlen : Z_len (dict_values (metadata mgr)) = Z_len (metadata mgr)).
  { unfold Z_len, dict_values. now rewrite length_map. }
  pose proof (count_flag_ok "format_specifiers" (dict_values (metadata mgr)))
    as H1.
  pose proof (count_flag_ok "contains_emoji" (dict_values (metadata mgr)))
    as H2.
  pose proof (count_flag_ok "html_formatting" (dict_values (metadata mgr)))
    as H3.
  destruct (count_flag "format_specifiers" (dict_values (metadata mgr)))
    as [n1|e1] eqn:E1; cbn [is_ok] in H1.
  - destruct (count_flag "contains_emoji" (dict_values (metadata mgr)))
      as [n2|e2] eqn:E2; cbn [is_ok] in H2; [|congruence].
    destruct (count_flag "html_formatting" (dict_values (metadata mgr)))
      as [n3|e3] eqn:E3; cbn [is_ok] in H3; [|congruence].
    split; [|exact H1].
    intros stats [= <-]. cbn [stat_categories stat_documented_strings
      stat_undocumented_strings stat_total_strings stat_format_specifiers
      stat_emoji stat_html].
    apply count_flag_bounds in E1, E2, E3. rewrite Hlen in *.
    split.
    { unfold count_categories. rewrite count_categories_sum, Hlen.
      cbn. lia. }
    split; [reflexivity|]. split; [lia|]. now repeat split.
  - split; [discriminate | exact H1].
Qed.

Lemma statistics_add_up_witness :
  exists stats,
    fst (get_statistics example_manager
           (Some [mkElem "sign_in" "Sign in" None;
                  mkElem "sign_up" "Sign up" None])) = Ok stats /\
    stat_categories stats = [("auth", 1%Z)] /\
    sum_counts (stat_categories stats) = stat_documented_strings stats /\
    stat_undocumented_strings stats = 1%Z.
Proof.
  eexists. split; [reflexivity|]. split; [reflexivity|].
  split; [|reflexivity].
  exact (proj1 (proj1 (statistics_add_up example_manager
                         (Some [mkElem "sign_in" "Sign in" None;
                                mkElem "sign_up" "Sign up" None]))
                      _ eq_refl)).
Defined.

(** X28: the [validate] command writes the counts into the index: with
    the split format there, the index afterwards holds the number of
    distinct names of [strings.xml] as the total, the size of the
    working set as the number of documented strings, and the date. *)
Theorem validate_command_records_counts (listing : list string -> list string)
    (today : string) (mgr : MetadataManager) (io : MetadataIO)
    (xml : option (list StringElem)) :
  metadata_io mgr = Some io ->
  is_split_format io = true ->
  exists d' index',
    disk_of (fst (fst (validate_command listing today mgr xml))) = Some d' /\
    index_json d' = Some index' /\
    total_strings index'
    = Z_len (dict_keys (fst (manager_strings_from_xml xml))) /\
    documented_strings index' = Z_len (metadata mgr) /\
    last_updated index' = today /\
    metadata (fst (fst (validate_command listing today mgr xml)))
    = metadata mgr.
Proof.
  intros Hio Hsplit. unfold validate_command, validate_consistency.
  destruct (manager_strings_from_xml xml) as [xs out]. cbn [fst].
  set (mgr' := mkManager (metadata mgr) (Z_len (dict_keys xs))
                         (metadata_io mgr) (metadata_file mgr)).
  destruct (save_split_run today mgr' io Hsplit)
    as (index & io' & _ & Hrun & Hdisk).
  unfold save. cbn [metadata_io mgr']. rewrite Hio, Hsplit, Hrun.
  cbn [fst snd]. unfold disk_of. cbn [metadata_io option_map metadata].
  exists (disk io'). eexists. split; [reflexivity|].
  rewrite Hdisk. cbn [index_json]. split; [reflexivity|].
  cbn [total_strings documented_strings last_updated file_data_total_strings
       metadata mgr'].
  now repeat split.
Qed.

Lemma validate_command_records_counts_witness :
  metadata_io example_manager = Some example_io /\
  is_split_format example_io = true /\
  exists d' index',
    disk_of (fst (fst (validate_command (fun l => l) "2025-06-01"
                         example_manager
                         (Some [mkElem "sign_in" "Sign in" None;
                                mkElem "sign_up" "Sign up" None]))))
    = Some d' /\
    index_json d' = Some index' /\
    total_strings index' = 2%Z /\ documented_strings index' = 1%Z.
Proof.
  split; [reflexivity|]. split; [reflexivity|].
  destruct (validate_command_records_counts (fun l => l) "2025-06-01"
              example_manager example_io
              (Some [mkElem "sign_in" "Sign in" None;
                     mkElem "sign_up" "Sign up" None]) eq_refl eq_refl)
    as (d' & index' & H1 & H2 & H3 & H4 & _).
  exists d', index'. now repeat split.
Defined.
